(** * Recurring-billing handler of [netlify/functions/payment.js]

    A shallow embedding of the serverless payment handler: the JavaScript
    values it receives, the [Date] operations it calls, the four in-memory
    collections it mutates, and the handler itself as a function from a
    request and a store to a response and a store. *)

From Stdlib Require Import ZArith List String Ascii Bool Lia DecimalString
  Permutation.
Import ListNotations.

Local Open Scope string_scope.
Local Open Scope Z_scope.

#[local] Set Warnings "-register-all".

(** ** ECMAScript time values

    A time value is a number of milliseconds since 1970-01-01T00:00:00Z, or
    NaN.  The day and year arithmetic below follows the abstract operations
    of ECMA-262 (section "Time Values and Time Range"). *)

Module JsDate.

Definition msPerDay : Z := 86400000.
Definition msPerHour : Z := 3600000.
Definition msPerMinute : Z := 60000.
Definition msPerSecond : Z := 1000.

Definition Day (t : Z) : Z := t / msPerDay.
Definition TimeWithinDay (t : Z) : Z := t mod msPerDay.

Definition DaysInYear (y : Z) : Z :=
  if negb (y mod 4 =? 0) then 365
  else if negb (y mod 100 =? 0) then 366
  else if negb (y mod 400 =? 0) then 365
  else 366.

Definition DayFromYear (y : Z) : Z :=
  365 * (y - 1970) + (y - 1969) / 4 - (y - 1901) / 100 + (y - 1601) / 400.

Definition TimeFromYear (y : Z) : Z := msPerDay * DayFromYear y.

(** ECMA-262 defines [YearFromTime t] as the largest [y] with
    [TimeFromYear y <= t].  It is computed here from the mean length of a
    Gregorian year (146097 days per 400 years) and one correction step;
    [YearFromTime_spec] below shows that this is the year of the
    definition. *)
Definition YearFromDay (d : Z) : Z :=
  let y0 := 1970 + (400 * d) / 146097 in
  if d <? DayFromYear y0 then y0 - 1
  else if DayFromYear (y0 + 1) <=? d then y0 + 1
  else y0.

Definition YearFromTime (t : Z) : Z := YearFromDay (Day t).

Definition InLeapYear (t : Z) : Z :=
  if DaysInYear (YearFromTime t) =? 366 then 1 else 0.

Definition DayWithinYear (t : Z) : Z := Day t - DayFromYear (YearFromTime t).

Definition MonthFromTime (t : Z) : Z :=
  let d := DayWithinYear t in
  let l := InLeapYear t in
  if d <? 31 then 0
  else if d <? 59 + l then 1
  else if d <? 90 + l then 2
  else if d <? 120 + l then 3
  else if d <? 151 + l then 4
  else if d <? 181 + l then 5
  else if d <? 212 + l then 6
  else if d <? 243 + l then 7
  else if d <? 273 + l then 8
  else if d <? 304 + l then 9
  else if d <? 334 + l then 10
  else 11.

Definition DateFromTime (t : Z) : Z :=
  let d := DayWithinYear t in
  let l := InLeapYear t in
  match MonthFromTime t with
  | 0 => d + 1
  | 1 => d - 30
  | 2 => d - 58 - l
  | 3 => d - 89 - l
  | 4 => d - 119 - l
  | 5 => d - 150 - l
  | 6 => d - 180 - l
  | 7 => d - 211 - l
  | 8 => d - 242 - l
  | 9 => d - 272 - l
  | 10 => d - 303 - l
  | _ => d - 333 - l
  end.

Definition HourFromTime (t : Z) : Z := (t / msPerHour) mod 24.
Definition MinFromTime (t : Z) : Z := (t / msPerMinute) mod 60.
Definition SecFromTime (t : Z) : Z := (t / msPerSecond) mod 60.
Definition msFromTime (t : Z) : Z := t mod msPerSecond.


(** Days in month [m] (1 = January) of year [y]. *)
Definition DaysInMonth (y m : Z) : Z :=
  match m with
  | 2 => if DaysInYear y =? 366 then 29 else 28
  | 4 | 6 | 9 | 11 => 30
  | _ => 31
  end.

(** Number of days of year [y] that precede month [mn] (0 = January); the
    thresholds are those of [MonthFromTime]. *)
Definition MonthStart (y mn : Z) : Z :=
  let l := if DaysInYear y =? 366 then 1 else 0 in
  match mn with
  | 0 => 0
  | 1 => 31
  | 2 => 59 + l
  | 3 => 90 + l
  | 4 => 120 + l
  | 5 => 151 + l
  | 6 => 181 + l
  | 7 => 212 + l
  | 8 => 243 + l
  | 9 => 273 + l
  | 10 => 304 + l
  | _ => 334 + l
  end.

(** [MakeDay year month date]: the month may lie outside 0..11 and the date
    outside the month; both carry over. *)
Definition MakeDay (year month dt : Z) : Z :=
  let ym := year + month / 12 in
  let mn := month mod 12 in
  DayFromYear ym + MonthStart ym mn + dt - 1.

Definition MakeDate (day time : Z) : Z := day * msPerDay + time.

(** A time value is [Some t], or [None] for NaN. *)
Definition timevalue := option Z.

Definition maxTime : Z := 8640000000000000.

Definition TimeClip (t : Z) : timevalue :=
  if Z.abs t >? maxTime then None else Some t.

End JsDate.

Import JsDate.

(** ** JavaScript values and strings

    Request fields are the values a JSON text can hold: the scalars, arrays
    and objects; a missing field reads as [VUndefined].  Numbers are the
    integers.  A [string] stands for a sequence of code units.  An object
    is the list of its own properties, first binding read; what [JSON.parse]
    builds has the prototype of a plain array or object and no callable
    property of its own. *)

Inductive value : Type :=
  | VUndefined
  | VNull
  | VBool (b : bool)
  | VNum (n : Z)
  | VStr (s : string)
  | VArr (elements : list value)
  | VObj (properties : list (string * value)).

(** Arrays and objects, also the empty ones, are truthy. *)
Definition truthy (v : value) : bool :=
  match v with
  | VUndefined | VNull => false
  | VBool b => b
  | VNum n => negb (n =? 0)
  | VStr s => negb (String.eqb s "")
  | VArr _ | VObj _ => true
  end.

(** [a || b] *)
Definition js_or (a b : value) : value := if truthy a then a else b.

(** [a === b].  An array or an object is equal to itself only.  The
    handler compares a value kept from an earlier request, or an id, with a
    value parsed from the current request: these are never the same array
    or object, so the comparison fails whatever they contain. *)
Definition strict_eq (a b : value) : bool :=
  match a, b with
  | VUndefined, VUndefined => true
  | VNull, VNull => true
  | VBool x, VBool y => Bool.eqb x y
  | VNum x, VNum y => x =? y
  | VStr x, VStr y => String.eqb x y
  | _, _ => false
  end.

(** The values that are neither arrays nor objects. *)
Definition primitive (v : value) : bool :=
  match v with
  | VArr _ | VObj _ => false
  | _ => true
  end.

Inductive exn : Type := TypeError | RangeError | SyntaxError.

Definition decimal (z : Z) : string := NilZero.string_of_int (Z.to_int z).

(** [o.hasOwnProperty(k)] *)
Definition has_own (k : string) (o : list (string * value)) : bool :=
  existsb (fun kv => String.eqb (fst kv) k) o.

Section Join.

(** [Array.prototype.join] with the separator [","]: undefined and null
    elements give the empty string, the others are converted by [f]. *)
Variable f : value -> exn + string.

Definition element_text (x : value) : exn + string :=
  match x with
  | VUndefined | VNull => inr ""
  | _ => f x
  end.

Fixpoint join (l : list value) : exn + string :=
  match l with
  | [] => inr ""
  | x :: l' =>
      match element_text x with
      | inl e => inl e
      | inr s =>
          match l' with
          | [] => inr s
          | _ :: _ =>
              match join l' with
              | inl e => inl e
              | inr r => inr (s ++ "," ++ r)
              end
          end
      end
  end.

End Join.

(** [ToString v], as a template literal applies it.  An array is joined
    ([Array.prototype.toString]).  An object goes through
    [OrdinaryToPrimitive]: an own property [toString] is not callable and
    [valueOf] gives no primitive, so the conversion throws a TypeError;
    without it [Object.prototype.toString] answers. *)
Fixpoint ToString (v : value) : exn + string :=
  match v with
  | VUndefined => inr "undefined"
  | VNull => inr "null"
  | VBool b => inr (if b then "true" else "false")
  | VNum n => inr (decimal n)
  | VStr s => inr s
  | VArr l => join ToString l
  | VObj o =>
      if has_own "toString" o then inl TypeError else inr "[object Object]"
  end.

(** An integer or an infinity, the result of [ToIntegerOrInfinity]. *)
Inductive intinf : Type := NegInf | Fin (z : Z) | PosInf.

Definition strlen (s : string) : Z := Z.of_nat (String.length s).

(** [s.slice(start)] on a string. *)
Definition string_slice (start : Z) (s : string) : string :=
  let len := strlen s in
  let from := if start <? 0 then Z.max (len + start) 0 else Z.min start len in
  substring (Z.to_nat from) (Z.to_nat (len - from)) s.

(** [l.slice(start)] on an array: the elements from the index [from]. *)
Definition list_slice {A : Type} (start : Z) (l : list A) : list A :=
  let len := Z.of_nat (List.length l) in
  let from := if start <? 0 then Z.max (len + start) 0 else Z.min start len in
  skipn (Z.to_nat from) l.

(** [v.slice(start)] on a value: strings and arrays have the method; on
    anything else the call is a TypeError, also on an object with a
    property [slice], which is no function. *)
Definition value_slice (start : Z) (v : value) : exn + value :=
  match v with
  | VStr s => inr (VStr (string_slice start s))
  | VArr l => inr (VArr (list_slice start l))
  | _ => inl TypeError
  end.

(** [l.slice(0, e)] on an array, [e] already converted: the elements from
    index 0 up to, and without, the index [final]. *)
Definition array_slice0 {A : Type} (e : intinf) (l : list A) : list A :=
  let len := Z.of_nat (List.length l) in
  let final :=
    match e with
    | NegInf => 0
    | Fin z => if z <? 0 then Z.max (len + z) 0 else Z.min z len
    | PosInf => len
    end in
  firstn (Z.to_nat (Z.max (final - 0) 0)) l.

(** [l.find(p)] followed by an in-place update of the element found. *)
Fixpoint update_first {A : Type} (p : A -> bool) (f : A -> A) (l : list A)
  : list A :=
  match l with
  | [] => []
  | x :: l' => if p x then f x :: l' else x :: update_first p f l'
  end.

(** [s.replace(pat, '')]: the first occurrence of [pat] is removed. *)
Fixpoint strip_prefix (pat s : string) : option string :=
  match pat with
  | EmptyString => Some s
  | String a pat' =>
      match s with
      | EmptyString => None
      | String b s' => if Ascii.eqb a b then strip_prefix pat' s' else None
      end
  end.

Fixpoint remove_first (pat s : string) : string :=
  match strip_prefix pat s with
  | Some r => r
  | None =>
      match s with
      | EmptyString => EmptyString
      | String c s' => String c (remove_first pat s')
      end
  end.

(** [s.split('T')[0]] *)
Fixpoint before_T (s : string) : string :=
  match s with
  | EmptyString => EmptyString
  | String c s' => if Ascii.eqb c "T" then EmptyString else String c (before_T s')
  end.

(** ** Date strings *)

Definition digit_char (d : Z) : ascii := ascii_of_nat (48 + Z.to_nat d).

Definition digit_of (c : ascii) : option Z :=
  let n := Z.of_nat (nat_of_ascii c) in
  if (48 <=? n) && (n <=? 57) then Some (n - 48) else None.

(** [pad n z]: the [n] low decimal digits of [z], most significant first. *)
Fixpoint pad (n : nat) (z : Z) : string :=
  match n with
  | O => EmptyString
  | S k => String (digit_char ((z / 10 ^ Z.of_nat k) mod 10)) (pad k z)
  end.

Fixpoint read_digits (n : nat) (acc : Z) (s : string) : option (Z * string) :=
  match n with
  | O => Some (acc, s)
  | S k =>
      match s with
      | EmptyString => None
      | String c s' =>
          match digit_of c with
          | Some d => read_digits k (10 * acc + d) s'
          | None => None
          end
      end
  end.

Definition read_char (c : ascii) (s : string) : option string :=
  match s with
  | String c' s' => if Ascii.eqb c c' then Some s' else None
  | EmptyString => None
  end.

(** The year of the ISO format: four digits, or a sign and six digits. *)
Definition iso_year (y : Z) : string :=
  if (0 <=? y) && (y <=? 9999) then pad 4 y
  else String (if y <? 0 then "-"%char else "+"%char) (pad 6 (Z.abs y)).

Definition iso_date (y m d : Z) : string :=
  iso_year y ++ "-" ++ pad 2 m ++ "-" ++ pad 2 d.

Definition read_year (s : string) : option (Z * string) :=
  match s with
  | String "+" s' => read_digits 6 0 s'
  | String "-" s' =>
      match read_digits 6 0 s' with
      | Some (y, r) => if y =? 0 then None else Some (- y, r)
      | None => None
      end
  | _ => read_digits 4 0 s
  end.

(** The date-only form [YYYY-MM-DD] of the ECMAScript date-time string
    format, with in-range month and day. *)
Definition parse_iso_date (s : string) : option (Z * Z * Z) :=
  match read_year s with
  | Some (y, s1) =>
      match read_char "-" s1 with
      | Some s2 =>
          match read_digits 2 0 s2 with
          | Some (m, s3) =>
              match read_char "-" s3 with
              | Some s4 =>
                  match read_digits 2 0 s4 with
                  | Some (d, EmptyString) =>
                      if (1 <=? m) && (m <=? 12) && (1 <=? d)
                         && (d <=? DaysInMonth y m)
                      then Some (y, m, d) else None
                  | _ => None
                  end
              | None => None
              end
          | None => None
          end
      | None => None
      end
  | None => None
  end.

(** [toISOString] of a finite time value. *)
Definition ISOString (t : Z) : string :=
  iso_date (YearFromTime t) (MonthFromTime t + 1) (DateFromTime t)
  ++ "T" ++ pad 2 (HourFromTime t) ++ ":" ++ pad 2 (MinFromTime t)
  ++ ":" ++ pad 2 (SecFromTime t) ++ "." ++ pad 3 (msFromTime t) ++ "Z".

(** [d.toISOString()]: throws a RangeError on an invalid date. *)
Definition toISOString (tv : timevalue) : exn + string :=
  match tv with
  | Some t => inr (ISOString t)
  | None => inl RangeError
  end.

(** ** The host

    What ECMA-262 leaves to the implementation, and the parts of the
    runtime the handler reaches only on unusual input: the local time zone
    adjustment, the parsing of date strings other than the date-only ISO
    form, the [he-IL] rendering of a date, and the conversion of a string
    to a number (used when [limit] is a string, an array or an object). *)

Record Host : Type := {
  LocalTZA : Z -> bool -> Z;
  Date_parse_other : string -> timevalue;
  toLocaleDateString_heIL : Z -> string;
  StringToIntegerOrInfinity : string -> intinf
}.

(** A host whose local time is UTC, which renders dates as [d.M.yyyy], and
    which accepts no other date strings and no numeric strings. *)
Definition utc_host : Host := {|
  LocalTZA := fun _ _ => 0;
  Date_parse_other := fun _ => None;
  toLocaleDateString_heIL := fun t =>
    decimal (DateFromTime t) ++ "." ++ decimal (MonthFromTime t + 1) ++ "."
    ++ decimal (YearFromTime t);
  StringToIntegerOrInfinity := fun _ => Fin 0
|}.

Section Runtime.

Variable host : Host.

Definition LocalTime (t : Z) : Z := t + LocalTZA host t true.
Definition UTC (t : Z) : Z := t - LocalTZA host t false.

(** [Date.parse s] *)
Definition Date_parse (s : string) : timevalue :=
  match parse_iso_date s with
  | Some (y, m, d) => TimeClip (MakeDate (MakeDay y (m - 1) d) 0)
  | None => Date_parse_other host s
  end.

(** [new Date(v)] for one argument.  An array or an object is first
    converted to a primitive, which throws or gives a string. *)
Definition new_Date (v : value) : exn + timevalue :=
  match v with
  | VStr s => inr (Date_parse s)
  | VNum n => inr (TimeClip n)
  | VBool b => inr (Some (if b then 1 else 0))
  | VNull => inr (Some 0)
  | VUndefined => inr None
  | VArr _ | VObj _ =>
      match ToString v with
      | inl e => inl e
      | inr s => inr (Date_parse s)
      end
  end.

(** [d.getMonth()]; [None] is NaN. *)
Definition getMonth (tv : timevalue) : option Z :=
  option_map (fun t => MonthFromTime (LocalTime t)) tv.

(** [d.setMonth(m)]: the new time value of [d]. *)
Definition setMonth (tv : timevalue) (m : option Z) : timevalue :=
  match tv, m with
  | Some t0, Some m =>
      let t := LocalTime t0 in
      let newDate :=
        MakeDate (MakeDay (YearFromTime t) m (DateFromTime t))
                 (TimeWithinDay t) in
      TimeClip (UTC newDate)
  | _, _ => None
  end.

(** The relative end of [l.slice(0, v)]: the length when [v] is undefined,
    [ToIntegerOrInfinity v] otherwise, which converts an array or an object
    to a primitive first and throws when there is none. *)
Definition relativeEnd (v : value) : exn + intinf :=
  match v with
  | VUndefined => inr PosInf
  | VNull => inr (Fin 0)
  | VBool b => inr (Fin (if b then 1 else 0))
  | VNum n => inr (Fin n)
  | VStr s => inr (StringToIntegerOrInfinity host s)
  | VArr _ | VObj _ =>
      match ToString v with
      | inl e => inl e
      | inr s => inr (StringToIntegerOrInfinity host s)
      end
  end.

(** [d.toLocaleDateString('he-IL')] *)
Definition toLocaleDateString (tv : timevalue) : string :=
  match tv with
  | Some t => toLocaleDateString_heIL host t
  | None => "Invalid Date"
  end.

End Runtime.

(** ** The store

    The module-level arrays [customers], [paymentMethods],
    [recurringPayments], [payments] and the counter [idCounter].  A property
    an object does not have reads as [VUndefined]. *)

Module Customer.
Record t : Type := {
  id : Z;
  parent_name : value;
  phone : value;
  email : value;
  child_name : value;
  child_age : value;
  allergies : value;
  notes : value;
  created_at : string;
  status : string
}.
End Customer.

Module Method.
Record t : Type := {
  id : Z;
  customer_id : value;
  payment_type : string;
  card_number_last4 : value;
  card_holder_name : value;
  card_expiry_month : value;
  card_expiry_year : value;
  bank_code : value;
  branch_code : value;
  account_number : value;
  account_holder_name : value;
  is_default : bool;
  is_active : bool;
  created_at : string
}.

Definition set_account_number (v : value) (m : t) : t :=
  {| id := id m; customer_id := customer_id m;
     payment_type := payment_type m;
     card_number_last4 := card_number_last4 m;
     card_holder_name := card_holder_name m;
     card_expiry_month := card_expiry_month m;
     card_expiry_year := card_expiry_year m;
     bank_code := bank_code m; branch_code := branch_code m;
     account_number := v;
     account_holder_name := account_holder_name m;
     is_default := is_default m; is_active := is_active m;
     created_at := created_at m |}.
End Method.

Module Recurring.
Record t : Type := {
  id : Z;
  customer_id : value;
  payment_method_id : value;
  amount : value;
  currency : string;
  frequency : value;
  start_date : value;
  end_date : value;
  next_payment_date : string;
  status : string;
  created_at : string
}.

Definition set_status (s : string) (r : t) : t :=
  {| id := id r; customer_id := customer_id r;
     payment_method_id := payment_method_id r; amount := amount r;
     currency := currency r; frequency := frequency r;
     start_date := start_date r; end_date := end_date r;
     next_payment_date := next_payment_date r;
     status := s; created_at := created_at r |}.
End Recurring.

Module Payment.
Record t : Type := {
  id : Z;
  customer_id : value;
  payment_method_id : value;
  amount : value;
  currency : string;
  payment_type : string;
  status : string;
  due_date : value;
  description : string;
  created_at : string
}.
End Payment.

Record store : Type := {
  customers : list Customer.t;
  paymentMethods : list Method.t;
  recurringPayments : list Recurring.t;
  payments : list Payment.t;
  idCounter : Z
}.

Definition initial : store := {|
  customers := [];
  paymentMethods := [];
  recurringPayments := [];
  payments := [];
  idCounter := 1
|}.

(** ** Requests and responses *)

(** The properties of a JSON object: the fields in order, first binding
    read. *)
Definition object : Type := list (string * value).

Definition field (o : object) (k : string) : value :=
  match find (fun kv => String.eqb (fst kv) k) o with
  | Some kv => snd kv
  | None => VUndefined
  end.

(** [event.body]: absent or empty, a text that [JSON.parse] rejects, or
    the JSON text of a value. *)
Inductive payload : Type :=
  | NoBody
  | Malformed
  | Json (v : value).

Record event : Type := {
  httpMethod : string;
  path : string;
  body : payload
}.

(** [event.body ? JSON.parse(event.body) : {}] *)
Definition parse_body (p : payload) : exn + value :=
  match p with
  | NoBody => inr (VObj [])
  | Malformed => inl SyntaxError
  | Json v => inr v
  end.

(** [const { ... } = body]: the fields a route reads are those of an
    object; null cannot be destructured; a number, a boolean, a string or
    an array has none of the fields the routes name. *)
Definition destructure (v : value) : exn + object :=
  match v with
  | VObj o => inr o
  | VUndefined | VNull => inl TypeError
  | _ => inr []
  end.

(** One element of the [payment_methods] listing:
    [{...m, card_number: ..., account_number: ...}]. *)
Record method_view : Type := {
  shown : Method.t;
  card_number : value
}.

(** The object handed to [JSON.stringify], one constructor per literal;
    the [success] flag and the [message] text follow from the constructor
    and its arguments and are left out. *)
Inductive reply : Type :=
  | Empty
  | Failure (error : string)
  | Registered (customer_id : Z)
  | Config (monthly_amount : Z) (currency : string)
           (supported_payment_types frequencies : list string)
  | CardAdded (method_id : Z) (last4 : value)
  | StandingOrderAdded (method_id : Z)
  | RecurringCreated (recurring_id : Z) (amount : value)
  | PaymentMethods (payment_methods : list method_view)
  | PaymentHistory (payments : list Payment.t)
  | Cancelled
  | NotFound
  | Thrown (e : exn).

Record response : Type := {
  statusCode : Z;
  reply_body : reply
}.

Definition respond (code : Z) (r : reply) : response :=
  {| statusCode := code; reply_body := r |}.

(** ** The handler *)

Definition MONTHLY_AMOUNT : Z := 3500.

Section Handler.

Variable host : Host.

(** Successive readings of the system clock, [new Date()], within one
    invocation; each is a finite time value. *)
Variable clock : nat -> Z.

Definition missing_fields : response :=
  respond 400 (Failure "Missing required fields").

Definition register (b : object) (st : store) : response * store :=
  let parent_name := field b "parent_name" in
  let phone := field b "phone" in
  let email := field b "email" in
  let child_name := field b "child_name" in
  let child_age := field b "child_age" in
  let allergies := field b "allergies" in
  let notes := field b "notes" in
  if negb (truthy parent_name) || negb (truthy phone)
     || negb (truthy child_name)
  then (missing_fields, st)
  else
    let customer := {|
      Customer.id := idCounter st;
      Customer.parent_name := parent_name;
      Customer.phone := phone;
      Customer.email := js_or email (VStr "");
      Customer.child_name := child_name;
      Customer.child_age := js_or child_age (VStr "");
      Customer.allergies := js_or allergies (VStr "");
      Customer.notes := js_or notes (VStr "");
      Customer.created_at := ISOString (clock 0);
      Customer.status := "active" |} in
    (respond 200 (Registered (Customer.id customer)),
     {| customers := customers st ++ [customer];
        paymentMethods := paymentMethods st;
        recurringPayments := recurringPayments st;
        payments := payments st;
        idCounter := idCounter st + 1 |}).

Definition config : response :=
  respond 200
    (Config MONTHLY_AMOUNT "ILS" ["credit_card"; "standing_order"] ["monthly"]).

Definition add_credit_card (b : object) (st : store) : response * store :=
  let customer_id := field b "customer_id" in
  let card_number := field b "card_number" in
  let card_holder_name := field b "card_holder_name" in
  let expiry_month := field b "expiry_month" in
  let expiry_year := field b "expiry_year" in
  let cvv := field b "cvv" in
  if negb (truthy customer_id) || negb (truthy card_number)
     || negb (truthy card_holder_name) || negb (truthy expiry_month)
     || negb (truthy expiry_year)
  then (missing_fields, st)
  else
    match value_slice (-4) card_number with
    | inl e => (respond 500 (Thrown e), st)
    | inr last4 =>
        let method := {|
          Method.id := idCounter st;
          Method.customer_id := customer_id;
          Method.payment_type := "credit_card";
          Method.card_number_last4 := last4;
          Method.card_holder_name := card_holder_name;
          Method.card_expiry_month := expiry_month;
          Method.card_expiry_year := expiry_year;
          Method.bank_code := VUndefined;
          Method.branch_code := VUndefined;
          Method.account_number := VUndefined;
          Method.account_holder_name := VUndefined;
          Method.is_default := true;
          Method.is_active := true;
          Method.created_at := ISOString (clock 0) |} in
        (respond 200 (CardAdded (Method.id method) last4),
         {| customers := customers st;
            paymentMethods := paymentMethods st ++ [method];
            recurringPayments := recurringPayments st;
            payments := payments st;
            idCounter := idCounter st + 1 |})
    end.

Definition add_standing_order (b : object) (st : store) : response * store :=
  let customer_id := field b "customer_id" in
  let bank_code := field b "bank_code" in
  let branch_code := field b "branch_code" in
  let account_number := field b "account_number" in
  let account_holder_name := field b "account_holder_name" in
  if negb (truthy customer_id) || negb (truthy bank_code)
     || negb (truthy branch_code) || negb (truthy account_number)
     || negb (truthy account_holder_name)
  then (missing_fields, st)
  else
    let method := {|
      Method.id := idCounter st;
      Method.customer_id := customer_id;
      Method.payment_type := "standing_order";
      Method.card_number_last4 := VUndefined;
      Method.card_holder_name := VUndefined;
      Method.card_expiry_month := VUndefined;
      Method.card_expiry_year := VUndefined;
      Method.bank_code := bank_code;
      Method.branch_code := branch_code;
      Method.account_number := account_number;
      Method.account_holder_name := account_holder_name;
      Method.is_default := true;
      Method.is_active := true;
      Method.created_at := ISOString (clock 0) |} in
    (respond 200 (StandingOrderAdded (Method.id method)),
     {| customers := customers st;
        paymentMethods := paymentMethods st ++ [method];
        recurringPayments := recurringPayments st;
        payments := payments st;
        idCounter := idCounter st + 1 |}).

(** [nextPaymentDate]: a copy of [start] moved by
    [setMonth(getMonth() + 1)]. *)
Definition nextPaymentDate (start : timevalue) : timevalue :=
  setMonth host start (option_map (fun m => m + 1) (getMonth host start)).

(** [nextPaymentDate.toISOString().split('T')[0]] for
    [start = new Date(start_date)], the monthly advance of the start
    date. *)
Definition next_payment_date (start_date : value) : exn + string :=
  match new_Date host start_date with
  | inl e => inl e
  | inr start =>
      match toISOString (nextPaymentDate start) with
      | inl e => inl e
      | inr iso => inr (before_T iso)
      end
  end.

Definition cycle_label : string := "תשלום חודשי - ".

Definition create_recurring (b : object) (st : store) : response * store :=
  let customer_id := field b "customer_id" in
  let payment_method_id := field b "payment_method_id" in
  let amount := field b "amount" in
  let start_date := field b "start_date" in
  let frequency := field b "frequency" in
  let end_date := field b "end_date" in
  if negb (truthy customer_id) || negb (truthy payment_method_id)
     || negb (truthy start_date)
  then (missing_fields, st)
  else
    match new_Date host start_date with
    | inl e => (respond 500 (Thrown e), st)
    | inr start =>
    match toISOString (nextPaymentDate start) with
    | inl e =>
        (* the object literal has taken its id when toISOString throws *)
        (respond 500 (Thrown e),
         {| customers := customers st;
            paymentMethods := paymentMethods st;
            recurringPayments := recurringPayments st;
            payments := payments st;
            idCounter := idCounter st + 1 |})
    | inr iso =>
        let recurring := {|
          Recurring.id := idCounter st;
          Recurring.customer_id := customer_id;
          Recurring.payment_method_id := payment_method_id;
          Recurring.amount := js_or amount (VNum MONTHLY_AMOUNT);
          Recurring.currency := "ILS";
          Recurring.frequency := js_or frequency (VStr "monthly");
          Recurring.start_date := start_date;
          Recurring.end_date := js_or end_date VNull;
          Recurring.next_payment_date := before_T iso;
          Recurring.status := "active";
          Recurring.created_at := ISOString (clock 0) |} in
        let payment := {|
          Payment.id := idCounter st + 1;
          Payment.customer_id := customer_id;
          Payment.payment_method_id := payment_method_id;
          Payment.amount := js_or amount (VNum MONTHLY_AMOUNT);
          Payment.currency := "ILS";
          Payment.payment_type := "recurring";
          Payment.status := "pending";
          Payment.due_date := start_date;
          Payment.description :=
            cycle_label
            ++ toLocaleDateString host (nextPaymentDate start);
          Payment.created_at := ISOString (clock 1) |} in
        let stored := {|
          customers := customers st;
          paymentMethods := paymentMethods st;
          recurringPayments := recurringPayments st ++ [recurring];
          payments := payments st ++ [payment];
          idCounter := idCounter st + 2 |} in
        (* both records are pushed when the message template converts the
           amount to a string *)
        match ToString (js_or amount (VNum MONTHLY_AMOUNT)) with
        | inl e => (respond 500 (Thrown e), stored)
        | inr _ =>
            (respond 200
               (RecurringCreated (Recurring.id recurring)
                  (js_or amount (VNum MONTHLY_AMOUNT))),
             stored)
        end
    end
    end.

(** [v ? `****${shown}` : undefined], with [shown] computed only for a
    truthy [v]. *)
Definition starred (v : value) (shown : exn + value) : exn + value :=
  if truthy v then
    match shown with
    | inl e => inl e
    | inr x =>
        match ToString x with
        | inl e => inl e
        | inr s => inr (VStr ("****" ++ s))
        end
    end
  else inr VUndefined.

(** The redacted copy of one method, or the TypeError of [slice] on an
    account number that has no such method, or of a conversion to a string
    that fails. *)
Definition redact (m : Method.t) : exn + method_view :=
  match starred (Method.card_number_last4 m)
          (inr (Method.card_number_last4 m)) with
  | inl e => inl e
  | inr card_number =>
      match starred (Method.account_number m)
              (value_slice (-4) (Method.account_number m)) with
      | inl e => inl e
      | inr account_number =>
          inr {| shown := Method.set_account_number account_number m;
                 card_number := card_number |}
      end
  end.

Fixpoint map_redact (l : list Method.t) : exn + list method_view :=
  match l with
  | [] => inr []
  | m :: l' =>
      match redact m with
      | inl e => inl e
      | inr v =>
          match map_redact l' with
          | inl e => inl e
          | inr vs => inr (v :: vs)
          end
      end
  end.

Definition payment_methods (b : object) (st : store) : response * store :=
  let customer_id := field b "customer_id" in
  if negb (truthy customer_id)
  then (respond 400 (Failure "customer_id required"), st)
  else
    let methods :=
      filter (fun m => strict_eq (Method.customer_id m) customer_id
                       && Method.is_active m)
             (paymentMethods st) in
    match map_redact methods with
    | inl e => (respond 500 (Thrown e), st)
    | inr views => (respond 200 (PaymentMethods views), st)
    end.

Definition payment_history (b : object) (st : store) : response * store :=
  let customer_id := field b "customer_id" in
  let limit := field b "limit" in
  if negb (truthy customer_id)
  then (respond 400 (Failure "customer_id required"), st)
  else
    let own :=
      filter (fun p => strict_eq (Payment.customer_id p) customer_id)
             (payments st) in
    match relativeEnd host (js_or limit (VNum 12)) with
    | inl e => (respond 500 (Thrown e), st)
    | inr e => (respond 200 (PaymentHistory (array_slice0 e own)), st)
    end.

Definition cancel_recurring (b : object) (st : store) : response * store :=
  let recurring_id := field b "recurring_id" in
  if negb (truthy recurring_id)
  then (respond 400 (Failure "recurring_id required"), st)
  else
    (respond 200 Cancelled,
     {| customers := customers st;
        paymentMethods := paymentMethods st;
        recurringPayments :=
          update_first
            (fun r => strict_eq (VNum (Recurring.id r)) recurring_id)
            (Recurring.set_status "cancelled")
            (recurringPayments st);
        payments := payments st;
        idCounter := idCounter st |}).

(** A route that begins by destructuring the body. *)
Definition reading (route : object -> store -> response * store)
  (body : value) (st : store) : response * store :=
  match destructure body with
  | inl e => (respond 500 (Thrown e), st)
  | inr b => route b st
  end.

(** The routes, the body parsed. *)
Definition dispatch (path method : string) (body : value) (st : store)
  : response * store :=
  let post := String.eqb method "POST" in
  if String.eqb path "/register" && post then reading register body st
  else if String.eqb path "/config" && String.eqb method "GET"
  then (config, st)
  else if String.eqb path "/add-credit-card" && post
  then reading add_credit_card body st
  else if String.eqb path "/add-standing-order" && post
  then reading add_standing_order body st
  else if String.eqb path "/create-recurring" && post
  then reading create_recurring body st
  else if String.eqb path "/payment-methods" && post
  then reading payment_methods body st
  else if String.eqb path "/payment-history" && post
  then reading payment_history body st
  else if String.eqb path "/cancel-recurring" && post
  then reading cancel_recurring body st
  else (respond 404 NotFound, st).

Definition handler (ev : event) (st : store) : response * store :=
  if String.eqb (httpMethod ev) "OPTIONS" then (respond 200 Empty, st)
  else
    let path := remove_first "/.netlify/functions/payment" (path ev) in
    let method := httpMethod ev in
    match parse_body (body ev) with
    | inl e => (respond 500 (Thrown e), st)
    | inr body => dispatch path method body st
    end.

End Handler.

(** ** Runs of the handler *)

(** A POST request to one route of the function, its body the JSON text
    of an object with the fields [b]. *)
Definition post (route : string) (b : object) : event :=
  {| httpMethod := "POST";
     path := "/.netlify/functions/payment" ++ route;
     body := Json (VObj b) |}.

(** The stores the handler can be in: it starts from [initial] and every
    invocation, with whatever clock and request, leaves the next store. *)
Inductive reachable (host : Host) : store -> Prop :=
  | reach_initial : reachable host initial
  | reach_step (clock : nat -> Z) (ev : event) (st : store) :
      reachable host st -> reachable host (snd (handler host clock ev st)).

(** The store after a sequence of invocations. *)
Fixpoint run (host : Host) (trace : list ((nat -> Z) * event)) (st : store)
  : store :=
  match trace with
  | [] => st
  | (clock, ev) :: trace' => run host trace' (snd (handler host clock ev st))
  end.

(** ** Vocabulary of the properties *)

(** A calendar date: month 1..12 and a day that the month has. *)
Definition valid_date (y m d : Z) : Prop :=
  1 <= m <= 12 /\ 1 <= d <= DaysInMonth y m.

(** Calendar order. *)
Definition date_lt (a b : Z * Z * Z) : Prop :=
  let '(y1, m1, d1) := a in
  let '(y2, m2, d2) := b in
  y1 < y2 \/ (y1 = y2 /\ (m1 < m2 \/ (m1 = m2 /\ d1 < d2))).

(** The local time zone adjustment stays within a day. *)
Definition tz_bounded (host : Host) : Prop :=
  forall t b, - msPerDay < LocalTZA host t b < msPerDay.

(** An agreement and the payment record made with it. *)
Definition first_payment_of (r : Recurring.t) (p : Payment.t) : Prop :=
  Payment.id p = Recurring.id r + 1
  /\ Payment.customer_id p = Recurring.customer_id r
  /\ Payment.payment_method_id p = Recurring.payment_method_id r
  /\ Payment.amount p = Recurring.amount r
  /\ Payment.due_date p = Recurring.start_date r
  /\ Payment.status p = "pending".

(** The same JSON value: equal scalars, arrays of the same values in the
    same order, objects of the same properties in the same order.  On
    scalars this is [===]. *)
Fixpoint same_json (a b : value) {struct a} : bool :=
  match a, b with
  | VUndefined, VUndefined => true
  | VNull, VNull => true
  | VBool x, VBool y => Bool.eqb x y
  | VNum x, VNum y => x =? y
  | VStr x, VStr y => String.eqb x y
  | VArr l, VArr l' =>
      (fix all (l l' : list value) {struct l} : bool :=
         match l, l' with
         | [], [] => true
         | x :: t, y :: t' => same_json x y && all t t'
         | _, _ => false
         end) l l'
  | VObj o, VObj o' =>
      (fix all (o o' : list (string * value)) {struct o} : bool :=
         match o, o' with
         | [], [] => true
         | (k, x) :: t, (k', y) :: t' =>
             String.eqb k k' && same_json x y && all t t'
         | _, _ => false
         end) o o'
  | _, _ => false
  end.

(** The methods of one customer and one kind: those stored with the
    customer id given, whatever JSON value it is; and those of them that
    carry the default flag. *)
Definition methods_of (st : store) (customer_id : value) (kind : string)
  : list Method.t :=
  filter (fun m => same_json (Method.customer_id m) customer_id
                   && String.eqb (Method.payment_type m) kind)
         (paymentMethods st).

Definition defaults_of (st : store) (customer_id : value) (kind : string)
  : list Method.t :=
  filter Method.is_default (methods_of st customer_id kind).

(** Records listed with the most recently created first.  Ids come from
    one increasing counter, so the later record has the larger id. *)
Fixpoint most_recent_first (l : list Payment.t) : Prop :=
  match l with
  | [] => True
  | p :: l' =>
      Forall (fun q => Payment.id q < Payment.id p) l' /\ most_recent_first l'
  end.

(** Records listed with the earliest created first. *)
Fixpoint oldest_first (l : list Payment.t) : Prop :=
  match l with
  | [] => True
  | p :: l' =>
      Forall (fun q => Payment.id p < Payment.id q) l' /\ oldest_first l'
  end.

(** A request with the card data cut down to what the store keeps: the
    security code dropped and the card number replaced by its last four
    code units when it is a string, by its last four elements when it is an
    array. *)
Definition redact_field (kv : string * value) : string * value :=
  match kv with
  | (k, VStr s) =>
      if String.eqb k "card_number" then (k, VStr (string_slice (-4) s))
      else if String.eqb k "cvv" then (k, VUndefined)
      else kv
  | (k, VArr l) =>
      if String.eqb k "card_number" then (k, VArr (list_slice (-4) l))
      else if String.eqb k "cvv" then (k, VUndefined)
      else kv
  | (k, _) => if String.eqb k "cvv" then (k, VUndefined) else kv
  end.

Definition redact_payload (p : payload) : payload :=
  match p with
  | Json (VObj o) => Json (VObj (map redact_field o))
  | _ => p
  end.

Definition redact_event (ev : event) : event :=
  {| httpMethod := httpMethod ev; path := path ev;
     body := redact_payload (body ev) |}.

Definition redact_trace (trace : list ((nat -> Z) * event))
  : list ((nat -> Z) * event) :=
  map (fun ce => (fst ce, redact_event (snd ce))) trace.

(** What a stored method holds of a card: at most four code units of a
    number given as a string, at most four elements of one given as an
    array; a standing order holds no card data. *)
Definition card_data_redacted (m : Method.t) : Prop :=
  (Method.payment_type m = "credit_card"
   /\ ((exists last4, Method.card_number_last4 m = VStr last4
                      /\ (String.length last4 <= 4)%nat)
       \/ (exists last4, Method.card_number_last4 m = VArr last4
                         /\ (List.length last4 <= 4)%nat)))
  \/ (Method.payment_type m = "standing_order"
      /\ Method.card_number_last4 m = VUndefined).

(** What a stored method holds of a card whose number came as a string:
    at most four code units. *)
Definition card_number_cut (m : Method.t) : Prop :=
  (Method.payment_type m = "credit_card"
   /\ exists last4, Method.card_number_last4 m = VStr last4
                    /\ (String.length last4 <= 4)%nat)
  \/ (Method.payment_type m = "standing_order"
      /\ Method.card_number_last4 m = VUndefined).

(** Every agreement has its first payment record and every payment record
    its agreement, in the order of creation. *)
Definition paired (st : store) : Prop :=
  Forall2 first_payment_of (recurringPayments st) (payments st).

(** The ledger is in order of creation, below the counter. *)
Definition ledger_ordered (st : store) : Prop :=
  oldest_first (payments st)
  /\ Forall (fun p => Payment.id p < idCounter st) (payments st).

(** The agreement a cancel request names, and the agreements after the
    cancellation. *)
Definition has_id (recurring_id : value) (r : Recurring.t) : bool :=
  strict_eq (VNum (Recurring.id r)) recurring_id.

Definition cancelled_list (recurring_id : value) (l : list Recurring.t)
  : list Recurring.t :=
  update_first (has_id recurring_id) (Recurring.set_status "cancelled") l.

(** Modelled from the spec: the card-number check of the Validation Engine
    (spec section 4.1), which the handler announces in a comment and does
    not contain: strip the non-digits, reject a length outside 12..19, and
    apply the Luhn checksum (every second digit from the right doubled,
    nine taken off a result above 9, total divisible by 10). *)
Fixpoint spec_digits (s : string) : list Z :=
  match s with
  | EmptyString => []
  | String c s' =>
      match digit_of c with
      | Some d => d :: spec_digits s'
      | None => spec_digits s'
      end
  end.

Fixpoint spec_luhn_sum (double : bool) (from_right : list Z) : Z :=
  match from_right with
  | [] => 0
  | d :: ds =>
      (if double then (if 2 * d >? 9 then 2 * d - 9 else 2 * d) else d)
      + spec_luhn_sum (negb double) ds
  end.

Definition spec_card_number_valid (number : string) : bool :=
  let ds := spec_digits number in
  let n := Z.of_nat (List.length ds) in
  (12 <=? n) && (n <=? 19) && (spec_luhn_sum false (rev ds) mod 10 =? 0).

(** Modelled from the spec: advance(date, monthly) of spec section 4.3,
    one calendar month on with the day of the month kept where the target
    month has it and clamped to the last day of the target month where it
    has not. *)
Definition spec_advance (y m d : Z) : Z * Z * Z :=
  let y' := if m =? 12 then y + 1 else y in
  let m' := if m =? 12 then 1 else m + 1 in
  (y', m', Z.min d (DaysInMonth y' m')).

(** The fields of the request: those of the object its body holds. *)
Definition fields (ev : event) : object :=
  match body ev with
  | Json (VObj o) => o
  | _ => []
  end.

(** The request gives no array for a card number. *)
Definition card_number_is_no_array (ev : event) : Prop :=
  forall l, field (fields ev) "card_number" <> VArr l.

(** The store with another customer registry. *)
Definition with_customers (cs : list Customer.t) (st : store) : store :=
  {| customers := cs;
     paymentMethods := paymentMethods st;
     recurringPayments := recurringPayments st;
     payments := payments st;
     idCounter := idCounter st |}.

(** Sample requests. *)
Definition sample_clock : nat -> Z := fun n => 1704067200000 + Z.of_nat n.

Definition recurring_request (customer start_date : value) : object :=
  [("customer_id", customer); ("payment_method_id", VNum 1);
   ("amount", VNum 3500); ("start_date", start_date);
   ("frequency", VStr "monthly")].

Definition card_request (customer : value) (number : string) : object :=
  [("customer_id", customer); ("card_number", VStr number);
   ("card_holder_name", VStr "Israel Israeli"); ("expiry_month", VStr "12");
   ("expiry_year", VStr "2025"); ("cvv", VStr "123");
   ("is_default", VBool true)].

Definition standing_order_request (customer : value) (account : string)
  : object :=
  [("customer_id", customer); ("bank_code", VStr "001");
   ("branch_code", VStr "123"); ("account_number", VStr account);
   ("account_holder_name", VStr "Israel Israeli");
   ("is_default", VBool true)].

(** Sample stores. *)
Definition later_clock : nat -> Z := fun n => 1706745600000 + Z.of_nat n.

(** Two agreements of customer 1, the second created a month after the
    first. *)
Definition two_agreements : store :=
  run utc_host
    [(sample_clock,
      post "/create-recurring"
        (recurring_request (VNum 1) (VStr "2024-01-15")));
     (later_clock,
      post "/create-recurring"
        (recurring_request (VNum 1) (VStr "2024-02-15")))]
    initial.

Definition history_of (r : response) : list Payment.t :=
  match reply_body r with
  | PaymentHistory h => h
  | _ => []
  end.

(** ** Vocabulary of the further properties *)

(** Every id the store holds, of whatever kind of record. *)
Definition all_ids (st : store) : list Z :=
  (map Customer.id (customers st) ++ map Method.id (paymentMethods st)
   ++ map Recurring.id (recurringPayments st)
   ++ map Payment.id (payments st))%list.

(** An agreement later on: as it was, or cancelled. *)
Definition evolves (r r' : Recurring.t) : Prop :=
  r' = r \/ r' = Recurring.set_status "cancelled" r.

(** [st'] holds everything [st] holds: customers, methods and payment
    records as they were, agreements as they were or cancelled, with new
    records only at the end. *)
Definition extends (st st' : store) : Prop :=
  (exists cs, customers st' = (customers st ++ cs)%list)
  /\ (exists ms, paymentMethods st' = (paymentMethods st ++ ms)%list)
  /\ (exists ps, payments st' = (payments st ++ ps)%list)
  /\ (exists rs' rs, recurringPayments st' = (rs' ++ rs)%list
                     /\ Forall2 evolves (recurringPayments st) rs')
  /\ idCounter st <= idCounter st'.

(** A value as the payment-methods listing shows a number: absent, or four
    stars and at most four code units. *)
Definition masked (v : value) : Prop :=
  v = VUndefined
  \/ exists s, v = VStr ("****" ++ s) /\ (String.length s <= 4)%nat.

(** A stored number as the listing shows it: absent when it is absent,
    four stars and its last four code units when it is a string, four
    stars and the text of its last four elements when it is an array. *)
Definition shown_as (stored shown : value) : Prop :=
  (truthy stored = false -> shown = VUndefined)
  /\ (forall s, stored = VStr s -> s <> "" ->
        shown = VStr ("****" ++ string_slice (-4) s))
  /\ (forall l, stored = VArr l ->
        exists s, ToString (VArr (list_slice (-4) l)) = inr s
                  /\ shown = VStr ("****" ++ s)).

(** One entry of the listing for one stored method. *)
Definition lists (m : Method.t) (v : method_view) : Prop :=
  shown v = Method.set_account_number (Method.account_number (shown v)) m
  /\ shown_as (Method.account_number m) (Method.account_number (shown v))
  /\ shown_as (Method.card_number_last4 m) (card_number v)
  /\ (primitive (Method.account_number m) = true ->
      masked (Method.account_number (shown v)))
  /\ (primitive (Method.card_number_last4 m) = true ->
      masked (card_number v)).

(** The values that have a [slice] method. *)
Definition sliceable (v : value) : bool :=
  match v with
  | VStr _ | VArr _ => true
  | _ => false
  end.

(** The month after month [m] of year [y]. *)
Definition next_month (y m : Z) : Z * Z :=
  if m =? 12 then (y + 1, 1) else (y, m + 1).

(** The host keeps one time zone offset [c]. *)
Definition fixed_offset (host : Host) (c : Z) : Prop :=
  forall t b, LocalTZA host t b = c.

(** A host five hours behind UTC. *)
Definition west_host : Host := {|
  LocalTZA := fun _ _ => -18000000;
  Date_parse_other := fun _ => None;
  toLocaleDateString_heIL := toLocaleDateString_heIL utc_host;
  StringToIntegerOrInfinity := fun _ => Fin 0
|}.

(** The store with the counter moved on by [k]. *)
Definition skip_ids (k : Z) (st : store) : store :=
  {| customers := customers st;
     paymentMethods := paymentMethods st;
     recurringPayments := recurringPayments st;
     payments := payments st;
     idCounter := idCounter st + k |}.

(** The customer's methods and records, as the listings select them. *)
Definition own_methods (customer_id : value) (st : store) : list Method.t :=
  filter (fun m => strict_eq (Method.customer_id m) customer_id
                   && Method.is_active m) (paymentMethods st).

Definition own_payments (customer_id : value) (st : store)
  : list Payment.t :=
  filter (fun p => strict_eq (Payment.customer_id p) customer_id)
         (payments st).

Definition listing_of (r : response) : list method_view :=
  match reply_body r with
  | PaymentMethods vs => vs
  | _ => []
  end.

(** The ids are distinct and lie between 1 and the counter. *)
Definition ids_fresh (st : store) : Prop :=
  1 <= idCounter st
  /\ NoDup (all_ids st)
  /\ Forall (fun i => 1 <= i < idCounter st) (all_ids st).

(** The store with one agreement and its payment record added. *)
Definition with_agreement (r : Recurring.t) (p : Payment.t) (st : store)
  : store :=
  {| customers := customers st;
     paymentMethods := paymentMethods st;
     recurringPayments := recurringPayments st ++ [r];
     payments := payments st ++ [p];
     idCounter := idCounter st + 2 |}.

(** A store in which customer 1 has twelve agreements. *)
Definition twelve_agreements : store :=
  run utc_host
    (repeat (sample_clock,
             post "/create-recurring"
               (recurring_request (VNum 1) (VStr "2024-01-15"))) 12)
    initial.

(** The store with other customers and payment methods. *)
Definition with_registry (cs : list Customer.t) (ms : list Method.t)
  (st : store) : store :=
  {| customers := cs;
     paymentMethods := ms;
     recurringPayments := recurringPayments st;
     payments := payments st;
     idCounter := idCounter st |}.

(** * Properties *)

(** ** Day and year arithmetic *)

(** Linear arithmetic with floor division and remainder by constants. *)
Ltac zlia := Z.div_mod_to_equations; lia.

Lemma DaysInYear_cases y : DaysInYear y = 365 \/ DaysInYear y = 366.
Proof.
  unfold DaysInYear.
  destruct (y mod 4 =? 0), (y mod 100 =? 0), (y mod 400 =? 0); cbn; auto.
Qed.

Lemma DayFromYear_succ y : DayFromYear (y + 1) = DayFromYear y + DaysInYear y.
Proof.
  unfold DayFromYear, DaysInYear.
  destruct (Z.eqb_spec (y mod 4) 0), (Z.eqb_spec (y mod 100) 0),
    (Z.eqb_spec (y mod 400) 0); cbn [negb]; zlia.
Qed.

Lemma DayFromYear_mono y y' : y <= y' -> DayFromYear y <= DayFromYear y'.
Proof. unfold DayFromYear. intros. zlia. Qed.

(** The computed year is the year of ECMA-262: the largest [y] whose first
    day is not after [d]. *)
Lemma YearFromDay_spec d :
  DayFromYear (YearFromDay d) <= d < DayFromYear (YearFromDay d + 1).
Proof.
  unfold YearFromDay.
  set (y0 := 1970 + 400 * d / 146097).
  destruct (Z.ltb_spec d (DayFromYear y0)).
  - replace (y0 - 1 + 1) with y0 by lia. split; [|lia].
    unfold DayFromYear in *. subst y0. zlia.
  - destruct (Z.leb_spec (DayFromYear (y0 + 1)) d); [|lia].
    split; [lia|]. unfold DayFromYear in *. subst y0. zlia.
Qed.

Lemma YearFromDay_unique d y :
  DayFromYear y <= d < DayFromYear (y + 1) -> YearFromDay d = y.
Proof.
  intros Hy. pose proof (YearFromDay_spec d) as Hs.
  destruct (Z.lt_trichotomy (YearFromDay d) y) as [Hlt | [Heq | Hgt]]; auto.
  - pose proof (DayFromYear_mono (YearFromDay d + 1) y). lia.
  - pose proof (DayFromYear_mono (y + 1) (YearFromDay d)). lia.
Qed.

Lemma YearFromTime_spec t :
  TimeFromYear (YearFromTime t) <= t < TimeFromYear (YearFromTime t + 1).
Proof.
  unfold TimeFromYear, YearFromTime.
  pose proof (YearFromDay_spec (Day t)) as H. unfold Day, msPerDay in *.
  zlia.
Qed.

Lemma DayWithinYear_bounds t :
  0 <= DayWithinYear t < DaysInYear (YearFromTime t).
Proof.
  unfold DayWithinYear, YearFromTime.
  pose proof (YearFromDay_spec (Day t)).
  rewrite DayFromYear_succ in *. lia.
Qed.

(** Case analysis on the month thresholds. *)
Ltac month_cases :=
  repeat match goal with
    | |- context [?a <? ?b] => destruct (Z.ltb_spec a b)
    end.

Lemma MonthFromTime_bounds t : 0 <= MonthFromTime t <= 11.
Proof. unfold MonthFromTime. month_cases; lia. Qed.

Lemma MakeDay_in_year y m d :
  0 <= m <= 11 -> MakeDay y m d = DayFromYear y + MonthStart y m + d - 1.
Proof.
  intros Hm. unfold MakeDay.
  replace (m / 12) with 0 by zlia. replace (m mod 12) with m by zlia.
  now rewrite Z.add_0_r.
Qed.

(** The year, month and date of a time value name its day. *)
Lemma MakeDay_of_time t :
  MakeDay (YearFromTime t) (MonthFromTime t) (DateFromTime t) = Day t.
Proof.
  rewrite MakeDay_in_year by apply MonthFromTime_bounds.
  pose proof (DayWithinYear_bounds t) as Hb.
  unfold MonthStart, DateFromTime, MonthFromTime, InLeapYear.
  set (y := YearFromTime t) in *.
  assert (Hd : Day t = DayFromYear y + DayWithinYear t)
    by (unfold DayWithinYear; fold y; lia).
  rewrite Hd. clear Hd.
  set (d := DayWithinYear t) in *.
  destruct (DaysInYear_cases y) as [E | E]; rewrite E in *; cbn [Z.eqb Pos.eqb];
    month_cases; lia.
Qed.

Lemma DateFromTime_bounds t :
  1 <= DateFromTime t <= DaysInMonth (YearFromTime t) (MonthFromTime t + 1).
Proof.
  pose proof (DayWithinYear_bounds t) as Hb.
  unfold DaysInMonth, DateFromTime, MonthFromTime, InLeapYear.
  set (y := YearFromTime t) in *.
  set (d := DayWithinYear t) in *.
  destruct (DaysInYear_cases y) as [E | E]; rewrite E in *; cbn [Z.eqb Pos.eqb];
    month_cases; cbn; lia.
Qed.

(** The table of month starts and month lengths, as linear facts. *)
Lemma month_table y m :
  0 <= m <= 11 ->
  exists l, DaysInYear y = 365 + l /\ 0 <= l <= 1 /\
    ((m = 0 /\ MonthStart y m = 0 /\ DaysInMonth y (m + 1) = 31)
     \/ (m = 1 /\ MonthStart y m = 31 /\ DaysInMonth y (m + 1) = 28 + l)
     \/ (m = 2 /\ MonthStart y m = 59 + l /\ DaysInMonth y (m + 1) = 31)
     \/ (m = 3 /\ MonthStart y m = 90 + l /\ DaysInMonth y (m + 1) = 30)
     \/ (m = 4 /\ MonthStart y m = 120 + l /\ DaysInMonth y (m + 1) = 31)
     \/ (m = 5 /\ MonthStart y m = 151 + l /\ DaysInMonth y (m + 1) = 30)
     \/ (m = 6 /\ MonthStart y m = 181 + l /\ DaysInMonth y (m + 1) = 31)
     \/ (m = 7 /\ MonthStart y m = 212 + l /\ DaysInMonth y (m + 1) = 31)
     \/ (m = 8 /\ MonthStart y m = 243 + l /\ DaysInMonth y (m + 1) = 30)
     \/ (m = 9 /\ MonthStart y m = 273 + l /\ DaysInMonth y (m + 1) = 31)
     \/ (m = 10 /\ MonthStart y m = 304 + l /\ DaysInMonth y (m + 1) = 30)
     \/ (m = 11 /\ MonthStart y m = 334 + l /\ DaysInMonth y (m + 1) = 31)).
Proof.
  intros Hm. unfold MonthStart, DaysInMonth.
  assert (Hc : m = 0 \/ m = 1 \/ m = 2 \/ m = 3 \/ m = 4 \/ m = 5 \/ m = 6
               \/ m = 7 \/ m = 8 \/ m = 9 \/ m = 10 \/ m = 11) by lia.
  destruct (DaysInYear_cases y) as [E | E]; rewrite E;
    [exists 0 | exists 1]; (split; [reflexivity|]); (split; [lia|]);
    repeat (destruct Hc as [-> | Hc]; [cbn; tauto|]); subst; cbn; tauto.
Qed.

Lemma MonthStart_range y m d :
  valid_date y m d ->
  0 <= MonthStart y (m - 1) + d - 1 < DaysInYear y.
Proof.
  intros [Hm Hd].
  destruct (month_table y (m - 1)) as (l & Hy & Hl & Ht); [lia|].
  replace (m - 1 + 1) with m in Ht by lia. lia.
Qed.

(** Reading back the year, month and date of a calendar date. *)
Lemma civil_of_MakeDay y m d t :
  valid_date y m d -> Day t = MakeDay y (m - 1) d ->
  YearFromTime t = y /\ MonthFromTime t = m - 1 /\ DateFromTime t = d.
Proof.
  intros Hv Ht. pose proof (MonthStart_range y m d Hv) as Hr.
  destruct Hv as [Hm Hd].
  rewrite MakeDay_in_year in Ht by lia.
  assert (Hy : YearFromTime t = y).
  { unfold YearFromTime. apply YearFromDay_unique.
    rewrite DayFromYear_succ. lia. }
  split; [exact Hy|].
  destruct (month_table y (m - 1)) as (l & Hl & Hl' & Htab); [lia|].
  replace (m - 1 + 1) with m in Htab by lia.
  unfold DateFromTime, MonthFromTime, InLeapYear, DayWithinYear.
  rewrite Hy, Ht.
  replace (DayFromYear y + MonthStart y (m - 1) + d - 1 - DayFromYear y)
    with (MonthStart y (m - 1) + d - 1) by lia.
  destruct (Z.eqb_spec (DaysInYear y) 366);
    month_cases; cbv beta iota; lia.
Qed.

(** One month later, same date: the day moves by the length of the month.
    In December the month index 12 carries into the next year. *)
Lemma MakeDay_next_month y m d :
  0 <= m <= 11 ->
  MakeDay y (m + 1) d = MakeDay y m d + DaysInMonth y (m + 1).
Proof.
  intros Hm.
  destruct (month_table y m) as (l & Hl & Hl' & Htab); [lia|].
  rewrite (MakeDay_in_year y m) by lia.
  assert (Hc : m = 11 \/ 0 <= m <= 10) by lia.
  destruct Hc as [-> | Hc].
  - unfold MakeDay.
    replace ((11 + 1) / 12) with 1 by reflexivity.
    replace ((11 + 1) mod 12) with 0 by reflexivity.
    rewrite DayFromYear_succ.
    change (MonthStart (y + 1) 0) with 0. lia.
  - rewrite MakeDay_in_year by lia.
    destruct (month_table y (m + 1)) as (l2 & Hl2 & Hl2' & Htab2); [lia|].
    lia.
Qed.

Lemma DaysInMonth_bounds y m : 0 <= m <= 11 -> 28 <= DaysInMonth y (m + 1) <= 31.
Proof.
  intros Hm. destruct (month_table y m) as (l & Hl & Hl' & Htab); lia.
Qed.

(** A later day is a later calendar date. *)
Lemma civil_order a b :
  Day a < Day b ->
  date_lt (YearFromTime a, MonthFromTime a + 1, DateFromTime a)
          (YearFromTime b, MonthFromTime b + 1, DateFromTime b).
Proof.
  intros Hab. unfold date_lt.
  pose proof (YearFromDay_spec (Day a)) as Ha.
  pose proof (YearFromDay_spec (Day b)) as Hb.
  fold (YearFromTime a) in Ha. fold (YearFromTime b) in Hb.
  destruct (Z.lt_trichotomy (YearFromTime a) (YearFromTime b))
    as [Hlt | [Heq | Hgt]]; [now left | right | exfalso].
  - split; [exact Heq|].
    pose proof (DayWithinYear_bounds a) as Ba.
    pose proof (DayWithinYear_bounds b) as Bb.
    assert (Hd : DayWithinYear a < DayWithinYear b)
      by (unfold DayWithinYear; rewrite Heq; lia).
    unfold DateFromTime, MonthFromTime, InLeapYear. rewrite Heq in *.
    set (da := DayWithinYear a) in *. set (db := DayWithinYear b) in *.
    destruct (Z.eqb_spec (DaysInYear (YearFromTime b)) 366);
      month_cases; cbv beta iota; lia.
  - pose proof (DayFromYear_mono (YearFromTime b + 1) (YearFromTime a)). lia.
Qed.

(** ** Date strings: printing and reading back *)

Lemma append_empty_r s : s ++ "" = s.
Proof. induction s as [|c s IH]; cbn; [reflexivity | now rewrite IH]. Qed.

Lemma append_assoc (a b c : string) : (a ++ b) ++ c = a ++ (b ++ c).
Proof. induction a as [|x a IH]; cbn; [reflexivity | now rewrite IH]. Qed.

Lemma digit_cases z :
  0 <= z <= 9 ->
  z = 0 \/ z = 1 \/ z = 2 \/ z = 3 \/ z = 4 \/ z = 5 \/ z = 6 \/ z = 7
  \/ z = 8 \/ z = 9.
Proof. lia. Qed.

Lemma mod_10_digit z : 0 <= z mod 10 <= 9.
Proof. zlia. Qed.

Lemma digit_of_char z : 0 <= z <= 9 -> digit_of (digit_char z) = Some z.
Proof.
  intros H. destruct (digit_cases z H) as
    [-> | [-> | [-> | [-> | [-> | [-> | [-> | [-> | [-> | ->]]]]]]]]];
    reflexivity.
Qed.

(** A digit is none of the letter T, the plus and the minus sign. *)
Lemma digit_char_plain z :
  0 <= z <= 9 ->
  Ascii.eqb (digit_char z) "T" = false
  /\ digit_char z <> "+"%char /\ digit_char z <> "-"%char.
Proof.
  intros H. destruct (digit_cases z H) as
    [-> | [-> | [-> | [-> | [-> | [-> | [-> | [-> | [-> | ->]]]]]]]]];
    repeat split; discriminate.
Qed.

Lemma read_digits_pad n : forall acc z r,
  read_digits n acc (pad n z ++ r)
  = Some (acc * 10 ^ Z.of_nat n + z mod 10 ^ Z.of_nat n, r).
Proof.
  induction n as [|k IH]; intros acc z r.
  - cbn [read_digits pad append]. f_equal. f_equal.
    change (10 ^ Z.of_nat 0) with 1. rewrite Z.mod_1_r. lia.
  - cbn [read_digits pad append].
    assert (Hp : 0 < 10 ^ Z.of_nat k) by (apply Z.pow_pos_nonneg; lia).
    rewrite digit_of_char by apply mod_10_digit.
    rewrite IH. f_equal. f_equal.
    rewrite Nat2Z.inj_succ, Z.pow_succ_r by lia.
    rewrite (Z.mul_comm 10 (10 ^ Z.of_nat k)).
    rewrite (Z.rem_mul_r z (10 ^ Z.of_nat k) 10) by lia.
    lia.
Qed.

Lemma read_digits_pad_exact n z r :
  0 <= z < 10 ^ Z.of_nat n -> read_digits n 0 (pad n z ++ r) = Some (z, r).
Proof.
  intros H. rewrite read_digits_pad, Z.mod_small by exact H.
  reflexivity.
Qed.

Lemma read_year_iso y r :
  -999999 <= y <= 999999 -> read_year (iso_year y ++ r) = Some (y, r).
Proof.
  intros Hy. unfold iso_year.
  destruct (Z.leb_spec 0 y) as [H0 | H0]; cbn [andb].
  - destruct (Z.leb_spec y 9999) as [H1 | H1].
    + pose proof (read_digits_pad_exact 4 y r) as Hr.
      change (10 ^ Z.of_nat 4) with 10000 in Hr.
      unfold read_year. rewrite <- Hr by lia.
      cbn [pad append].
      destruct (digit_char_plain ((y / 10 ^ Z.of_nat 3) mod 10))
        as (_ & Hplus & Hminus); [apply mod_10_digit|].
      destruct (digit_char ((y / 10 ^ Z.of_nat 3) mod 10))
        as [[] [] [] [] [] [] [] []]; try reflexivity; congruence.
    + destruct (Z.ltb_spec y 0); [lia|].
      cbn [append read_year]. rewrite Z.abs_eq by lia.
      rewrite read_digits_pad_exact; [reflexivity|].
      change (10 ^ Z.of_nat 6) with 1000000. lia.
  - destruct (Z.ltb_spec y 0); [|lia].
    cbn [append read_year].
    rewrite read_digits_pad_exact
      by (change (10 ^ Z.of_nat 6) with 1000000; lia).
    destruct (Z.eqb_spec (Z.abs y) 0); [lia|].
    f_equal. f_equal. lia.
Qed.

(** The date-only form reads back the date it prints. *)
Lemma parse_iso_date_iso y m d :
  -999999 <= y <= 999999 -> valid_date y m d ->
  parse_iso_date (iso_date y m d) = Some (y, m, d).
Proof.
  intros Hy [Hm Hd].
  assert (Hd31 : d <= 31).
  { destruct (month_table y (m - 1)) as (l & _ & Hl & Ht); [lia|].
    replace (m - 1 + 1) with m in Ht by lia. lia. }
  unfold parse_iso_date, iso_date.
  rewrite read_year_iso by exact Hy.
  cbn [append read_char]. rewrite Ascii.eqb_refl.
  rewrite read_digits_pad_exact by (change (10 ^ Z.of_nat 2) with 100; lia).
  cbn [append read_char]. rewrite Ascii.eqb_refl.
  rewrite <- (append_empty_r (pad 2 d)).
  rewrite read_digits_pad_exact by (change (10 ^ Z.of_nat 2) with 100; lia).
  destruct (Z.leb_spec 1 m); [|lia]. destruct (Z.leb_spec m 12); [|lia].
  destruct (Z.leb_spec 1 d); [|lia].
  destruct (Z.leb_spec d (DaysInMonth y m)); [|lia].
  reflexivity.
Qed.

Lemma before_T_pad n z r : before_T (pad n z ++ r) = pad n z ++ before_T r.
Proof.
  induction n as [|k IH]; cbn [pad append before_T]; [reflexivity|].
  destruct (digit_char_plain ((z / 10 ^ Z.of_nat k) mod 10)) as (HT & _).
  { apply mod_10_digit. }
  rewrite HT, IH. reflexivity.
Qed.

Lemma before_T_iso_date y m d r :
  before_T (iso_date y m d ++ String "T" r) = iso_date y m d.
Proof.
  unfold iso_date. rewrite !append_assoc.
  assert (Hy : forall s, before_T (iso_year y ++ s) = iso_year y ++ before_T s).
  { intros s. unfold iso_year.
    destruct ((0 <=? y) && (y <=? 9999)); [apply before_T_pad|].
    cbn [append before_T].
    destruct (y <? 0); cbn [Ascii.eqb Bool.eqb]; now rewrite before_T_pad. }
  rewrite Hy. cbn [append before_T Ascii.eqb Bool.eqb].
  rewrite before_T_pad. cbn [append before_T Ascii.eqb Bool.eqb].
  rewrite before_T_pad. cbn [append before_T Ascii.eqb Bool.eqb].
  now rewrite append_empty_r.
Qed.

(** The date part of [toISOString]. *)
Lemma before_T_ISOString t :
  before_T (ISOString t)
  = iso_date (YearFromTime t) (MonthFromTime t + 1) (DateFromTime t).
Proof. unfold ISOString. cbn [append]. apply before_T_iso_date. Qed.

(** ** The monthly advance *)

Section Advance.

Variable host : Host.
Hypothesis tz : tz_bounded host.

(** [setMonth(getMonth() + 1)] moves the local time by the length of its
    month, whatever the date. *)
Lemma setMonth_next_local t0 :
  let t := LocalTime host t0 in
  MakeDate (MakeDay (YearFromTime t) (MonthFromTime t + 1) (DateFromTime t))
           (TimeWithinDay t)
  = t + DaysInMonth (YearFromTime t) (MonthFromTime t + 1) * msPerDay.
Proof.
  intros t. unfold MakeDate.
  rewrite MakeDay_next_month by apply MonthFromTime_bounds.
  rewrite MakeDay_of_time. unfold Day, TimeWithinDay, msPerDay. zlia.
Qed.

Lemma nextPaymentDate_time t0 :
  exists u,
    setMonth host (Some t0)
      (option_map (fun m => m + 1) (getMonth host (Some t0))) = TimeClip u
    /\ t0 + 26 * msPerDay < u < t0 + 33 * msPerDay.
Proof.
  cbn [getMonth option_map setMonth].
  rewrite setMonth_next_local.
  set (t := LocalTime host t0).
  pose proof (DaysInMonth_bounds (YearFromTime t) (MonthFromTime t)
                (MonthFromTime_bounds t)) as Hdim.
  eexists. split; [reflexivity|].
  unfold UTC.
  set (dim := DaysInMonth (YearFromTime t) (MonthFromTime t + 1)) in *.
  pose proof (tz t0 true) as H1.
  pose proof (tz (t + dim * msPerDay) false) as H2.
  subst t. unfold LocalTime, msPerDay in *. lia.
Qed.

(** The advance of a calendar date, one step. *)
Lemma advance_step y m d :
  valid_date y m d -> -271820 <= y <= 275759 ->
  exists y1 m1 d1,
    next_payment_date host (VStr (iso_date y m d)) = inr (iso_date y1 m1 d1)
    /\ valid_date y1 m1 d1
    /\ date_lt (y, m, d) (y1, m1, d1)
    /\ y <= y1 <= y + 1.
Proof.
  intros Hv Hy.
  pose proof (MonthStart_range y m d Hv) as Hr.
  set (t0 := MakeDate (MakeDay y (m - 1) d) 0).
  assert (Hday : Day t0 = MakeDay y (m - 1) d).
  { unfold t0, MakeDate, Day, msPerDay. zlia. }
  assert (Ht0 : t0 = Day t0 * msPerDay).
  { rewrite Hday. unfold t0, MakeDate. lia. }
  assert (Hlo : DayFromYear y <= Day t0 < DayFromYear (y + 1)).
  { rewrite Hday, MakeDay_in_year, DayFromYear_succ by (destruct Hv; lia).
    lia. }
  pose proof (DayFromYear_mono (-271820) y ltac:(lia)) as Hmin.
  pose proof (DayFromYear_mono (y + 1) 275760 ltac:(lia)) as Hmax.
  change (DayFromYear (-271820)) with (-99999744) in Hmin.
  change (DayFromYear 275760) with 99999744 in Hmax.
  destruct (nextPaymentDate_time t0) as (u & Hset & Hu).
  unfold next_payment_date, nextPaymentDate, new_Date, Date_parse.
  rewrite parse_iso_date_iso by (auto; lia). fold t0.
  assert (Hclip0 : TimeClip t0 = Some t0).
  { unfold TimeClip, maxTime.
    destruct (Z.gtb_spec (Z.abs t0) 8640000000000000); [|reflexivity].
    unfold msPerDay in *. lia. }
  assert (Hclip : TimeClip u = Some u).
  { unfold TimeClip, maxTime.
    destruct (Z.gtb_spec (Z.abs u) 8640000000000000); [|reflexivity].
    unfold msPerDay in *. lia. }
  rewrite Hclip0, Hset, Hclip. cbn [toISOString].
  rewrite before_T_ISOString.
  assert (Hdu : Day t0 + 26 <= Day u <= Day t0 + 33).
  { unfold Day, msPerDay in *. zlia. }
  exists (YearFromTime u), (MonthFromTime u + 1), (DateFromTime u).
  split; [reflexivity|]. split; [|split].
  - split.
    + pose proof (MonthFromTime_bounds u). lia.
    + apply DateFromTime_bounds.
  - destruct (civil_of_MakeDay y m d t0 Hv Hday) as (Ey & Em & Ed).
    pose proof (civil_order t0 u ltac:(lia)) as Hord.
    rewrite Ey, Em, Ed in Hord.
    replace (m - 1 + 1) with m in Hord by lia. exact Hord.
  - pose proof (YearFromDay_spec (Day u)) as Hs.
    fold (YearFromTime u) in Hs.
    pose proof (DaysInYear_cases (y + 1)) as Hn.
    pose proof (DayFromYear_succ (y + 1)) as Hn2.
    replace (y + 1 + 1) with (y + 2) in Hn2 by lia.
    split.
    + destruct (Z.le_gt_cases y (YearFromTime u)) as [H | H]; [exact H|].
      pose proof (DayFromYear_mono (YearFromTime u + 1) y ltac:(lia)). lia.
    + destruct (Z.le_gt_cases (YearFromTime u) (y + 1)) as [H | H];
        [exact H|].
      pose proof (DayFromYear_mono (y + 2) (YearFromTime u) ltac:(lia)). lia.
Qed.

End Advance.

(** ** Routing *)

Section Routes.

Variable host : Host.
Variable clock : nat -> Z.

Lemma route_add_credit_card b st :
  handler host clock (post "/add-credit-card" b) st
  = add_credit_card clock b st.
Proof. reflexivity. Qed.

Lemma route_add_standing_order b st :
  handler host clock (post "/add-standing-order" b) st
  = add_standing_order clock b st.
Proof. reflexivity. Qed.

Lemma route_create_recurring b st :
  handler host clock (post "/create-recurring" b) st
  = create_recurring host clock b st.
Proof. reflexivity. Qed.

Lemma route_payment_history b st :
  handler host clock (post "/payment-history" b) st
  = payment_history host b st.
Proof. reflexivity. Qed.

Lemma route_cancel_recurring b st :
  handler host clock (post "/cancel-recurring" b) st = cancel_recurring b st.
Proof. reflexivity. Qed.

(** A property of the store that every route keeps is kept by the
    handler. *)
Lemma handler_preserves (P : store -> Prop) :
  (forall b st, P st -> P (snd (register clock b st))) ->
  (forall b st, P st -> P (snd (add_credit_card clock b st))) ->
  (forall b st, P st -> P (snd (add_standing_order clock b st))) ->
  (forall b st, P st -> P (snd (create_recurring host clock b st))) ->
  (forall b st, P st -> P (snd (cancel_recurring b st))) ->
  forall ev st, P st -> P (snd (handler host clock ev st)).
Proof.
  intros Hreg Hcard Hso Hrec Hcan ev st HP. unfold handler.
  destruct (String.eqb (httpMethod ev) "OPTIONS"); [exact HP|].
  destruct (parse_body (body ev)) as [e | v]; [exact HP|].
  unfold dispatch, reading.
  repeat match goal with
    | |- context [if ?c then _ else _] => destruct c
    end; cbn [snd]; auto;
    destruct (destructure v) as [e | b]; cbn [snd]; auto.
  - unfold payment_methods.
    destruct (negb (truthy (field b "customer_id"))); [exact HP|].
    destruct (map_redact _); exact HP.
  - unfold payment_history.
    destruct (negb (truthy (field b "customer_id"))); [exact HP|].
    destruct (relativeEnd _ _); exact HP.
Qed.

End Routes.

(** An invariant of every route holds in every reachable store. *)
Lemma reachable_ind_routes (host : Host) (P : store -> Prop) :
  P initial ->
  (forall clock b st, P st -> P (snd (register clock b st))) ->
  (forall clock b st, P st -> P (snd (add_credit_card clock b st))) ->
  (forall clock b st, P st -> P (snd (add_standing_order clock b st))) ->
  (forall clock b st, P st -> P (snd (create_recurring host clock b st))) ->
  (forall b st, P st -> P (snd (cancel_recurring b st))) ->
  forall st, reachable host st -> P st.
Proof.
  intros H0 Hreg Hcard Hso Hrec Hcan st Hr.
  induction Hr as [|clock ev st Hr IH]; [exact H0|].
  apply handler_preserves; auto.
Qed.

Lemma reachable_run host trace : forall st,
  reachable host st -> reachable host (run host trace st).
Proof.
  induction trace as [|[clock ev] trace IH]; intros st Hr; cbn [run];
    [exact Hr|].
  apply IH. now apply reach_step.
Qed.

(** The handler answers as one of its routes does on the fields of the
    request, or with the 500 of a body that cannot be read. *)
Lemma handler_cases host clock ev st :
  let out := handler host clock ev st in
  let b := fields ev in
  out = (respond 200 Empty, st)
  \/ (exists e, out = (respond 500 (Thrown e), st))
  \/ out = register clock b st
  \/ out = (config, st)
  \/ out = add_credit_card clock b st
  \/ out = add_standing_order clock b st
  \/ out = create_recurring host clock b st
  \/ out = payment_methods b st
  \/ out = payment_history host b st
  \/ out = cancel_recurring b st
  \/ out = (respond 404 NotFound, st).
Proof.
  cbv zeta. unfold handler, fields.
  destruct (String.eqb (httpMethod ev) "OPTIONS"); [tauto|].
  destruct (body ev) as [| |[| |x|n|s|l|o]]; cbn [parse_body];
    unfold dispatch, reading; cbn [destructure];
    repeat match goal with
      | |- context [if ?c then _ else _] => destruct c
      end; try tauto; right; left; eexists; reflexivity.
Qed.

(** ** Claims about the monthly advance *)

(** On a host with a fixed time zone offset, the advance of January 31 of
    any year lands on March 2 or 3, never in February. *)
Lemma january_31_advances_into_march (host : Host) (c y : Z) :
  (forall t b, LocalTZA host t b = c) -> - msPerDay < c < msPerDay ->
  -271820 <= y <= 275759 ->
  exists d, 2 <= d <= 3
    /\ next_payment_date host (VStr (iso_date y 1 31)) = inr (iso_date y 3 d).
Proof.
  intros Hc Hb Hy.
  assert (Hv : valid_date y 1 31) by (unfold valid_date; cbn; lia).
  destruct (month_table y 2) as (l & Hl & Hl01 & Ht2); [lia|].
  assert (Hs2 : MonthStart y 2 = 59 + l) by lia. clear Ht2.
  assert (Hs0 : MonthStart y 0 = 0) by reflexivity.
  set (t0 := MakeDate (MakeDay y (1 - 1) 31) 0).
  assert (Hday : Day t0 = MakeDay y 0 31).
  { unfold t0, MakeDate, Day, msPerDay. change (1 - 1) with 0. zlia. }
  pose proof (MakeDay_in_year y 0 31 ltac:(lia)) as Hmd.
  pose proof (MakeDay_in_year y 0 30 ltac:(lia)) as Hmd30.
  pose proof (MakeDay_in_year y 2 (3 - l) ltac:(lia)) as Hmd3.
  pose proof (DayFromYear_mono (-271820) y ltac:(lia)) as Hmin.
  pose proof (DayFromYear_mono y 275759 ltac:(lia)) as Hmax.
  change (DayFromYear (-271820)) with (-99999744) in Hmin.
  change (DayFromYear 275759) with 99999379 in Hmax.
  set (t := LocalTime host t0).
  assert (Ht : t = t0 + c) by (unfold t, LocalTime; now rewrite Hc).
  assert (Hcivil : YearFromTime t = y /\ MonthFromTime t = 0).
  { assert (Hd : Day t = MakeDay y (1 - 1) 31 \/ Day t = MakeDay y (1 - 1) 30).
    { change (1 - 1) with 0. rewrite Hmd, Hmd30, <- Hmd, <- Hday.
      unfold Day in *. unfold t0, MakeDate, msPerDay in *. zlia. }
    destruct Hd as [Hd | Hd].
    - destruct (civil_of_MakeDay y 1 31 t Hv Hd) as (E1 & E2 & _). auto.
    - assert (Hv30 : valid_date y 1 30) by (unfold valid_date; cbn; lia).
      destruct (civil_of_MakeDay y 1 30 t Hv30 Hd) as (E1 & E2 & _). auto. }
  destruct Hcivil as [Ey Em].
  exists (3 - l). split; [lia|].
  unfold next_payment_date, nextPaymentDate, new_Date, Date_parse.
  rewrite parse_iso_date_iso by (auto; lia). fold t0.
  assert (Hclip0 : TimeClip t0 = Some t0).
  { unfold TimeClip, maxTime.
    destruct (Z.gtb_spec (Z.abs t0) 8640000000000000); [|reflexivity].
    unfold t0, MakeDate, msPerDay in *. change (1 - 1) with 0 in *. lia. }
  rewrite Hclip0. cbn [getMonth option_map setMonth].
  rewrite setMonth_next_local. fold t. rewrite Ey, Em.
  change (0 + 1) with 1.
  change (DaysInMonth y 1) with 31.
  unfold UTC. rewrite Hc, Ht.
  replace (t0 + c + 31 * msPerDay - c) with (t0 + 31 * msPerDay) by lia.
  set (u := t0 + 31 * msPerDay).
  assert (Hclip : TimeClip u = Some u).
  { unfold TimeClip, maxTime.
    destruct (Z.gtb_spec (Z.abs u) 8640000000000000); [|reflexivity].
    unfold u, t0, MakeDate, msPerDay in *. change (1 - 1) with 0 in *. lia. }
  rewrite Hclip. cbn [toISOString]. rewrite before_T_ISOString.
  assert (Hv3 : valid_date y 3 (3 - l))
    by (unfold valid_date; change (DaysInMonth y 3) with 31; lia).
  assert (Hdu : Day u = MakeDay y (3 - 1) (3 - l)).
  { change (3 - 1) with 2. rewrite Hmd3.
    unfold u, Day, t0, MakeDate, msPerDay in *. change (1 - 1) with 0.
    rewrite Hmd. zlia. }
  destruct (civil_of_MakeDay y 3 (3 - l) u Hv3 Hdu) as (E1 & E2 & E3).
  rewrite E1, E2, E3. reflexivity.
Qed.

(** C1. The handler does not clamp the monthly advance to the end of a
    shorter month: with local time UTC, a start date of 2024-01-31 gives the
    next payment date 2024-03-02 (not 2024-02-29) and 2023-01-31 gives
    2023-03-03 (not 2023-02-28); the agreement created by create-recurring
    stores that date. *)
Theorem advance_overflows_short_month :
  next_payment_date utc_host (VStr "2024-01-31") = inr "2024-03-02"
  /\ next_payment_date utc_host (VStr "2023-01-31") = inr "2023-03-03"
  /\ map Recurring.next_payment_date
       (recurringPayments
          (snd (handler utc_host sample_clock
                  (post "/create-recurring"
                     (recurring_request (VNum 1) (VStr "2024-01-31")))
                  initial)))
     = ["2024-03-02"].
Proof. repeat split; vm_compute; reflexivity. Qed.



Lemma utc_host_tz_bounded : tz_bounded utc_host.
Proof. intros t b. cbn. unfold msPerDay. lia. Qed.

Lemma valid_date_2024_01_31 : valid_date 2024 1 31.
Proof. unfold valid_date. cbn. lia. Qed.


(** ** JSON values *)

(** Induction on a value, with the property at hand for the elements of an
    array and the property values of an object. *)
Lemma value_nested_ind (P : value -> Prop) :
  P VUndefined -> P VNull -> (forall b, P (VBool b)) ->
  (forall n, P (VNum n)) -> (forall s, P (VStr s)) ->
  (forall l, Forall P l -> P (VArr l)) ->
  (forall o, Forall (fun kv => P (snd kv)) o -> P (VObj o)) ->
  forall v, P v.
Proof.
  intros HU HN HB HZ HS HA HO. fix IH 1.
  intros [| |b|n|s|l|o];
    [exact HU | exact HN | apply HB | apply HZ | apply HS | | ].
  - apply HA. induction l as [|x l IHl]; constructor; [apply IH | exact IHl].
  - apply HO. induction o as [|[k x] o IHo]; constructor;
      [apply IH | exact IHo].
Qed.

Lemma same_json_refl v : same_json v v = true.
Proof.
  induction v as [| |b|n|s|l IHl|o IHo] using value_nested_ind;
    cbn [same_json];
    auto using Bool.eqb_reflx, Z.eqb_refl, String.eqb_refl.
  - induction IHl as [|x l Hx _ IH]; [reflexivity|]. now rewrite Hx, IH.
  - induction IHo as [|[k x] o Hx _ IH]; [reflexivity|]. cbn [snd] in Hx.
    now rewrite String.eqb_refl, Hx, IH.
Qed.

(** On scalars [===] is reflexive; an array or an object sent again is
    another array or object. *)
Lemma strict_eq_refl v : primitive v = true -> strict_eq v v = true.
Proof.
  destruct v as [| |b|n|s|l|o]; cbn; try discriminate; intros _;
    auto using Bool.eqb_reflx, Z.eqb_refl, String.eqb_refl.
Qed.

Lemma strict_eq_primitive a b :
  strict_eq a b = true -> primitive a = true /\ primitive b = true.
Proof. destruct a, b; cbn; try discriminate; auto. Qed.

(** Every failure of a conversion to a string is a TypeError. *)
Lemma ToString_error v e : ToString v = inl e -> e = TypeError.
Proof.
  revert e.
  induction v as [| |b|n|s|l IHl|o IHo] using value_nested_ind;
    intros e; cbn [ToString]; try discriminate.
  - induction IHl as [|x l Hx _ IH]; cbn [join]; [discriminate|].
    assert (Hel : forall e', element_text ToString x = inl e' ->
                             e' = TypeError).
    { intros e'. unfold element_text. destruct x; try discriminate;
        apply Hx. }
    destruct (element_text ToString x) as [e' | t]; [intros [= <-]; auto|].
    destruct l as [|y l']; [discriminate|].
    destruct (join ToString (y :: l')) as [e' | r]; [|discriminate].
    intros [= <-]. now apply IH.
  - destruct (has_own "toString" o); [now intros [= <-] | discriminate].
Qed.

(** ** The last four code units *)

Lemma substring_all s : substring 0 (String.length s) s = s.
Proof. induction s as [|c s IH]; cbn; [reflexivity | now rewrite IH]. Qed.

Lemma substring_length : forall s n m,
  (n + m <= String.length s)%nat -> String.length (substring n m s) = m.
Proof.
  induction s as [|c s IH]; intros n m H; cbn in H.
  - assert (n = 0%nat /\ m = 0%nat) as [-> ->] by lia. reflexivity.
  - destruct n as [|n]; cbn.
    + destruct m as [|m]; cbn; [reflexivity|]. rewrite IH by lia. reflexivity.
    + apply IH. lia.
Qed.

Lemma string_slice_short s :
  (String.length s <= 4)%nat -> string_slice (-4) s = s.
Proof.
  intros H. unfold string_slice, strlen. cbn [Z.ltb Z.compare].
  rewrite Z.max_r by lia. cbn [Z.to_nat]. rewrite Z.sub_0_r, Nat2Z.id.
  apply substring_all.
Qed.

Lemma string_slice_length s :
  String.length (string_slice (-4) s) = Nat.min 4 (String.length s).
Proof.
  destruct (Nat.le_gt_cases (String.length s) 4) as [H | H].
  - rewrite string_slice_short by exact H. lia.
  - unfold string_slice, strlen. cbn [Z.ltb Z.compare].
    rewrite Z.max_l by lia. rewrite substring_length; lia.
Qed.

Lemma string_slice_idem s :
  string_slice (-4) (string_slice (-4) s) = string_slice (-4) s.
Proof. apply string_slice_short. rewrite string_slice_length. lia. Qed.

Lemma eqb_empty_length s :
  String.eqb s "" = match String.length s with O => true | S _ => false end.
Proof. destruct s; reflexivity. Qed.

Lemma string_slice_truthy s :
  truthy (VStr (string_slice (-4) s)) = truthy (VStr s).
Proof.
  cbn [truthy]. rewrite !eqb_empty_length, string_slice_length.
  destruct (String.length s) as [|[|[|[|n]]]]; reflexivity.
Qed.

Lemma list_slice_short {A : Type} (l : list A) :
  (List.length l <= 4)%nat -> list_slice (-4) l = l.
Proof.
  intros H. unfold list_slice. cbn [Z.ltb Z.compare].
  rewrite Z.max_r by lia. reflexivity.
Qed.

Lemma list_slice_length {A : Type} (l : list A) :
  List.length (list_slice (-4) l) = Nat.min 4 (List.length l).
Proof.
  unfold list_slice. cbn [Z.ltb Z.compare]. rewrite length_skipn. lia.
Qed.

Lemma list_slice_idem {A : Type} (l : list A) :
  list_slice (-4) (list_slice (-4) l) = list_slice (-4) l.
Proof. apply list_slice_short. rewrite list_slice_length. lia. Qed.

(** ** Reading the fields of a redacted request *)

Lemma field_redact_other b k :
  k <> "card_number" -> k <> "cvv" ->
  field (map redact_field b) k = field b k.
Proof.
  intros H1 H2. unfold field.
  induction b as [|[k' v] b IH]; [reflexivity|].
  cbn [map find]. 
  assert (Hk : fst (redact_field (k', v)) = k').
  { unfold redact_field.
    destruct v; repeat match goal with
      | |- context [if ?c then _ else _] => destruct c
      end; reflexivity. }
  rewrite Hk. cbn [fst].
  destruct (String.eqb_spec k' k) as [-> | Hne]; [|exact IH].
  unfold redact_field.
  destruct (String.eqb_spec k "card_number"); [contradiction|].
  destruct (String.eqb_spec k "cvv"); [contradiction|].
  destruct v; reflexivity.
Qed.

Lemma field_redact_card_number b :
  field (map redact_field b) "card_number"
  = match field b "card_number" with
    | VStr s => VStr (string_slice (-4) s)
    | VArr l => VArr (list_slice (-4) l)
    | v => v
    end.
Proof.
  unfold field.
  induction b as [|[k' v] b IH]; [reflexivity|].
  cbn [map find].
  assert (Hk : fst (redact_field (k', v)) = k').
  { unfold redact_field.
    destruct v; repeat match goal with
      | |- context [if ?c then _ else _] => destruct c
      end; reflexivity. }
  rewrite Hk. cbn [fst].
  destruct (String.eqb_spec k' "card_number") as [-> | Hne]; [|exact IH].
  destruct v; reflexivity.
Qed.

(** ** Redaction *)

(** Rewrites the fields read from a redacted body. *)
Ltac redact_fields :=
  cbv zeta;
  repeat rewrite field_redact_card_number;
  repeat (rewrite field_redact_other by discriminate).

Section Redaction.

Variable host : Host.
Variable clock : nat -> Z.

Lemma add_credit_card_redact b st :
  add_credit_card clock (map redact_field b) st = add_credit_card clock b st.
Proof.
  unfold add_credit_card. redact_fields.
  destruct (field b "card_number") as [| |x|n|s|l|o]; try reflexivity.
  - rewrite string_slice_truthy.
    cbn [value_slice]. rewrite string_slice_idem. reflexivity.
  - cbn [truthy value_slice]. rewrite list_slice_idem. reflexivity.
Qed.

(** The handler reads nothing of a request beyond its redaction: neither
    the response nor the store depends on the security code or on more than
    the last four code units of the card number. *)
Lemma handler_redact ev st :
  handler host clock (redact_event ev) st = handler host clock ev st.
Proof.
  unfold handler, redact_event. cbn [httpMethod path body].
  destruct (String.eqb (httpMethod ev) "OPTIONS"); [reflexivity|].
  destruct (body ev) as [| |v]; try reflexivity.
  destruct v as [| |x|n|s|l|o]; try reflexivity.
  cbn [redact_payload parse_body]. unfold dispatch, reading.
  cbn [destructure].
  repeat match goal with
    | |- context [if ?c then _ else _] => destruct c
    end; try reflexivity.
  - unfold register. redact_fields. reflexivity.
  - apply add_credit_card_redact.
  - unfold add_standing_order. redact_fields. reflexivity.
  - unfold create_recurring. redact_fields. reflexivity.
  - unfold payment_methods. redact_fields. reflexivity.
  - unfold payment_history. redact_fields. reflexivity.
  - unfold cancel_recurring. redact_fields. reflexivity.
Qed.

End Redaction.

(** Create-recurring leaves the customers and the payment methods. *)
Lemma create_recurring_registry host clock b st :
  customers (snd (create_recurring host clock b st)) = customers st
  /\ paymentMethods (snd (create_recurring host clock b st))
     = paymentMethods st.
Proof.
  unfold create_recurring.
  destruct (_ || _); [split; reflexivity|].
  destruct (new_Date _ _); [split; reflexivity|].
  destruct (toISOString _); [split; reflexivity|].
  destruct (ToString _); split; reflexivity.
Qed.

(** What create-recurring leaves: the store as it was, or with one id
    spent, or with an agreement and its payment record added. *)
Lemma create_recurring_cases host clock b st :
  snd (create_recurring host clock b st) = st
  \/ snd (create_recurring host clock b st) = skip_ids 1 st
  \/ exists r p,
       snd (create_recurring host clock b st) = with_agreement r p st
       /\ first_payment_of r p
       /\ Recurring.id r = idCounter st.
Proof.
  unfold create_recurring.
  destruct (_ || _); [now left|].
  destruct (new_Date _ _); [now left|].
  destruct (toISOString _); [right; now left|].
  right; right.
  destruct (ToString _); cbn [snd]; eexists; eexists;
    (split; [reflexivity|]); unfold first_payment_of; cbn;
    repeat split; reflexivity.
Qed.

Lemma create_recurring_methods host clock b st (P : list Method.t -> Prop) :
  P (paymentMethods st) ->
  P (paymentMethods (snd (create_recurring host clock b st))).
Proof.
  intros H. now rewrite (proj2 (create_recurring_registry host clock b st)).
Qed.

Lemma run_redact host trace : forall st,
  run host (redact_trace trace) st = run host trace st.
Proof.
  induction trace as [|[clock ev] trace IH]; intros st; [reflexivity|].
  cbn [redact_trace map run fst snd]. rewrite handler_redact. apply IH.
Qed.

Lemma methods_card_data_redacted host st :
  reachable host st -> Forall card_data_redacted (paymentMethods st).
Proof.
  revert st. apply (reachable_ind_routes host
    (fun st => Forall card_data_redacted (paymentMethods st))).
  - constructor.
  - intros clock b st H. unfold register.
    destruct (_ || _); exact H.
  - intros clock b st H. unfold add_credit_card.
    destruct (_ || _); [exact H|].
    destruct (value_slice (-4) (field b "card_number")) as [e | l4] eqn:E;
      [exact H|].
    cbn [snd paymentMethods]. apply Forall_app. split; [exact H|].
    constructor; [|constructor]. left. cbn. split; [reflexivity|].
    destruct (field b "card_number") as [| |x|n|s|l|o]; try discriminate;
      cbn [value_slice] in E; injection E as <-.
    + left. eexists. split; [reflexivity|]. rewrite string_slice_length. lia.
    + right. eexists. split; [reflexivity|]. rewrite list_slice_length. lia.
  - intros clock b st H. unfold add_standing_order.
    destruct (_ || _); [exact H|].
    cbn [snd paymentMethods]. apply Forall_app. split; [exact H|].
    constructor; [|constructor]. right. cbn. split; reflexivity.
  - intros clock b st H. apply create_recurring_methods. exact H.
  - intros b st H. unfold cancel_recurring.
    destruct (negb _); exact H.
Qed.

(** ** Claims about adding payment methods *)

(** With the five required fields present and a string for the card number,
    add-credit-card stores a method; nothing else is checked. *)
Lemma add_credit_card_accepts clock b st s :
  truthy (field b "customer_id") = true ->
  field b "card_number" = VStr s -> s <> "" ->
  truthy (field b "card_holder_name") = true ->
  truthy (field b "expiry_month") = true ->
  truthy (field b "expiry_year") = true ->
  exists m,
    add_credit_card clock b st
    = (respond 200 (CardAdded (idCounter st) (VStr (string_slice (-4) s))),
       {| customers := customers st;
          paymentMethods := paymentMethods st ++ [m];
          recurringPayments := recurringPayments st;
          payments := payments st;
          idCounter := idCounter st + 1 |})
    /\ Method.customer_id m = field b "customer_id"
    /\ Method.card_number_last4 m = VStr (string_slice (-4) s).
Proof.
  intros Hc Hn Hs Hh Hm Hy. unfold add_credit_card.
  rewrite Hc, Hh, Hm, Hy, Hn. cbn [truthy value_slice].
  destruct (String.eqb_spec s ""); [contradiction|]. cbn [negb orb].
  eexists. split; [reflexivity|]. split; reflexivity.
Qed.

(** C2. The handler applies no card validation: a four-digit number, a
    number that fails the Luhn checksum and a card that expired in 2000 are
    each accepted with status 200 and stored, just as the Luhn-valid number
    is, where the claim requires a ValidationFailed error and no stored
    method for the first three. *)
Theorem add_card_accepts_invalid_numbers (host : Host) (clock : nat -> Z) :
  let add b := handler host clock (post "/add-credit-card" b) initial in
  spec_card_number_valid "1234" = false
  /\ fst (add (card_request (VNum 1) "1234"))
     = respond 200 (CardAdded 1 (VStr "1234"))
  /\ map Method.card_number_last4
       (paymentMethods (snd (add (card_request (VNum 1) "1234"))))
     = [VStr "1234"]
  /\ spec_card_number_valid "4532015112830367" = false
  /\ fst (add (card_request (VNum 1) "4532015112830367"))
     = respond 200 (CardAdded 1 (VStr "0367"))
  /\ map Method.card_number_last4
       (paymentMethods (snd (add (card_request (VNum 1) "4532015112830367"))))
     = [VStr "0367"]
  /\ spec_card_number_valid "4532015112830366" = true
  /\ fst (add (card_request (VNum 1) "4532015112830366"))
     = respond 200 (CardAdded 1 (VStr "0366"))
  /\ fst (add [("customer_id", VNum 1);
               ("card_number", VStr "4532015112830366");
               ("card_holder_name", VStr "Israel Israeli");
               ("expiry_month", VStr "01"); ("expiry_year", VStr "2000")])
     = respond 200 (CardAdded 1 (VStr "0366")).
Proof. repeat split; reflexivity. Qed.

(** C8 as stated fails: on the initial store, which has no customer, an
    add-card request for customer 999 succeeds and its method is stored. *)
Lemma add_card_unknown_customer_stored :
  customers initial = []
  /\ fst (handler utc_host sample_clock
            (post "/add-credit-card"
               (card_request (VNum 999) "4532015112830366")) initial)
     = respond 200 (CardAdded 1 (VStr "0366"))
  /\ map Method.customer_id
       (paymentMethods
          (snd (handler utc_host sample_clock
                  (post "/add-credit-card"
                     (card_request (VNum 999) "4532015112830366")) initial)))
     = [VNum 999].
Proof. repeat split; reflexivity. Qed.

(** C8, amended. Add-card does not look the customer up: with the required
    fields present and a string card number it succeeds with status 200 and
    stores one method for the given customer_id, and the response and the
    stored methods are the same whatever the customer registry holds. *)
Theorem add_card_skips_customer_lookup
  (host : Host) (clock : nat -> Z) (b : object) (st : store) (s : string) :
  truthy (field b "customer_id") = true ->
  field b "card_number" = VStr s -> s <> "" ->
  truthy (field b "card_holder_name") = true ->
  truthy (field b "expiry_month") = true ->
  truthy (field b "expiry_year") = true ->
  let out := handler host clock (post "/add-credit-card" b) st in
  fst out = respond 200 (CardAdded (idCounter st) (VStr (string_slice (-4) s)))
  /\ (exists m, paymentMethods (snd out) = (paymentMethods st ++ [m])%list
                /\ Method.customer_id m = field b "customer_id")
  /\ customers (snd out) = customers st
  /\ forall cs,
       let out' :=
         handler host clock (post "/add-credit-card" b) (with_customers cs st)
       in fst out' = fst out
          /\ paymentMethods (snd out') = paymentMethods (snd out).
Proof.
  intros Hc Hn Hs Hh Hm Hy out. subst out.
  rewrite route_add_credit_card.
  destruct (add_credit_card_accepts clock b st s Hc Hn Hs Hh Hm Hy)
    as (m & E & Em & _).
  rewrite E. cbn [fst snd paymentMethods customers].
  split; [reflexivity|]. split; [now exists m|]. split; [reflexivity|].
  intros cs. rewrite route_add_credit_card.
  unfold add_credit_card in *.
  rewrite Hc, Hh, Hm, Hy, Hn in *. cbn [truthy value_slice] in *.
  destruct (String.eqb_spec s ""); [contradiction|]. cbn [negb orb] in *.
  injection E as E. cbn [fst snd paymentMethods with_customers idCounter].
  split; [reflexivity|]. now rewrite E.
Qed.

Lemma add_card_skips_customer_lookup_witness :
  let out := handler utc_host sample_clock
               (post "/add-credit-card"
                  (card_request (VNum 999) "4532015112830366")) initial in
  fst out = respond 200 (CardAdded 1 (VStr "0366"))
  /\ (exists m, paymentMethods (snd out) = [m]
                /\ Method.customer_id m = VNum 999).
Proof.
  pose proof (add_card_skips_customer_lookup utc_host sample_clock
                (card_request (VNum 999) "4532015112830366") initial
                "4532015112830366") as H.
  cbv zeta in H.
  destruct H as (H1 & H2 & _); try reflexivity; try discriminate.
  split; [exact H1 | exact H2].
Defined.

(** A request whose card number is no array leaves the card methods with
    strings of at most four code units. *)
Lemma handler_card_number_cut host clock ev st :
  card_number_is_no_array ev ->
  Forall card_number_cut (paymentMethods st) ->
  Forall card_number_cut (paymentMethods (snd (handler host clock ev st))).
Proof.
  intros Hno H.
  destruct (handler_cases host clock ev st)
    as [E|[[e E]|[E|[E|[E|[E|[E|[E|[E|[E|E]]]]]]]]]]; rewrite E; clear E;
    try exact H.
  - unfold register. destruct (_ || _); exact H.
  - unfold add_credit_card. destruct (_ || _); [exact H|].
    destruct (value_slice (-4) (field (fields ev) "card_number"))
      as [e | l4] eqn:E; [exact H|].
    cbn [snd paymentMethods]. apply Forall_app. split; [exact H|].
    constructor; [|constructor]. left. cbn. split; [reflexivity|].
    destruct (field (fields ev) "card_number") as [| |x|n|s|l|o] eqn:Ef;
      try discriminate; cbn [value_slice] in E; injection E as <-.
    + eexists. split; [reflexivity|]. rewrite string_slice_length. lia.
    + now destruct (Hno l).
  - unfold add_standing_order. destruct (_ || _); [exact H|].
    cbn [snd paymentMethods]. apply Forall_app. split; [exact H|].
    constructor; [|constructor]. right. cbn. split; reflexivity.
  - apply create_recurring_methods. exact H.
  - unfold payment_methods. destruct (negb _); [exact H|].
    destruct (map_redact _); exact H.
  - unfold payment_history. destruct (negb _); [exact H|].
    destruct (relativeEnd _ _); exact H.
  - unfold cancel_recurring. destruct (negb _); exact H.
Qed.

Lemma run_card_number_cut host trace : forall st,
  Forall (fun ce => card_number_is_no_array (snd ce)) trace ->
  Forall card_number_cut (paymentMethods st) ->
  Forall card_number_cut (paymentMethods (run host trace st)).
Proof.
  induction trace as [|[clock ev] trace IH]; intros st Hno H; cbn [run];
    [exact H|].
  inversion Hno as [|? ? Hev Hno']; subst. apply IH; [exact Hno'|].
  now apply handler_card_number_cut.
Qed.





Lemma methods_all_default host st :
  reachable host st ->
  Forall (fun m => Method.is_default m = true) (paymentMethods st).
Proof.
  revert st. apply (reachable_ind_routes host
    (fun st => Forall (fun m => Method.is_default m = true)
                      (paymentMethods st))).
  - constructor.
  - intros clock b st H. unfold register.
    destruct (_ || _); exact H.
  - intros clock b st H. unfold add_credit_card.
    destruct (_ || _); [exact H|].
    destruct (value_slice (-4) (field b "card_number")); [exact H|].
    cbn [snd paymentMethods]. apply Forall_app. split; [exact H|].
    constructor; [reflexivity | constructor].
  - intros clock b st H. unfold add_standing_order.
    destruct (_ || _); [exact H|].
    cbn [snd paymentMethods]. apply Forall_app. split; [exact H|].
    constructor; [reflexivity | constructor].
  - intros clock b st H. apply create_recurring_methods. exact H.
  - intros b st H. unfold cancel_recurring.
    destruct (negb _); exact H.
Qed.

Lemma filter_all {A : Type} (f : A -> bool) (l : list A) :
  Forall (fun x => f x = true) l -> filter f l = l.
Proof.
  induction 1 as [|x l Hx Hl IH]; cbn; [reflexivity|].
  now rewrite Hx, IH.
Qed.



(** ** The monthly advance on a host with a fixed offset *)

Lemma MakeDay_shift y m d k : MakeDay y m (d + k) = MakeDay y m d + k.
Proof. unfold MakeDay. lia. Qed.

(** The date part of [toISOString] at any time of a given day. *)
Lemma iso_date_of_day y m d t :
  valid_date y m d -> Day t = MakeDay y (m - 1) d ->
  before_T (ISOString t) = iso_date y m d.
Proof.
  intros Hv Hd. rewrite before_T_ISOString.
  destruct (civil_of_MakeDay y m d t Hv Hd) as (-> & -> & ->).
  now replace (m - 1 + 1) with m by lia.
Qed.

Lemma civil_same_day a b :
  Day a = Day b ->
  iso_date (YearFromTime a) (MonthFromTime a + 1) (DateFromTime a)
  = iso_date (YearFromTime b) (MonthFromTime b + 1) (DateFromTime b).
Proof.
  intros H.
  assert (Hy : YearFromTime a = YearFromTime b)
    by (unfold YearFromTime; now rewrite H).
  assert (Hw : DayWithinYear a = DayWithinYear b)
    by (unfold DayWithinYear; now rewrite H, Hy).
  assert (Hl : InLeapYear a = InLeapYear b)
    by (unfold InLeapYear; now rewrite Hy).
  assert (Hm : MonthFromTime a = MonthFromTime b)
    by (unfold MonthFromTime; now rewrite Hw, Hl).
  assert (Hd : DateFromTime a = DateFromTime b)
    by (unfold DateFromTime; now rewrite Hw, Hl, Hm).
  now rewrite Hy, Hm, Hd.
Qed.

Section FixedOffset.

Variable host : Host.
Variable c : Z.
Hypothesis offset : fixed_offset host c.
Hypothesis bound : - msPerDay < c < msPerDay.

(** The next payment date is the start date moved on by as many days as
    the month has in which the start instant falls in local time. *)
Lemma advance_fixed_offset y m d :
  valid_date y m d -> -271820 <= y <= 275759 ->
  let t0 := MakeDay y (m - 1) d * msPerDay in
  let dim :=
    DaysInMonth (YearFromTime (t0 + c)) (MonthFromTime (t0 + c) + 1) in
  next_payment_date host (VStr (iso_date y m d))
  = inr (before_T (ISOString (t0 + dim * msPerDay))).
Proof.
  intros Hv Hy t0 dim.
  pose proof (MonthStart_range y m d Hv) as Hr.
  assert (Hm : 1 <= m <= 12) by apply Hv.
  pose proof (MakeDay_in_year y (m - 1) d ltac:(lia)) as Hmd.
  pose proof (DayFromYear_mono (-271820) y ltac:(lia)) as Hmin.
  pose proof (DayFromYear_mono (y + 1) 275760 ltac:(lia)) as Hmax.
  pose proof (DayFromYear_succ y) as Hsucc.
  change (DayFromYear (-271820)) with (-99999744) in Hmin.
  change (DayFromYear 275760) with 99999744 in Hmax.
  assert (Hdim : 28 <= dim <= 31).
  { apply DaysInMonth_bounds, MonthFromTime_bounds. }
  unfold next_payment_date, nextPaymentDate, new_Date, Date_parse.
  rewrite parse_iso_date_iso by (auto; lia).
  unfold MakeDate. rewrite Z.add_0_r. fold t0.
  assert (Hclip0 : TimeClip t0 = Some t0).
  { unfold TimeClip, maxTime.
    destruct (Z.gtb_spec (Z.abs t0) 8640000000000000); [|reflexivity].
    unfold t0, msPerDay in *. lia. }
  rewrite Hclip0. cbn [getMonth option_map setMonth].
  rewrite setMonth_next_local. unfold UTC, LocalTime.
  rewrite (offset t0 true). fold dim.
  rewrite (offset (t0 + c + dim * msPerDay) false).
  replace (t0 + c + dim * msPerDay - c) with (t0 + dim * msPerDay) by lia.
  assert (Hclip : TimeClip (t0 + dim * msPerDay) = Some (t0 + dim * msPerDay)).
  { unfold TimeClip, maxTime.
    destruct (Z.gtb_spec (Z.abs (t0 + dim * msPerDay)) 8640000000000000);
      [|reflexivity].
    unfold t0, msPerDay in *. lia. }
  rewrite Hclip. reflexivity.
Qed.

(** Unless the offset is negative and the start is the first of a month,
    the start instant falls in the month of the start date. *)
Lemma local_month y m d :
  valid_date y m d -> 0 <= c \/ 2 <= d ->
  let t0 := MakeDay y (m - 1) d * msPerDay in
  YearFromTime (t0 + c) = y /\ MonthFromTime (t0 + c) = m - 1.
Proof.
  intros Hv Hcd t0.
  assert (Hday : Day (t0 + c) = MakeDay y (m - 1) d
                 \/ (c < 0 /\ Day (t0 + c) = MakeDay y (m - 1) (d - 1))).
  { replace (MakeDay y (m - 1) (d - 1)) with (MakeDay y (m - 1) d - 1)
      by (unfold MakeDay; lia).
    unfold t0, Day, msPerDay in *. zlia. }
  destruct Hday as [Hd | [Hneg Hd]].
  - destruct (civil_of_MakeDay y m d _ Hv Hd) as (E1 & E2 & _). auto.
  - assert (Hv' : valid_date y m (d - 1)).
    { destruct Hv as [Hm Hdd]. split; [exact Hm | lia]. }
    destruct (civil_of_MakeDay y m (d - 1) _ Hv' Hd) as (E1 & E2 & _). auto.
Qed.

(** In that case the next payment date is the day [MakeDay y m d]: the
    same day number, one month index on. *)
Lemma advance_by_own_month y m d t :
  valid_date y m d -> -271820 <= y <= 275759 -> 0 <= c \/ 2 <= d ->
  Day t = MakeDay y m d ->
  next_payment_date host (VStr (iso_date y m d))
  = inr (before_T (ISOString t)).
Proof.
  intros Hv Hy Hcd Ht.
  rewrite (advance_fixed_offset y m d Hv Hy). cbv zeta.
  destruct (local_month y m d Hv Hcd) as [-> ->].
  replace (m - 1 + 1) with m by lia.
  rewrite !before_T_ISOString. 
  assert (Hm : 1 <= m <= 12) by apply Hv.
  assert (Hd : Day (MakeDay y (m - 1) d * msPerDay + DaysInMonth y m * msPerDay)
               = Day t).
  { rewrite Ht.
    pose proof (MakeDay_next_month y (m - 1) d ltac:(lia)) as Hn.
    replace (m - 1 + 1) with m in Hn by lia. rewrite Hn.
    unfold Day, msPerDay. zlia. }
  f_equal. now apply civil_same_day.
Qed.

End FixedOffset.

(** When the month after the start date has the start's day of the month,
    the next payment date is that day of the following month. *)
Lemma advance_same_day (host : Host) (c y m d : Z) :
  fixed_offset host c -> - msPerDay < c < msPerDay ->
  0 <= c \/ 2 <= d ->
  valid_date y m d -> -271820 <= y <= 275758 ->
  valid_date (fst (next_month y m)) (snd (next_month y m)) d ->
  next_payment_date host (VStr (iso_date y m d))
  = inr (iso_date (fst (next_month y m)) (snd (next_month y m)) d).
Proof.
  intros Ho Hb Hcd Hv Hy Hv'.
  set (t := MakeDay y m d * msPerDay).
  assert (Ht : Day t = MakeDay y m d)
    by (unfold t, Day, msPerDay; zlia).
  rewrite (advance_by_own_month host c Ho Hb y m d t Hv ltac:(lia) Hcd Ht).
  f_equal. apply iso_date_of_day; [exact Hv'|].
  rewrite Ht. unfold next_month.
  destruct (Z.eqb_spec m 12) as [-> | Hne]; cbn [fst snd].
  - unfold MakeDay. change (12 / 12) with 1. change (12 mod 12) with 0.
    change ((1 - 1) / 12) with 0. change ((1 - 1) mod 12) with 0.
    now replace (y + 1 + 0) with (y + 1) by lia.
  - now replace (m + 1 - 1) with m by lia.
Qed.

(** What a successful create-recurring has stored. *)
Lemma create_recurring_stores host clock b st id amt :
  fst (create_recurring host clock b st)
  = respond 200 (RecurringCreated id amt) ->
  exists r p,
    snd (create_recurring host clock b st) = with_agreement r p st
    /\ first_payment_of r p
    /\ Recurring.id r = id
    /\ id = idCounter st
    /\ Recurring.status r = "active"
    /\ Recurring.customer_id r = field b "customer_id"
    /\ Recurring.start_date r = field b "start_date"
    /\ next_payment_date host (field b "start_date")
       = inr (Recurring.next_payment_date r)
    /\ Recurring.amount r = amt
    /\ amt = js_or (field b "amount") (VNum MONTHLY_AMOUNT).
Proof.
  unfold create_recurring, next_payment_date.
  destruct (_ || _); [discriminate|].
  destruct (new_Date host (field b "start_date")) as [e | start];
    [discriminate|].
  destruct (toISOString (nextPaymentDate host start)) as [e | iso];
    [discriminate|].
  destruct (ToString _); [discriminate|].
  cbn [fst snd]. unfold respond. intros [= <- <-].
  eexists. eexists. split; [reflexivity|].
  unfold first_payment_of. cbn. repeat split; reflexivity.
Qed.

(** ** Claims about agreements *)

Lemma Forall2_update_first {A B : Type} (R : A -> B -> Prop)
  (p : A -> bool) (f : A -> A) :
  (forall x y, R x y -> R (f x) y) ->
  forall l l', Forall2 R l l' -> Forall2 R (update_first p f l) l'.
Proof.
  intros Hf l l' H. induction H as [|x y l l' Hxy Hl IH]; cbn.
  - constructor.
  - destruct (p x); constructor; auto.
Qed.

Lemma reachable_paired host st : reachable host st -> paired st.
Proof.
  revert st. apply (reachable_ind_routes host paired); unfold paired.
  - constructor.
  - intros clock b st H. unfold register.
    destruct (_ || _); exact H.
  - intros clock b st H. unfold add_credit_card.
    destruct (_ || _); [exact H|].
    destruct (value_slice (-4) (field b "card_number")); exact H.
  - intros clock b st H. unfold add_standing_order.
    destruct (_ || _); exact H.
  - intros clock b st H. unfold create_recurring.
    destruct (_ || _); [exact H|].
    destruct (new_Date host (field b "start_date")); [exact H|].
    destruct (toISOString _); [exact H|].
    destruct (ToString _);
      cbn [snd recurringPayments payments]; (apply Forall2_app; [exact H|]);
      (constructor; [|constructor]); unfold first_payment_of; cbn;
      repeat split; reflexivity.
  - intros b st H. unfold cancel_recurring.
    destruct (negb _); [exact H|].
    cbn [snd recurringPayments payments].
    apply Forall2_update_first; [|exact H].
    intros r p Hrp. exact Hrp.
Qed.

(** The response of a route other than create-recurring is not the
    creation reply. *)
Lemma created_only_by_create_recurring host clock ev st id amt :
  fst (handler host clock ev st) = respond 200 (RecurringCreated id amt) ->
  handler host clock ev st = create_recurring host clock (fields ev) st.
Proof.
  destruct (handler_cases host clock ev st)
    as [E|[[e E]|[E|[E|[E|[E|[E|[E|[E|[E|E]]]]]]]]]]; rewrite E;
    cbn [fst]; try discriminate; try reflexivity.
  - unfold register. destruct (_ || _); discriminate.
  - unfold add_credit_card. destruct (_ || _); [discriminate|].
    destruct (value_slice _ _); discriminate.
  - unfold add_standing_order. destruct (_ || _); discriminate.
  - unfold payment_methods. destruct (negb _); [discriminate|].
    destruct (map_redact _); discriminate.
  - unfold payment_history. destruct (negb _); [discriminate|].
    destruct (relativeEnd _ _); discriminate.
  - unfold cancel_recurring. destruct (negb _); discriminate.
Qed.

(** C4 as stated fails: the agreement made for a start of 2024-01-31 is
    due next on 2024-03-02, where the start advanced by one month is
    2024-02-29; and a request that asks for a yearly frequency gets the
    next date one month on all the same. *)
Lemma agreement_next_date_is_not_the_advance :
  let made start frequency :=
    handler utc_host sample_clock
      (post "/create-recurring"
         [("customer_id", VNum 1); ("payment_method_id", VNum 1);
          ("start_date", VStr start); ("frequency", VStr frequency)])
      initial in
  fst (made "2024-01-31" "monthly")
  = respond 200 (RecurringCreated 1 (VNum 3500))
  /\ map Recurring.next_payment_date
       (recurringPayments (snd (made "2024-01-31" "monthly")))
     = ["2024-03-02"]
  /\ spec_advance 2024 1 31 = (2024, 2, 29)
  /\ iso_date 2024 2 29 = "2024-02-29"
  /\ fst (made "2024-01-15" "yearly")
     = respond 200 (RecurringCreated 1 (VNum 3500))
  /\ map Recurring.frequency
       (recurringPayments (snd (made "2024-01-15" "yearly")))
     = [VStr "yearly"]
  /\ map Recurring.next_payment_date
       (recurringPayments (snd (made "2024-01-15" "yearly")))
     = ["2024-02-15"].
Proof. repeat split; vm_compute; reflexivity. Qed.

(** C4, amended. In every reachable store the agreements and the payment
    records correspond one to one, each agreement with the record created
    with it, and every request keeps it so.  A successful create-recurring
    adds exactly one agreement, active, and exactly one payment record,
    pending, due on the start date, and changes nothing else but the id
    counter.  Whatever frequency the request gives, the next payment date
    of the agreement is the start's day of the month in the following
    month, when that month has the day: for a start date in the date-only
    ISO form with year -271820..275758, on a host with a fixed time zone
    offset, and, with an offset behind UTC, a start other than the first
    of a month. *)
Theorem create_recurring_atomic
  (host : Host) (st : store) (clock : nat -> Z) (ev : event)
  (id : Z) (amt : value) :
  reachable host st ->
  paired st
  /\ paired (snd (handler host clock ev st))
  /\ (fst (handler host clock ev st) = respond 200 (RecurringCreated id amt) ->
      exists r p,
        recurringPayments (snd (handler host clock ev st))
        = (recurringPayments st ++ [r])%list
        /\ payments (snd (handler host clock ev st))
           = (payments st ++ [p])%list
        /\ customers (snd (handler host clock ev st)) = customers st
        /\ paymentMethods (snd (handler host clock ev st))
           = paymentMethods st
        /\ first_payment_of r p
        /\ Recurring.id r = id
        /\ Recurring.status r = "active"
        /\ Recurring.start_date r = field (fields ev) "start_date"
        /\ Payment.status p = "pending"
        /\ Payment.due_date p = field (fields ev) "start_date"
        /\ forall c y m d,
             fixed_offset host c -> - msPerDay < c < msPerDay ->
             0 <= c \/ 2 <= d ->
             valid_date y m d -> -271820 <= y <= 275758 ->
             valid_date (fst (next_month y m)) (snd (next_month y m)) d ->
             Recurring.start_date r = VStr (iso_date y m d) ->
             Recurring.next_payment_date r
             = iso_date (fst (next_month y m)) (snd (next_month y m)) d).
Proof.
  intros Hr. split; [exact (reachable_paired host st Hr)|].
  split; [apply (reachable_paired host); now apply reach_step|].
  intros Hok.
  pose proof (created_only_by_create_recurring _ _ _ _ _ _ Hok) as Eroute.
  rewrite Eroute in *. clear Eroute.
  destruct (create_recurring_stores host clock (fields ev) st id amt Hok)
    as (r & p & E & Hp & Hid & _ & Hs & _ & Hd & Hn & _).
  exists r, p. rewrite E.
  cbn [with_agreement recurringPayments payments customers paymentMethods].
  repeat (split; [first [reflexivity | assumption | apply Hp]|]).
  split; [destruct Hp as (_ & _ & _ & _ & Hdue & _); congruence|].
  intros c y m d Ho Hb Hcd Hv Hy Hv' Hstart.
  rewrite <- Hd, Hstart in Hn.
  rewrite (advance_same_day host c y m d Ho Hb Hcd Hv Hy Hv') in Hn.
  now injection Hn.
Qed.

Lemma create_recurring_atomic_witness :
  let ev := post "/create-recurring"
              (recurring_request (VNum 1) (VStr "2024-01-15")) in
  reachable utc_host initial
  /\ fst (handler utc_host sample_clock ev initial)
     = respond 200 (RecurringCreated 1 (VNum 3500))
  /\ exists r p,
       recurringPayments (snd (handler utc_host sample_clock ev initial)) = [r]
       /\ payments (snd (handler utc_host sample_clock ev initial)) = [p]
       /\ first_payment_of r p
       /\ Recurring.next_payment_date r = "2024-02-15"
       /\ Payment.due_date p = VStr "2024-01-15".
Proof.
  intros ev.
  assert (Hr : reachable utc_host initial) by constructor.
  assert (Hok : fst (handler utc_host sample_clock ev initial)
                = respond 200 (RecurringCreated 1 (VNum 3500)))
    by (vm_compute; reflexivity).
  destruct (create_recurring_atomic utc_host initial sample_clock ev 1
              (VNum 3500) Hr) as (_ & _ & H).
  destruct (H Hok)
    as (r & p & E1 & E2 & _ & _ & Hp & _ & _ & Hs & _ & Hd & Hn).
  split; [exact Hr|]. split; [exact Hok|].
  exists r, p. split; [exact E1|]. split; [exact E2|]. split; [exact Hp|].
  split; [|exact Hd].
  apply (Hn 0 2024 1 15).
  - intros t b. reflexivity.
  - unfold msPerDay. lia.
  - left. lia.
  - unfold valid_date. cbn. lia.
  - lia.
  - unfold valid_date. cbn. lia.
  - exact Hs.
Defined.

(** ** Claims about the payment history *)

(** C5 as stated fails: the history lists the earlier record first, and with
    limit 1 it returns the earliest record, not the latest. *)
Lemma history_lists_earliest_first :
  let h := history_of
             (fst (handler utc_host later_clock
                     (post "/payment-history"
                        [("customer_id", VNum 1); ("limit", VNum 12)])
                     two_agreements)) in
  let h1 := history_of
              (fst (handler utc_host later_clock
                      (post "/payment-history"
                         [("customer_id", VNum 1); ("limit", VNum 1)])
                      two_agreements)) in
  map Payment.id h = [2; 4]
  /\ map Payment.due_date h = [VStr "2024-01-15"; VStr "2024-02-15"]
  /\ map Payment.created_at h
     = ["2024-01-01T00:00:00.001Z"; "2024-02-01T00:00:00.001Z"]
  /\ ~ most_recent_first h
  /\ map Payment.id h1 = [2].
Proof.
  intros h h1.
  assert (Eh : map Payment.id h = [2; 4]) by (vm_compute; reflexivity).
  repeat split; try (vm_compute; reflexivity).
  intros Hm. destruct h as [|p [|q l]]; try discriminate.
  injection Eh as Ep Eq _. cbn in Hm. destruct Hm as (Hm & _).
  inversion Hm as [|? ? Hq _]. lia.
Qed.

Lemma oldest_first_app_one l p :
  oldest_first l -> Forall (fun q => Payment.id q < Payment.id p) l ->
  oldest_first (l ++ [p]).
Proof.
  induction l as [|x l IH]; cbn; intros Ho Hb.
  - split; [constructor | exact I].
  - destruct Ho as [Hx Ho]. inversion Hb as [|? ? Hxp Hb']. subst.
    split; [|now apply IH].
    apply Forall_app. split; [exact Hx|]. constructor; [exact Hxp|constructor].
Qed.

Lemma Forall_filter {A : Type} (P : A -> Prop) (f : A -> bool) (l : list A) :
  Forall P l -> Forall P (filter f l).
Proof.
  intros H. apply Forall_forall. intros x Hx. apply filter_In in Hx.
  rewrite Forall_forall in H. apply H, Hx.
Qed.

Lemma Forall_firstn {A : Type} (P : A -> Prop) (n : nat) : forall l : list A,
  Forall P l -> Forall P (firstn n l).
Proof.
  induction n as [|n IH]; intros [|x l] H; cbn; try constructor;
    inversion H; auto.
Qed.

Lemma oldest_first_filter f l : oldest_first l -> oldest_first (filter f l).
Proof.
  induction l as [|x l IH]; cbn; [auto|]. intros [Hx Ho].
  destruct (f x); cbn; [split|]; auto using Forall_filter.
Qed.

Lemma oldest_first_firstn n : forall l,
  oldest_first l -> oldest_first (firstn n l).
Proof.
  induction n as [|n IH]; intros [|x l]; cbn; auto.
  intros [Hx Ho]. split; auto using Forall_firstn.
Qed.

Lemma Forall_below_mono (l : list Payment.t) (a b : Z) :
  a <= b -> Forall (fun p => Payment.id p < a) l ->
  Forall (fun p => Payment.id p < b) l.
Proof.
  intros Hab H. eapply Forall_impl; [|exact H]. cbn. intros p Hp. lia.
Qed.

Lemma reachable_ledger_ordered host st : reachable host st -> ledger_ordered st.
Proof.
  revert st. apply (reachable_ind_routes host ledger_ordered);
    unfold ledger_ordered.
  - split; constructor.
  - intros clock b st [Ho Hb]. unfold register.
    destruct (_ || _); cbn [snd payments idCounter]; split; auto.
    apply (Forall_below_mono _ (idCounter st)); [lia | exact Hb].
  - intros clock b st [Ho Hb]. unfold add_credit_card.
    destruct (_ || _); [split; auto|].
    destruct (value_slice (-4) (field b "card_number"));
      cbn [snd payments idCounter]; split; auto.
    apply (Forall_below_mono _ (idCounter st)); [lia | exact Hb].
  - intros clock b st [Ho Hb]. unfold add_standing_order.
    destruct (_ || _); cbn [snd payments idCounter]; split; auto.
    apply (Forall_below_mono _ (idCounter st)); [lia | exact Hb].
  - intros clock b st [Ho Hb].
    destruct (create_recurring_cases host clock b st)
      as [-> | [-> | (r & p & -> & (Hp & _) & Hid)]];
      cbn [with_agreement skip_ids payments idCounter].
    + split; auto.
    + split; auto.
      apply (Forall_below_mono _ (idCounter st)); [lia | exact Hb].
    + split.
      * apply oldest_first_app_one; [exact Ho|].
        apply (Forall_below_mono _ (idCounter st)); [lia | exact Hb].
      * apply Forall_app. split.
        -- apply (Forall_below_mono _ (idCounter st)); [lia | exact Hb].
        -- constructor; [lia | constructor].
  - intros b st [Ho Hb]. unfold cancel_recurring.
    destruct (negb _); cbn [snd payments idCounter]; split; auto.
Qed.

Lemma firstn_min_length {A : Type} (n : nat) (l : list A) :
  firstn (Nat.min n (List.length l)) l = firstn n l.
Proof.
  destruct (Nat.le_gt_cases n (List.length l)) as [H | H].
  - now rewrite Nat.min_l.
  - rewrite Nat.min_r by lia. rewrite firstn_all.
    symmetry. apply firstn_all2. lia.
Qed.

Lemma array_slice0_positive {A : Type} (n : Z) (l : list A) :
  0 < n -> array_slice0 (Fin n) l = firstn (Z.to_nat n) l.
Proof.
  intros Hn. unfold array_slice0.
  destruct (Z.ltb_spec n 0); [lia|].
  rewrite <- (firstn_min_length (Z.to_nat n) l). f_equal. lia.
Qed.

Lemma relativeEnd_error host v e :
  relativeEnd host v = inl e -> e = TypeError /\ primitive v = false.
Proof.
  destruct v as [| |x|n|s|l|o]; cbn [relativeEnd]; try discriminate;
    (destruct (ToString _) as [e' | s'] eqn:E; [|discriminate]);
    intros [= <-]; (split; [now apply ToString_error in E | reflexivity]).
Qed.

(** C5, amended. For a present customer id the history leaves the store
    unchanged.  With a positive numeric limit it succeeds with the first
    [limit] of that customer's records in order of creation, earliest
    first; with no limit, with the first 12; so also with none, still with
    success, when no record has that customer id.  Whenever it succeeds it
    returns a first part of the customer's records in that order, and it
    fails, with status 500, only on a limit that is an array or an
    object. *)
Theorem payment_history_earliest_first
  (host : Host) (clock : nat -> Z) (st : store) (b : object) :
  reachable host st ->
  truthy (field b "customer_id") = true ->
  let own :=
    filter (fun p => strict_eq (Payment.customer_id p)
                       (field b "customer_id")) (payments st) in
  let out := handler host clock (post "/payment-history" b) st in
  snd out = st
  /\ oldest_first own
  /\ (forall n, field b "limit" = VNum n -> 0 < n ->
        fst out = respond 200 (PaymentHistory (firstn (Z.to_nat n) own))
        /\ Z.of_nat (List.length (firstn (Z.to_nat n) own)) <= n)
  /\ (truthy (field b "limit") = false ->
        fst out = respond 200 (PaymentHistory (firstn 12 own))
        /\ (List.length (firstn 12 own) <= 12)%nat)
  /\ (forall h, fst out = respond 200 (PaymentHistory h) ->
        oldest_first h
        /\ (exists k, h = firstn k own)
        /\ (own = [] -> h = []))
  /\ (statusCode (fst out) = 200
      \/ (fst out = respond 500 (Thrown TypeError)
          /\ primitive (field b "limit") = false)).
Proof.
  intros Hr Hc own out. subst out.
  rewrite route_payment_history. unfold payment_history.
  rewrite Hc. cbn [negb]. fold own.
  destruct (reachable_ledger_ordered host st Hr) as [Ho _].
  assert (Hown : oldest_first own) by (now apply oldest_first_filter).
  split; [destruct (relativeEnd _ _); reflexivity|].
  split; [exact Hown|].
  split; [|split; [|split]].
  - intros n Hl Hn. rewrite Hl. unfold js_or. cbn [truthy].
    destruct (Z.eqb_spec n 0); [lia|]. cbn [negb relativeEnd fst].
    rewrite array_slice0_positive by exact Hn.
    split; [reflexivity|].
    pose proof (firstn_le_length (Z.to_nat n) own). lia.
  - intros Hl. unfold js_or. rewrite Hl. cbn [relativeEnd fst].
    rewrite array_slice0_positive by lia.
    split; [reflexivity|]. apply firstn_le_length.
  - intros h. destruct (relativeEnd _ _) as [e | e]; cbn [fst];
      [discriminate|].
    unfold respond. intros [= <-]. unfold array_slice0.
    split; [now apply oldest_first_firstn|].
    split; [eexists; reflexivity|].
    intros ->. apply firstn_nil.
  - destruct (relativeEnd _ _) as [e | e] eqn:E; cbn [fst]; [|now left].
    right. apply relativeEnd_error in E. destruct E as [-> E].
    split; [reflexivity|].
    unfold js_or in E. destruct (truthy (field b "limit")); [exact E|].
    discriminate.
Qed.

Lemma payment_history_earliest_first_witness :
  reachable utc_host two_agreements
  /\ exists h,
       handler utc_host later_clock
         (post "/payment-history" [("customer_id", VNum 1); ("limit", VNum 1)])
         two_agreements
       = (respond 200 (PaymentHistory h), two_agreements)
       /\ oldest_first h
       /\ Z.of_nat (List.length h) <= 1.
Proof.
  assert (Hr : reachable utc_host two_agreements).
  { unfold two_agreements. apply reachable_run. constructor. }
  split; [exact Hr|].
  destruct (payment_history_earliest_first utc_host later_clock two_agreements
              [("customer_id", VNum 1); ("limit", VNum 1)] Hr eq_refl)
    as (Est & _ & Hn & _ & Hh & _).
  destruct (Hn 1 eq_refl ltac:(lia)) as [E Hlen].
  eexists. split; [|split; [|exact Hlen]].
  - apply injective_projections; [exact E | exact Est].
  - apply (Hh _ E).
Defined.

(** ** Claims about cancellation *)

Lemma store_eta st :
  {| customers := customers st;
     paymentMethods := paymentMethods st;
     recurringPayments := recurringPayments st;
     payments := payments st;
     idCounter := idCounter st |} = st.
Proof. destruct st; reflexivity. Qed.

(** Updating the element found changes nothing when the update fixes it. *)
Lemma update_first_fixed {A : Type} (p : A -> bool) (f : A -> A) (l : list A) :
  (forall x, find p l = Some x -> f x = x) -> update_first p f l = l.
Proof.
  induction l as [|x l IH]; cbn; intros H; [reflexivity|].
  destruct (p x).
  - now rewrite (H x eq_refl).
  - now rewrite IH.
Qed.

Lemma find_update_first {A : Type} (p : A -> bool) (f : A -> A) (l : list A) :
  (forall x, p (f x) = p x) ->
  find p (update_first p f l) = option_map f (find p l).
Proof.
  intros Hp. induction l as [|x l IH]; cbn; [reflexivity|].
  destruct (p x) eqn:E; cbn.
  - now rewrite Hp, E.
  - now rewrite E.
Qed.

Lemma set_status_same r :
  Recurring.status r = "cancelled" -> Recurring.set_status "cancelled" r = r.
Proof. destruct r; cbn. now intros ->. Qed.

Lemma cancelled_list_found recurring_id l r :
  find (has_id recurring_id) (cancelled_list recurring_id l) = Some r ->
  Recurring.status r = "cancelled".
Proof.
  unfold cancelled_list. rewrite find_update_first by reflexivity.
  destruct (find (has_id recurring_id) l); cbn; [|discriminate].
  now intros [= <-].
Qed.

Lemma cancelled_list_idem recurring_id l :
  cancelled_list recurring_id (cancelled_list recurring_id l)
  = cancelled_list recurring_id l.
Proof.
  apply update_first_fixed. intros r Hr.
  apply set_status_same. now apply (cancelled_list_found recurring_id l).
Qed.

(** C7. Cancelling is idempotent.  A cancel request that names an id
    succeeds; repeating it succeeds again and leaves the store as the first
    cancellation left it; the agreement it names, if there is one, is then
    cancelled; and when that agreement was cancelled already, the request
    leaves the store as it was. *)
Theorem cancel_is_idempotent
  (host : Host) (clock clock' : nat -> Z) (b : object) (st : store) :
  truthy (field b "recurring_id") = true ->
  let ev := post "/cancel-recurring" b in
  let once := handler host clock ev st in
  let named := has_id (field b "recurring_id") in
  fst once = respond 200 Cancelled
  /\ handler host clock' ev (snd once) = (respond 200 Cancelled, snd once)
  /\ (forall r, find named (recurringPayments (snd once)) = Some r ->
        Recurring.status r = "cancelled")
  /\ ((forall r, find named (recurringPayments st) = Some r ->
         Recurring.status r = "cancelled") ->
      snd once = st).
Proof.
  intros Ht ev once named. subst once ev.
  rewrite !route_cancel_recurring. unfold cancel_recurring.
  rewrite Ht. cbn [negb fst snd recurringPayments customers paymentMethods
                     payments idCounter].
  fold (has_id (field b "recurring_id")).
  fold (cancelled_list (field b "recurring_id") (recurringPayments st)).
  fold (cancelled_list (field b "recurring_id")
          (cancelled_list (field b "recurring_id") (recurringPayments st))).
  rewrite cancelled_list_idem.
  split; [reflexivity|]. split; [reflexivity|]. split.
  - intros r. apply cancelled_list_found.
  - intros Hc. unfold cancelled_list.
    rewrite update_first_fixed; [apply store_eta|].
    intros r Hr. apply set_status_same. now apply Hc.
Qed.

Lemma cancel_is_idempotent_witness :
  let ev := post "/cancel-recurring" [("recurring_id", VNum 1)] in
  let once := handler utc_host sample_clock ev two_agreements in
  truthy (VNum 1) = true
  /\ fst once = respond 200 Cancelled
  /\ handler utc_host later_clock ev (snd once)
     = (respond 200 Cancelled, snd once)
  /\ map Recurring.status (recurringPayments (snd once))
     = ["cancelled"; "active"].
Proof.
  intros ev once.
  destruct (cancel_is_idempotent utc_host sample_clock later_clock
              [("recurring_id", VNum 1)] two_agreements eq_refl)
    as (H1 & H2 & _).
  split; [reflexivity|]. split; [exact H1|]. split; [exact H2|].
  vm_compute. reflexivity.
Defined.

(** C10 as stated fails: the ids 0, the empty string, false and null, and
    an id left out, are those of no stored agreement, and the request is
    answered with the error 400. *)
Lemma cancel_with_falsy_id_is_rejected :
  let cancel b := handler utc_host sample_clock
                    (post "/cancel-recurring" b) two_agreements in
  map Recurring.id (recurringPayments two_agreements) = [1; 3]
  /\ Forall (fun r => has_id (VNum 0) r = false
                      /\ has_id (VStr "") r = false
                      /\ has_id (VBool false) r = false
                      /\ has_id VNull r = false)
       (recurringPayments two_agreements)
  /\ cancel [("recurring_id", VNum 0)]
     = (respond 400 (Failure "recurring_id required"), two_agreements)
  /\ cancel [("recurring_id", VStr "")]
     = (respond 400 (Failure "recurring_id required"), two_agreements)
  /\ cancel [("recurring_id", VBool false)]
     = (respond 400 (Failure "recurring_id required"), two_agreements)
  /\ cancel [("recurring_id", VNull)]
     = (respond 400 (Failure "recurring_id required"), two_agreements)
  /\ cancel []
     = (respond 400 (Failure "recurring_id required"), two_agreements).
Proof.
  split; [reflexivity|]. split; [|repeat split; reflexivity].
  vm_compute. repeat constructor.
Qed.

(** C10, amended. A cancel request whose id is present, that is truthy,
    and is that of no stored agreement succeeds with status 200 and leaves
    the whole store unchanged. *)
Theorem cancel_unknown_id_is_noop
  (host : Host) (clock : nat -> Z) (b : object) (st : store) :
  truthy (field b "recurring_id") = true ->
  (forall r, In r (recurringPayments st) ->
     strict_eq (VNum (Recurring.id r)) (field b "recurring_id") = false) ->
  handler host clock (post "/cancel-recurring" b) st
  = (respond 200 Cancelled, st).
Proof.
  intros Ht Hno. rewrite route_cancel_recurring. unfold cancel_recurring.
  rewrite Ht. cbn [negb]. f_equal.
  rewrite update_first_fixed; [apply store_eta|].
  intros r Hr. apply find_some in Hr. destruct Hr as [Hin Hp].
  rewrite (Hno r Hin) in Hp. discriminate.
Qed.

Lemma cancel_unknown_id_is_noop_witness :
  truthy (VNum 77) = true
  /\ handler utc_host sample_clock
       (post "/cancel-recurring" [("recurring_id", VNum 77)]) two_agreements
     = (respond 200 Cancelled, two_agreements).
Proof.
  split; [reflexivity|].
  apply (cancel_unknown_id_is_noop utc_host sample_clock
           [("recurring_id", VNum 77)] two_agreements).
  - reflexivity.
  - intros r Hr. vm_compute in Hr.
    destruct Hr as [<- | [<- | []]]; reflexivity.
Defined.

(** * Further properties of the handler *)

(** ** Ids *)

Lemma map_id_update_first (p : Recurring.t -> bool) (s : string) l :
  map Recurring.id (update_first p (Recurring.set_status s) l)
  = map Recurring.id l.
Proof.
  induction l as [|x l IH]; cbn; [reflexivity|].
  destruct (p x); cbn; [reflexivity | now rewrite IH].
Qed.

Lemma Permutation_four {A : Type} (a a' b b' c c' d d' : list A) :
  Permutation ((a ++ a') ++ (b ++ b') ++ (c ++ c') ++ (d ++ d'))
              ((a' ++ b' ++ c' ++ d') ++ a ++ b ++ c ++ d).
Proof.
  assert (Hstep : forall (x x' n t : list A),
             Permutation ((x ++ x') ++ n ++ t) ((x' ++ n) ++ x ++ t)).
  { intros x x' n t. transitivity (x ++ (x' ++ n) ++ t)%list.
    - rewrite <- !app_assoc. reflexivity.
    - apply Permutation_app_swap_app. }
  assert (Hd : Permutation (d ++ d') (d' ++ d ++ [])).
  { rewrite app_nil_r. apply Permutation_app_comm. }
  assert (Hc : Permutation ((c ++ c') ++ d ++ d') ((c' ++ d') ++ c ++ d)).
  { etransitivity; [apply Permutation_app_head, Hd|].
    rewrite app_nil_r. apply Hstep. }
  assert (Hb : Permutation ((b ++ b') ++ (c ++ c') ++ d ++ d')
                           ((b' ++ c' ++ d') ++ b ++ c ++ d)).
  { etransitivity; [apply Permutation_app_head, Hc|]. apply Hstep. }
  etransitivity; [apply Permutation_app_head, Hb|]. apply Hstep.
Qed.

Lemma all_ids_grow st st' (a b c d : list Z) :
  map Customer.id (customers st')
  = (map Customer.id (customers st) ++ a)%list ->
  map Method.id (paymentMethods st')
  = (map Method.id (paymentMethods st) ++ b)%list ->
  map Recurring.id (recurringPayments st')
  = (map Recurring.id (recurringPayments st) ++ c)%list ->
  map Payment.id (payments st')
  = (map Payment.id (payments st) ++ d)%list ->
  Permutation (all_ids st') ((a ++ b ++ c ++ d) ++ all_ids st).
Proof.
  intros Ha Hb Hc Hd. unfold all_ids. rewrite Ha, Hb, Hc, Hd.
  apply Permutation_four.
Qed.

Lemma ids_fresh_add st st' (new : list Z) :
  Permutation (all_ids st') (new ++ all_ids st) ->
  NoDup new ->
  Forall (fun i => idCounter st <= i < idCounter st') new ->
  idCounter st <= idCounter st' ->
  ids_fresh st -> ids_fresh st'.
Proof.
  intros Hp Hnew Hrange Hle (H1 & Hn & Hb).
  split; [lia|]. split.
  - apply (Permutation_NoDup (Permutation_sym Hp)).
    apply NoDup_app; [exact Hnew | exact Hn |].
    intros i Hi Hi'. rewrite Forall_forall in Hrange, Hb.
    specialize (Hrange i Hi). specialize (Hb i Hi'). lia.
  - apply (Permutation_Forall (Permutation_sym Hp)).
    apply Forall_app. split.
    + eapply Forall_impl; [|exact Hrange]. cbn. intros i Hi. lia.
    + eapply Forall_impl; [|exact Hb]. cbn. intros i Hi. lia.
Qed.

Lemma ids_fresh_grow st st' (a b c d : list Z) :
  map Customer.id (customers st')
  = (map Customer.id (customers st) ++ a)%list ->
  map Method.id (paymentMethods st')
  = (map Method.id (paymentMethods st) ++ b)%list ->
  map Recurring.id (recurringPayments st')
  = (map Recurring.id (recurringPayments st) ++ c)%list ->
  map Payment.id (payments st')
  = (map Payment.id (payments st) ++ d)%list ->
  NoDup (a ++ b ++ c ++ d) ->
  Forall (fun i => idCounter st <= i < idCounter st') (a ++ b ++ c ++ d) ->
  idCounter st <= idCounter st' ->
  ids_fresh st -> ids_fresh st'.
Proof.
  intros Ha Hb Hc Hd. apply ids_fresh_add. now apply all_ids_grow.
Qed.

(** Closes the side conditions of [ids_fresh_grow] for one route. *)
Ltac fresh_step st a b c d :=
  cbn [snd];
  apply (ids_fresh_grow st _ a b c d); auto;
  cbn [customers paymentMethods recurringPayments payments idCounter app];
  rewrite ?map_app, ?app_nil_r, ?map_id_update_first;
  try reflexivity;
  try (repeat constructor; cbn; intuition lia).

Lemma reachable_ids_fresh host st : reachable host st -> ids_fresh st.
Proof.
  revert st. apply (reachable_ind_routes host ids_fresh).
  - split; [cbn; lia|]. split; constructor.
  - intros clock b st H. unfold register.
    destruct (_ || _); [exact H|].
    fresh_step st [idCounter st] (@nil Z) (@nil Z) (@nil Z).
  - intros clock b st H. unfold add_credit_card.
    destruct (_ || _); [exact H|].
    destruct (value_slice (-4) (field b "card_number")); [exact H|].
    fresh_step st (@nil Z) [idCounter st] (@nil Z) (@nil Z).
  - intros clock b st H. unfold add_standing_order.
    destruct (_ || _); [exact H|].
    fresh_step st (@nil Z) [idCounter st] (@nil Z) (@nil Z).
  - intros clock b st H.
    destruct (create_recurring_cases host clock b st)
      as [-> | [-> | (r & p & -> & (Hp & _) & Hid)]]; [exact H| |].
    + unfold skip_ids.
      fresh_step st (@nil Z) (@nil Z) (@nil Z) (@nil Z).
    + unfold with_agreement.
      fresh_step st (@nil Z) (@nil Z) [Recurring.id r] [Payment.id p];
        cbn [map]; rewrite ?Hp, ?Hid; try reflexivity;
        repeat constructor; cbn; intuition lia.
  - intros b st H. unfold cancel_recurring.
    destruct (negb _); [exact H|].
    fresh_step st (@nil Z) (@nil Z) (@nil Z) (@nil Z).
Qed.

(** X1. In every reachable store the ids of all records, of whatever kind,
    are pairwise distinct, at least 1 and below the counter: no two
    customers, methods, agreements or payment records share an id, nor does
    a record of one kind share it with a record of another. *)
Theorem ids_are_unique_across_kinds (host : Host) (st : store) :
  reachable host st ->
  NoDup (all_ids st)
  /\ Forall (fun i => 1 <= i < idCounter st) (all_ids st).
Proof. intros Hr. destruct (reachable_ids_fresh host st Hr) as (_ & H). exact H. Qed.

Lemma reachable_two_agreements : reachable utc_host two_agreements.
Proof. unfold two_agreements. apply reachable_run. constructor. Qed.

Lemma ids_are_unique_across_kinds_witness :
  reachable utc_host two_agreements
  /\ all_ids two_agreements = [1; 3; 2; 4]
  /\ NoDup (all_ids two_agreements).
Proof.
  split; [exact reachable_two_agreements|]. split; [reflexivity|].
  exact (proj1 (ids_are_unique_across_kinds utc_host two_agreements
                  reachable_two_agreements)).
Defined.

(** ** What a request leaves in place *)

Lemma evolves_refl r : evolves r r.
Proof. now left. Qed.

Lemma evolves_trans r1 r2 r3 : evolves r1 r2 -> evolves r2 r3 -> evolves r1 r3.
Proof.
  intros [-> | ->] [-> | ->]; unfold evolves; auto.
Qed.

Lemma Forall2_evolves_refl l : Forall2 evolves l l.
Proof. induction l; constructor; auto using evolves_refl. Qed.

Lemma Forall2_evolves_update p l :
  Forall2 evolves l (update_first p (Recurring.set_status "cancelled") l).
Proof.
  induction l as [|x l IH]; cbn; [constructor|].
  destruct (p x); constructor; auto using Forall2_evolves_refl.
  - now right.
  - now left.
Qed.

Lemma extends_refl st : extends st st.
Proof.
  unfold extends. repeat split; try (exists []; now rewrite app_nil_r).
  - exists (recurringPayments st), []. rewrite app_nil_r.
    split; [reflexivity | apply Forall2_evolves_refl].
  - lia.
Qed.

Lemma Forall2_evolves_trans l1 l2 : Forall2 evolves l1 l2 ->
  forall l3, Forall2 evolves l2 l3 -> Forall2 evolves l1 l3.
Proof.
  induction 1 as [|x y l1 l2 Hxy H IH]; intros l3 H3; inversion H3; subst;
    constructor; eauto using evolves_trans.
Qed.

Lemma extends_trans st1 st2 st3 :
  extends st1 st2 -> extends st2 st3 -> extends st1 st3.
Proof.
  intros (Hc & Hm & Hp & Hr & Hi) (Hc' & Hm' & Hp' & Hr' & Hi').
  destruct Hc as [cs Hc], Hc' as [cs' Hc'], Hm as [ms Hm], Hm' as [ms' Hm'],
    Hp as [ps Hp], Hp' as [ps' Hp'].
  destruct Hr as (r1 & n1 & Er & F1), Hr' as (r2 & n2 & Er' & F2).
  unfold extends. repeat split.
  - exists (cs ++ cs')%list. now rewrite Hc', Hc, app_assoc.
  - exists (ms ++ ms')%list. now rewrite Hm', Hm, app_assoc.
  - exists (ps ++ ps')%list. now rewrite Hp', Hp, app_assoc.
  - rewrite Er in F2. apply Forall2_app_inv_l in F2.
    destruct F2 as (r1' & n1' & F21 & F22 & ->).
    exists r1', (n1' ++ n2)%list. split.
    + now rewrite Er', app_assoc.
    + eapply Forall2_evolves_trans; eauto.
  - lia.
Qed.

Lemma extends_intro st st' cs ms ps rs' rs :
  customers st' = (customers st ++ cs)%list ->
  paymentMethods st' = (paymentMethods st ++ ms)%list ->
  payments st' = (payments st ++ ps)%list ->
  recurringPayments st' = (rs' ++ rs)%list ->
  Forall2 evolves (recurringPayments st) rs' ->
  idCounter st <= idCounter st' ->
  extends st st'.
Proof. unfold extends. intros. repeat split; eauto. Qed.

(** Proves that one route extends the store: each collection is the old
    one, or the old one with records appended. *)
Ltac extends_step :=
  eapply extends_intro;
  cbn [snd customers paymentMethods recurringPayments payments idCounter];
  [ first [reflexivity | symmetry; apply app_nil_r]
  | first [reflexivity | symmetry; apply app_nil_r]
  | first [reflexivity | symmetry; apply app_nil_r]
  | first [reflexivity | symmetry; apply app_nil_r]
  | first [apply Forall2_evolves_refl | apply Forall2_evolves_update]
  | lia ].

Lemma handler_extends host clock ev st :
  extends st (snd (handler host clock ev st)).
Proof.
  apply (handler_preserves host clock (extends st));
    [| | | | |apply extends_refl];
    clear ev; intros b st' H; (eapply extends_trans; [exact H|]); clear H.
  - unfold register. destruct (_ || _); [apply extends_refl|].
    extends_step.
  - unfold add_credit_card. destruct (_ || _); [apply extends_refl|].
    destruct (value_slice _ _); [apply extends_refl|].
    extends_step.
  - unfold add_standing_order. destruct (_ || _); [apply extends_refl|].
    extends_step.
  - destruct (create_recurring_cases host clock b st')
      as [-> | [-> | (r & p & -> & _)]]; [apply extends_refl| |];
      unfold skip_ids, with_agreement; extends_step.
  - unfold cancel_recurring. destruct (negb _); [apply extends_refl|].
    extends_step.
Qed.

Lemma run_extends host trace : forall st, extends st (run host trace st).
Proof.
  induction trace as [|[clock ev] trace IH]; intros st; cbn [run].
  - apply extends_refl.
  - eapply extends_trans; [apply handler_extends | apply IH].
Qed.

Lemma Forall2_nth_error {A B : Type} (R : A -> B -> Prop) l l' :
  Forall2 R l l' ->
  forall i x, nth_error l i = Some x ->
  exists y, nth_error l' i = Some y /\ R x y.
Proof.
  induction 1 as [|a b l l' Hab H IH]; intros [|i] x Hx; cbn in *;
    try discriminate.
  - injection Hx as <-. eauto.
  - eauto.
Qed.

(** X2. Nothing is ever removed or rewritten, whatever requests follow:
    after any sequence of requests the customers, the payment methods and
    the payment records of the earlier store are still there, unchanged and
    in place, with new ones only after them; an agreement is still in its
    place, either unchanged or with its status set to cancelled; and an
    agreement that was cancelled stays exactly as it was. *)
Theorem records_are_never_removed
  (host : Host) (trace : list ((nat -> Z) * event)) (st : store) :
  let st' := run host trace st in
  (forall i c, nth_error (customers st) i = Some c ->
     nth_error (customers st') i = Some c)
  /\ (forall i m, nth_error (paymentMethods st) i = Some m ->
        nth_error (paymentMethods st') i = Some m)
  /\ (forall i p, nth_error (payments st) i = Some p ->
        nth_error (payments st') i = Some p)
  /\ (forall i r, nth_error (recurringPayments st) i = Some r ->
        nth_error (recurringPayments st') i = Some r
        \/ nth_error (recurringPayments st') i
           = Some (Recurring.set_status "cancelled" r))
  /\ (forall i r, nth_error (recurringPayments st) i = Some r ->
        Recurring.status r = "cancelled" ->
        nth_error (recurringPayments st') i = Some r)
  /\ idCounter st <= idCounter st'.
Proof.
  intros st'. destruct (run_extends host trace st)
    as ([cs Hc] & [ms Hm] & [ps Hp] & (rs' & rs & Hr & F) & Hi).
  fold st' in Hc, Hm, Hp, Hr, Hi.
  assert (Hpre : forall (A : Type) (l e : list A) i x,
             nth_error l i = Some x -> nth_error (l ++ e) i = Some x).
  { intros A l e i x H. rewrite nth_error_app1; [exact H|].
    apply nth_error_Some. congruence. }
  assert (Hrec : forall i r, nth_error (recurringPayments st) i = Some r ->
             nth_error (recurringPayments st') i = Some r
             \/ nth_error (recurringPayments st') i
                = Some (Recurring.set_status "cancelled" r)).
  { intros i r H.
    destruct (Forall2_nth_error _ _ _ F i r H) as (r' & Hr' & [-> | ->]);
      rewrite Hr; [left | right]; now apply Hpre. }
  repeat split; auto.
  - intros i c H. rewrite Hc. now apply Hpre.
  - intros i m H. rewrite Hm. now apply Hpre.
  - intros i p H. rewrite Hp. now apply Hpre.
  - intros i r H Hs. destruct (Hrec i r H) as [E | E]; [exact E|].
    now rewrite set_status_same in E.
Qed.

Lemma records_are_never_removed_witness :
  let st' := run utc_host
               [(later_clock,
                 post "/cancel-recurring" [("recurring_id", VNum 1)]);
                (later_clock,
                 post "/create-recurring"
                   (recurring_request (VNum 2) (VStr "2024-03-10")))]
               two_agreements in
  map Payment.id (payments two_agreements) = [2; 4]
  /\ map Payment.id (payments st') = [2; 4; 6]
  /\ map Recurring.status (recurringPayments st')
     = ["cancelled"; "active"; "active"]
  /\ forall i p, nth_error (payments two_agreements) i = Some p ->
       nth_error (payments st') i = Some p.
Proof.
  intros st'. split; [reflexivity|]. split; [reflexivity|].
  split; [reflexivity|].
  exact (proj1 (proj2 (proj2
    (records_are_never_removed utc_host
       [(later_clock,
         post "/cancel-recurring" [("recurring_id", VNum 1)]);
        (later_clock,
         post "/create-recurring"
           (recurring_request (VNum 2) (VStr "2024-03-10")))]
       two_agreements)))).
Defined.

(** ** Failures and read-only requests *)

Ltac harmless :=
  cbn [fst snd statusCode respond missing_fields config];
  repeat split; intros; auto; try tauto; try lia; try discriminate;
  repeat match goal with
    | H : _ \/ _ |- _ => destruct H
    end; try discriminate; try lia.

(** A conversion to a string fails on no scalar. *)
Lemma ToString_primitive v :
  primitive v = true -> exists s, ToString v = inr s.
Proof.
  destruct v; cbn; try discriminate; intros _; eexists; reflexivity.
Qed.

(** How create-recurring fails. *)
Lemma create_recurring_failure host clock b st :
  let out := create_recurring host clock b st in
  (statusCode (fst out) = 200 \/ statusCode (fst out) = 400
   \/ statusCode (fst out) = 500)
  /\ (statusCode (fst out) = 400 -> snd out = st)
  /\ (statusCode (fst out) = 500 ->
      snd out = st \/ snd out = skip_ids 1 st
      \/ exists r p,
           snd out = with_agreement r p st
           /\ first_payment_of r p
           /\ Recurring.id r = idCounter st
           /\ Recurring.amount r = js_or (field b "amount") (VNum MONTHLY_AMOUNT)
           /\ ToString (Recurring.amount r) = inl TypeError).
Proof.
  cbv zeta. unfold create_recurring.
  destruct (_ || _); [harmless|].
  destruct (new_Date _ _); [harmless|].
  destruct (toISOString _); [harmless|].
  destruct (ToString _) as [e | txt] eqn:E; [|harmless].
  cbn [fst snd statusCode respond].
  split; [tauto|]. split; [discriminate|]. intros _. right; right.
  eexists. eexists. split; [reflexivity|].
  unfold first_payment_of. cbn.
  rewrite E, (ToString_error _ _ E). repeat split; reflexivity.
Qed.

(** X3. What a request that is not answered with status 200 has done.  The
    handler answers with 200, 400, 404 or 500 only.  After a 400 or a 404
    the store is exactly as before.  After a 500 the customers and the
    payment methods are as before, and either the agreements and payment
    records are as before too, with at most one id used up, or the request
    was a create-recurring whose amount has no text: then the agreement and
    its payment record are stored all the same.  With an amount that is
    neither an array nor an object this does not happen. *)
Theorem failed_request_effects
  (host : Host) (clock : nat -> Z) (ev : event) (st : store) :
  let out := handler host clock ev st in
  (statusCode (fst out) = 200 \/ statusCode (fst out) = 400
   \/ statusCode (fst out) = 404 \/ statusCode (fst out) = 500)
  /\ (statusCode (fst out) = 400 \/ statusCode (fst out) = 404 ->
      snd out = st)
  /\ (statusCode (fst out) = 500 ->
      customers (snd out) = customers st
      /\ paymentMethods (snd out) = paymentMethods st
      /\ (snd out = st \/ snd out = skip_ids 1 st
          \/ exists r p,
               snd out = with_agreement r p st
               /\ first_payment_of r p
               /\ Recurring.id r = idCounter st
               /\ ToString (Recurring.amount r) = inl TypeError
               /\ primitive (field (fields ev) "amount") = false)).
Proof.
  intros out. subst out.
  destruct (handler_cases host clock ev st)
    as [E|[[e E]|[E|[E|[E|[E|[E|[E|[E|[E|E]]]]]]]]]]; rewrite E; clear E.
  - harmless.
  - harmless.
  - unfold register. destruct (_ || _); harmless.
  - harmless.
  - unfold add_credit_card. destruct (_ || _); [harmless|].
    destruct (value_slice _ _); harmless.
  - unfold add_standing_order. destruct (_ || _); harmless.
  - destruct (create_recurring_failure host clock (fields ev) st)
      as (H1 & H2 & H3).
    split; [tauto|]. split; [intros [H | H]; [auto|]|].
    + destruct H1 as [H1 | [H1 | H1]]; rewrite H1 in H; discriminate.
    + intros H5.
      destruct (create_recurring_registry host clock (fields ev) st)
        as [Ec Em].
      split; [exact Ec|]. split; [exact Em|].
      destruct (H3 H5) as [H | [H | (r & p & Hs & Hp & Hid & Ha & Ht)]];
        [now left | right; now left |].
      right; right. exists r, p. repeat (split; [assumption|]).
      destruct (primitive (field (fields ev) "amount")) eqn:Hprim;
        [|reflexivity].
      assert (Hj : primitive (js_or (field (fields ev) "amount")
                                (VNum MONTHLY_AMOUNT)) = true).
      { unfold js_or. now destruct (truthy _). }
      destruct (ToString_primitive _ Hj) as [t Et]. congruence.
  - unfold payment_methods. destruct (negb _); [harmless|].
    destruct (map_redact _); harmless.
  - unfold payment_history. destruct (negb _); [harmless|].
    destruct (relativeEnd _ _); harmless.
  - unfold cancel_recurring. destruct (negb _); harmless.
  - harmless.
Qed.

Lemma failed_request_effects_witness :
  let out := handler utc_host sample_clock
               (post "/create-recurring"
                  [("customer_id", VNum 1); ("payment_method_id", VNum 1);
                   ("amount", VObj [("toString", VNum 1)]);
                   ("start_date", VStr "2024-03-15")])
               two_agreements in
  statusCode (fst out) = 500
  /\ map Payment.id (payments two_agreements) = [2; 4]
  /\ map Payment.id (payments (snd out)) = [2; 4; 6]
  /\ exists r p,
       snd out = with_agreement r p two_agreements
       /\ first_payment_of r p.
Proof.
  intros out.
  assert (H5 : statusCode (fst out) = 500) by reflexivity.
  split; [exact H5|]. split; [reflexivity|]. split; [reflexivity|].
  destruct (failed_request_effects utc_host sample_clock
              (post "/create-recurring"
                 [("customer_id", VNum 1); ("payment_method_id", VNum 1);
                  ("amount", VObj [("toString", VNum 1)]);
                  ("start_date", VStr "2024-03-15")])
              two_agreements) as (_ & _ & H).
  destruct (H H5) as (_ & _ & [E | [E | (r & p & E & Hp & _)]]).
  - apply (f_equal idCounter) in E. vm_compute in E. discriminate.
  - apply (f_equal (fun s => List.length (payments s))) in E.
    vm_compute in E. discriminate.
  - exists r, p. split; [exact E | exact Hp].
Defined.

(** X4. The store changes only on a POST to one of the five writing
    routes: a request that leaves a different store has method POST and,
    the function prefix removed, the path register, add-credit-card,
    add-standing-order, create-recurring or cancel-recurring.  Config, the
    two listings, OPTIONS and unknown paths never write. *)
Theorem only_writing_routes_change_the_store
  (host : Host) (clock : nat -> Z) (ev : event) (st : store) :
  snd (handler host clock ev st) <> st ->
  httpMethod ev = "POST"
  /\ In (remove_first "/.netlify/functions/payment" (path ev))
        ["/register"; "/add-credit-card"; "/add-standing-order";
         "/create-recurring"; "/cancel-recurring"].
Proof.
  unfold handler.
  destruct (String.eqb_spec (httpMethod ev) "OPTIONS");
    [intros []; reflexivity|].
  destruct (parse_body (body ev)) as [e | v]; [intros []; reflexivity|].
  unfold dispatch, reading.
  destruct (String.eqb_spec (httpMethod ev) "POST") as [Hp | Hp].
  - rewrite !andb_true_r.
    repeat match goal with
      | |- context [String.eqb ?a ?b] => destruct (String.eqb_spec a b)
      end; cbn [andb]; intros H; (split; [exact Hp|]); cbn [In]; auto 10;
      exfalso; apply H;
      first
        [ reflexivity
        | destruct (destructure v); [reflexivity|];
          unfold payment_methods; destruct (negb _); [reflexivity|];
          destruct (map_redact _); reflexivity
        | destruct (destructure v); [reflexivity|];
          unfold payment_history; destruct (negb _); [reflexivity|];
          destruct (relativeEnd _ _); reflexivity ].
  - rewrite !andb_false_r.
    repeat match goal with
      | |- context [if ?c then _ else _] => destruct c
      end; intros []; reflexivity.
Qed.

Lemma only_writing_routes_change_the_store_witness :
  snd (handler utc_host sample_clock
         (post "/cancel-recurring" [("recurring_id", VNum 1)]) two_agreements)
  <> two_agreements
  /\ In (remove_first "/.netlify/functions/payment"
          (path (post "/cancel-recurring" [("recurring_id", VNum 1)])))
        ["/register"; "/add-credit-card"; "/add-standing-order";
         "/create-recurring"; "/cancel-recurring"].
Proof.
  assert (H : snd (handler utc_host sample_clock
                     (post "/cancel-recurring" [("recurring_id", VNum 1)])
                     two_agreements) <> two_agreements)
    by (vm_compute; discriminate).
  split; [exact H|].
  exact (proj2 (only_writing_routes_change_the_store utc_host sample_clock
                  (post "/cancel-recurring" [("recurring_id", VNum 1)])
                  two_agreements H)).
Defined.

(** X5. A POST request with an empty body, be it no body at all or the
    empty object, is never carried out: it is answered with 400 on the
    seven routes that read fields and with 404 elsewhere, and the store is
    unchanged. *)
Theorem empty_body_is_rejected
  (host : Host) (clock : nat -> Z) (p : string) (st : store) :
  let out := handler host clock
               {| httpMethod := "POST"; path := p; body := NoBody |} st in
  let out' := handler host clock
                {| httpMethod := "POST"; path := p;
                   body := Json (VObj []) |} st in
  (statusCode (fst out) = 400 \/ statusCode (fst out) = 404)
  /\ snd out = st
  /\ out' = out.
Proof.
  cbv zeta. unfold handler. cbn [httpMethod path body parse_body].
  change (String.eqb "POST" "OPTIONS") with false.
  unfold dispatch, reading. cbn [destructure].
  change (String.eqb "POST" "POST") with true.
  change (String.eqb "POST" "GET") with false.
  rewrite !andb_true_r, !andb_false_r.
  repeat match goal with
    | |- context [if ?c then _ else _] => destruct c
    end; cbn; auto.
Qed.

(** ** Registration *)

(** X6. Registration succeeds exactly when parent_name, phone and
    child_name are all present.  On success one customer is appended, with
    status active, an id that no record of the store had, the id returned
    in the response, and every absent optional field stored as the empty
    string; otherwise the answer is 400 and the store is unchanged. *)
Theorem register_requires_three_fields
  (host : Host) (clock : nat -> Z) (b : object) (st : store) :
  reachable host st ->
  let out := handler host clock (post "/register" b) st in
  let complete :=
    truthy (field b "parent_name") && truthy (field b "phone")
    && truthy (field b "child_name") in
  (complete = false ->
     out = (respond 400 (Failure "Missing required fields"), st))
  /\ (complete = true ->
      exists c,
        out = (respond 200 (Registered (Customer.id c)),
               {| customers := customers st ++ [c];
                  paymentMethods := paymentMethods st;
                  recurringPayments := recurringPayments st;
                  payments := payments st;
                  idCounter := idCounter st + 1 |})
        /\ ~ In (Customer.id c) (all_ids st)
        /\ Customer.status c = "active"
        /\ Customer.parent_name c = field b "parent_name"
        /\ Customer.phone c = field b "phone"
        /\ Customer.child_name c = field b "child_name"
        /\ (truthy (field b "email") = false -> Customer.email c = VStr "")
        /\ (truthy (field b "notes") = false -> Customer.notes c = VStr "")).
Proof.
  intros Hr out complete. subst out complete.
  change (handler host clock (post "/register" b) st) with (register clock b st).
  unfold register.
  destruct (truthy (field b "parent_name")), (truthy (field b "phone")),
    (truthy (field b "child_name")); cbn [negb orb andb];
    split; intros H; try discriminate; try reflexivity.
  eexists. split; [reflexivity|]. cbn.
  split.
  - intros Hin. destruct (reachable_ids_fresh host st Hr) as (_ & _ & Hb).
    rewrite Forall_forall in Hb. specialize (Hb _ Hin). lia.
  - unfold js_or. repeat split; try reflexivity; intros ->; reflexivity.
Qed.

Lemma register_requires_three_fields_witness :
  reachable utc_host two_agreements
  /\ exists c,
       handler utc_host sample_clock
         (post "/register"
            [("parent_name", VStr "Israel Israeli");
             ("phone", VStr "050-1234567"); ("child_name", VStr "David")])
         two_agreements
       = (respond 200 (Registered (Customer.id c)),
          {| customers := customers two_agreements ++ [c];
             paymentMethods := paymentMethods two_agreements;
             recurringPayments := recurringPayments two_agreements;
             payments := payments two_agreements;
             idCounter := idCounter two_agreements + 1 |})
       /\ ~ In (Customer.id c) (all_ids two_agreements)
       /\ Customer.email c = VStr "".
Proof.
  split; [exact reachable_two_agreements|].
  destruct (register_requires_three_fields utc_host sample_clock
              [("parent_name", VStr "Israel Israeli");
               ("phone", VStr "050-1234567"); ("child_name", VStr "David")]
              two_agreements reachable_two_agreements) as (_ & H).
  destruct (H eq_refl) as (c & E & Hfresh & _ & _ & _ & _ & He & _).
  exists c. split; [exact E|]. split; [exact Hfresh|]. now apply He.
Defined.

(** ** A start date that is no date *)

(** X7. When the start date of a create-recurring request is not a date,
    the request is answered with 500 and stores no agreement and no payment
    record, but the id it had taken for the agreement is spent: the counter
    has moved on by one. *)
Theorem invalid_start_date_spends_an_id
  (host : Host) (clock : nat -> Z) (b : object) (st : store) :
  truthy (field b "customer_id") = true ->
  truthy (field b "payment_method_id") = true ->
  truthy (field b "start_date") = true ->
  new_Date host (field b "start_date") = inr None ->
  handler host clock (post "/create-recurring" b) st
  = (respond 500 (Thrown RangeError), skip_ids 1 st).
Proof.
  intros Hc Hm Hs Hd. rewrite route_create_recurring. unfold create_recurring.
  rewrite Hc, Hm, Hs. cbn [negb orb]. rewrite Hd. reflexivity.
Qed.

Lemma invalid_start_date_spends_an_id_witness :
  new_Date utc_host (VStr "next month") = inr None
  /\ handler utc_host sample_clock
       (post "/create-recurring"
          (recurring_request (VNum 1) (VStr "next month"))) initial
     = (respond 500 (Thrown RangeError), skip_ids 1 initial)
  /\ idCounter (skip_ids 1 initial) = 2.
Proof.
  split; [reflexivity|]. split; [|reflexivity].
  apply (invalid_start_date_spends_an_id utc_host sample_clock
           (recurring_request (VNum 1) (VStr "next month")) initial);
    reflexivity.
Defined.

(** ** The function path *)

Lemma strip_prefix_app pat s : strip_prefix pat (pat ++ s) = Some s.
Proof.
  induction pat as [|c pat IH]; cbn; [reflexivity|].
  now rewrite Ascii.eqb_refl.
Qed.

Lemma remove_first_app pat s : remove_first pat (pat ++ s) = s.
Proof.
  destruct (pat ++ s) eqn:E; cbn; rewrite <- E, strip_prefix_app; reflexivity.
Qed.

(** X8. The function prefix is optional: a request whose path carries the
    prefix [/.netlify/functions/payment] is handled like the request with
    the bare route, for every route that does not itself contain the
    prefix. *)
Theorem function_prefix_is_optional
  (host : Host) (clock : nat -> Z) (m route : string) (b : payload)
  (st : store) :
  remove_first "/.netlify/functions/payment" route = route ->
  handler host clock
    {| httpMethod := m;
       path := "/.netlify/functions/payment" ++ route; body := b |} st
  = handler host clock {| httpMethod := m; path := route; body := b |} st.
Proof.
  intros H. unfold handler. cbn [httpMethod path body].
  rewrite remove_first_app, H. reflexivity.
Qed.

Lemma function_prefix_is_optional_witness :
  handler utc_host sample_clock
    {| httpMethod := "POST";
       path := "/.netlify/functions/payment/cancel-recurring";
       body := Json (VObj [("recurring_id", VNum 1)]) |} two_agreements
  = handler utc_host sample_clock
      {| httpMethod := "POST"; path := "/cancel-recurring";
         body := Json (VObj [("recurring_id", VNum 1)]) |} two_agreements.
Proof.
  apply (function_prefix_is_optional utc_host sample_clock "POST"
           "/cancel-recurring"). reflexivity.
Defined.

(** ** The next payment date on a host with a fixed offset *)

(** X9. On a host with a fixed time zone offset, when the month after the
    start date has the start's day of the month, the next payment date is
    that same day of the following month, December rolling into January
    of the next year.  (With a negative offset this needs a start other
    than the first of a month.) *)
Theorem advance_keeps_day_of_month (host : Host) (c y m d : Z) :
  fixed_offset host c -> - msPerDay < c < msPerDay ->
  0 <= c \/ 2 <= d ->
  valid_date y m d -> -271820 <= y <= 275758 ->
  valid_date (fst (next_month y m)) (snd (next_month y m)) d ->
  next_payment_date host (VStr (iso_date y m d))
  = inr (iso_date (fst (next_month y m)) (snd (next_month y m)) d).
Proof.
  intros Ho Hb Hcd Hv Hy Hv'.
  set (t := MakeDay y m d * msPerDay).
  assert (Ht : Day t = MakeDay y m d)
    by (unfold t, Day, msPerDay; zlia).
  rewrite (advance_by_own_month host c Ho Hb y m d t Hv ltac:(lia) Hcd Ht).
  f_equal. apply iso_date_of_day; [exact Hv'|].
  rewrite Ht. unfold next_month.
  destruct (Z.eqb_spec m 12) as [-> | Hne]; cbn [fst snd].
  - unfold MakeDay. change (12 / 12) with 1. change (12 mod 12) with 0.
    change ((1 - 1) / 12) with 0. change ((1 - 1) mod 12) with 0.
    now replace (y + 1 + 0) with (y + 1) by lia.
  - now replace (m + 1 - 1) with m by lia.
Qed.

Lemma advance_keeps_day_of_month_witness :
  fixed_offset utc_host 0
  /\ next_payment_date utc_host (VStr (iso_date 2024 12 15))
     = inr (iso_date 2025 1 15).
Proof.
  assert (Ho : fixed_offset utc_host 0) by (intros t b; reflexivity).
  split; [exact Ho|].
  apply (advance_keeps_day_of_month utc_host 0 2024 12 15 Ho).
  - unfold msPerDay. lia.
  - left. lia.
  - unfold valid_date. cbn. lia.
  - lia.
  - unfold valid_date. cbn. lia.
Defined.

(** X10. On such a host, when the month after the start date is too short
    for the start's day of the month, the next payment date skips that
    month: it is the day of the month after it that lies as many days in
    as the start day exceeds the short month. *)
Theorem advance_skips_short_month (host : Host) (c y m d : Z) :
  fixed_offset host c -> - msPerDay < c < msPerDay ->
  valid_date y m d -> -271820 <= y <= 275758 ->
  m <= 11 -> DaysInMonth y (m + 1) < d ->
  next_payment_date host (VStr (iso_date y m d))
  = inr (iso_date y (m + 2) (d - DaysInMonth y (m + 1))).
Proof.
  intros Ho Hb Hv Hy Hm11 Hover.
  assert (Hm : 1 <= m <= 12) by apply Hv.
  assert (Hd : 1 <= d <= DaysInMonth y m) by apply Hv.
  destruct (month_table y (m - 1)) as (l & _ & Hl & T1); [lia|].
  replace (m - 1 + 1) with m in T1 by lia.
  destruct (month_table y m) as (l2 & _ & Hl2 & T2); [lia|].
  assert (Hd31 : d <= 31) by lia.
  assert (H28 : 28 <= DaysInMonth y (m + 1)) by lia.
  assert (Hm10 : m <= 10) by lia.
  clear T1 T2.
  pose proof (DaysInMonth_bounds y (m + 1) ltac:(lia)) as Hb2.
  replace (m + 1 + 1) with (m + 2) in Hb2 by lia.
  set (t := MakeDay y m d * msPerDay).
  assert (Ht : Day t = MakeDay y m d)
    by (unfold t, Day, msPerDay; zlia).
  rewrite (advance_by_own_month host c Ho Hb y m d t Hv ltac:(lia)
             ltac:(right; lia) Ht).
  f_equal. apply iso_date_of_day.
  - unfold valid_date. lia.
  - rewrite Ht.
    pose proof (MakeDay_next_month y m (d - DaysInMonth y (m + 1))
                  ltac:(lia)) as Hn.
    replace (m + 2 - 1) with (m + 1) by lia. rewrite Hn.
    rewrite <- MakeDay_shift. f_equal. lia.
Qed.

Lemma advance_skips_short_month_witness :
  fixed_offset utc_host 0
  /\ next_payment_date utc_host (VStr (iso_date 2023 8 31))
     = inr (iso_date 2023 10 1).
Proof.
  assert (Ho : fixed_offset utc_host 0) by (intros t b; reflexivity).
  split; [exact Ho|].
  apply (advance_skips_short_month utc_host 0 2023 8 31 Ho).
  - unfold msPerDay. lia.
  - unfold valid_date. cbn. lia.
  - lia.
  - lia.
  - cbn. lia.
Defined.

(** X11. On a host with a negative time zone offset, a start on the first
    of a month is taken for the last day of the month before: the next
    payment date is the start moved on by the length of that earlier
    month, and when that month is the shorter one the next payment date
    lies in the very month of the start. *)
Theorem advance_first_of_month_west (host : Host) (c y m : Z) :
  fixed_offset host c -> - msPerDay < c < 0 ->
  2 <= m <= 12 -> -271820 <= y <= 275758 ->
  DaysInMonth y (m - 1) < DaysInMonth y m ->
  next_payment_date host (VStr (iso_date y m 1))
  = inr (iso_date y m (1 + DaysInMonth y (m - 1))).
Proof.
  intros Ho Hb Hm Hy Hshort.
  pose proof (DaysInMonth_bounds y (m - 2) ltac:(lia)) as Hp.
  replace (m - 2 + 1) with (m - 1) in Hp by lia.
  pose proof (DaysInMonth_bounds y (m - 1) ltac:(lia)) as Hq.
  replace (m - 1 + 1) with m in Hq by lia.
  assert (Hv : valid_date y m 1) by (unfold valid_date; lia).
  rewrite (advance_fixed_offset host c Ho y m 1 Hv ltac:(lia)).
  cbv zeta.
  set (t0 := MakeDay y (m - 1) 1 * msPerDay).
  assert (Hprev : valid_date y (m - 1) (DaysInMonth y (m - 1)))
    by (unfold valid_date; lia).
  assert (Hlocal : Day (t0 + c)
                   = MakeDay y (m - 1 - 1) (DaysInMonth y (m - 1))).
  { pose proof (MakeDay_next_month y (m - 2) 0 ltac:(lia)) as Hn.
    replace (m - 2 + 1) with (m - 1) in Hn by lia.
    replace (m - 1 - 1) with (m - 2) by lia.
    replace (DaysInMonth y (m - 1)) with (0 + DaysInMonth y (m - 1)) at 1
      by lia.
    rewrite MakeDay_shift, <- Hn.
    replace (MakeDay y (m - 1) 0) with (MakeDay y (m - 1) 1 - 1)
      by (unfold MakeDay; lia).
    unfold t0, Day, msPerDay in *. zlia. }
  destruct (civil_of_MakeDay y (m - 1) _ _ Hprev Hlocal) as (-> & -> & _).
  replace (m - 1 - 1 + 1) with (m - 1) by lia.
  f_equal. apply iso_date_of_day.
  - unfold valid_date. lia.
  - rewrite MakeDay_shift. unfold t0, Day, msPerDay. zlia.
Qed.

Lemma advance_first_of_month_west_witness :
  fixed_offset west_host (-18000000)
  /\ next_payment_date west_host (VStr (iso_date 2024 3 1))
     = inr (iso_date 2024 3 30).
Proof.
  assert (Ho : fixed_offset west_host (-18000000))
    by (intros t b; reflexivity).
  split; [exact Ho|].
  apply (advance_first_of_month_west west_host (-18000000) 2024 3 Ho).
  - unfold msPerDay. lia.
  - lia.
  - lia.
  - cbn. lia.
Defined.

(** ** The payment-methods listing *)

Lemma value_slice_error k v e : value_slice k v = inl e -> e = TypeError.
Proof. destruct v; cbn; congruence. Qed.

Lemma starred_error v sh e :
  (forall e', sh = inl e' -> e' = TypeError) ->
  starred v sh = inl e -> e = TypeError.
Proof.
  intros Hsh. unfold starred. destruct (truthy v); [|discriminate].
  destruct sh as [e' | x]; [intros [= <-]; now apply Hsh|].
  destruct (ToString x) as [e' | t] eqn:E; [|discriminate].
  intros [= <-]. now apply ToString_error in E.
Qed.

Lemma redact_error m e : redact m = inl e -> e = TypeError.
Proof.
  unfold redact.
  destruct (starred (Method.card_number_last4 m) _) as [e1 | c] eqn:E1.
  - intros [= <-]. apply starred_error in E1; [exact E1 | discriminate].
  - destruct (starred (Method.account_number m) _) as [e2 | a] eqn:E2;
      [|discriminate].
    intros [= <-]. apply starred_error in E2; [exact E2|].
    intros e'. apply value_slice_error.
Qed.

Lemma map_redact_inr l vs :
  map_redact l = inr vs -> Forall2 (fun m v => redact m = inr v) l vs.
Proof.
  revert vs. induction l as [|m l IH]; cbn; intros vs H.
  - injection H as <-. constructor.
  - destruct (redact m) as [e | v] eqn:E; [discriminate|].
    destruct (map_redact l) as [e | vs'] eqn:E'; [discriminate|].
    injection H as <-. constructor; auto.
Qed.

Lemma map_redact_app l m :
  map_redact (l ++ [m])
  = match map_redact l with
    | inl e => inl e
    | inr vs =>
        match redact m with
        | inl e => inl e
        | inr v => inr (vs ++ [v])%list
        end
    end.
Proof.
  induction l as [|x l IH]; cbn.
  - destruct (redact m); reflexivity.
  - destruct (redact x); [reflexivity|]. rewrite IH.
    destruct (map_redact l); [reflexivity|].
    destruct (redact m); reflexivity.
Qed.

Lemma map_redact_fails l m :
  In m l -> (exists e, redact m = inl e) -> map_redact l = inl TypeError.
Proof.
  intros Hin [e He]. induction l as [|x l IH]; [destruct Hin|].
  cbn. destruct (redact x) as [e' | v] eqn:E.
  - now rewrite (redact_error x e' E).
  - destruct Hin as [-> | Hin]; [congruence|].
    now rewrite (IH Hin).
Qed.

(** A stored number, cut to its last four and starred. *)
Lemma starred_slice_shown v out :
  starred v (value_slice (-4) v) = inr out ->
  shown_as v out /\ (primitive v = true -> masked out).
Proof.
  unfold starred, shown_as.
  destruct v as [| |x|n|s|l|o]; cbn [truthy value_slice primitive].
  - intros [= <-]. repeat split; try discriminate. now left.
  - intros [= <-]. repeat split; try discriminate. now left.
  - destruct x; [discriminate|]. intros [= <-].
    repeat split; try discriminate. now left.
  - destruct (negb (n =? 0)); [discriminate|]. intros [= <-].
    repeat split; try discriminate. now left.
  - destruct (String.eqb_spec s "") as [-> | Hne]; cbn [negb ToString].
    + intros [= <-]. repeat split; try discriminate; [|now left].
      intros s [= <-] H. now destruct H.
    + intros [= <-]. repeat split; try discriminate.
      * now intros s' [= <-] _.
      * intros _. right. eexists. split; [reflexivity|].
        rewrite string_slice_length. lia.
  - destruct (ToString (VArr (list_slice (-4) l))) as [e | t] eqn:E;
      [discriminate|].
    intros [= <-]. repeat split; try discriminate.
    intros l' [= <-]. now exists t.
  - discriminate.
Qed.

(** The last four of a card as stored, starred. *)
Lemma starred_last4_shown v out :
  (forall s, v = VStr s -> (String.length s <= 4)%nat) ->
  (forall l, v = VArr l -> (List.length l <= 4)%nat) ->
  sliceable v = true \/ v = VUndefined ->
  starred v (inr v) = inr out ->
  shown_as v out /\ (primitive v = true -> masked out).
Proof.
  intros Hs Hl Hv H. apply starred_slice_shown.
  destruct Hv as [Hv | ->]; [|exact H].
  destruct v as [| |x|n|s|l|o]; try discriminate; cbn [value_slice].
  - now rewrite string_slice_short by (now apply Hs).
  - now rewrite list_slice_short by (now apply Hl).
Qed.

Lemma redact_lists m v :
  card_data_redacted m -> redact m = inr v -> lists m v.
Proof.
  intros Hcard. unfold redact.
  destruct (starred (Method.card_number_last4 m) _) as [e1 | c] eqn:E1;
    [discriminate|].
  destruct (starred (Method.account_number m) _) as [e2 | a] eqn:E2;
    [discriminate|].
  intros [= <-]. unfold lists. cbn [shown card_number].
  apply starred_slice_shown in E2. destruct E2 as [Ha Hma].
  apply starred_last4_shown in E1.
  - destruct E1 as [Hc Hmc].
    assert (Ea : Method.account_number (Method.set_account_number a m) = a)
      by reflexivity.
    rewrite Ea. repeat split; try apply Ha; try apply Hc; assumption.
  - intros s Es.
    destruct Hcard as [(_ & [(l4 & E & Hlen) | (l4 & E & _)]) | (_ & E)];
      congruence.
  - intros l El.
    destruct Hcard as [(_ & [(l4 & E & _) | (l4 & E & Hlen)]) | (_ & E)];
      congruence.
  - destruct Hcard as [(_ & [(l4 & -> & _) | (l4 & -> & _)]) | (_ & ->)];
      auto.
Qed.

(** X12. What the payment-methods listing shows.  When it answers 200 in a
    reachable store, it lists exactly the methods stored with a customer id
    strictly equal to the requested one, in the order they were added, each
    with its fields as stored but for the two numbers.  An account number
    or card number that is absent is left out, one stored as a string is
    shown as four stars and its last four code units, and one stored as an
    array as four stars and the text of its last four elements; so a number
    that is no array is shown only masked. *)
Theorem listing_shows_own_methods
  (host : Host) (clock : nat -> Z) (b : object) (st : store)
  (views : list method_view) :
  reachable host st ->
  fst (handler host clock (post "/payment-methods" b) st)
  = respond 200 (PaymentMethods views) ->
  Forall2 lists (own_methods (field b "customer_id") st) views
  /\ map (fun v => Method.id (shown v)) views
     = map Method.id (own_methods (field b "customer_id") st)
  /\ Forall (fun v =>
       strict_eq (Method.customer_id (shown v)) (field b "customer_id") = true)
       views.
Proof.
  intros Hr. change (handler host clock (post "/payment-methods" b) st)
    with (payment_methods b st).
  unfold payment_methods.
  destruct (negb _); [discriminate|].
  fold (own_methods (field b "customer_id") st).
  destruct (map_redact _) as [e | vs] eqn:E; cbn; [discriminate|].
  intros [= <-]. apply map_redact_inr in E.
  assert (Hown : Forall (fun m =>
            strict_eq (Method.customer_id m) (field b "customer_id") = true
            /\ card_data_redacted m)
            (own_methods (field b "customer_id") st)).
  { apply Forall_forall. intros m Hm. unfold own_methods in Hm.
    apply filter_In in Hm. destruct Hm as [Hin Hf].
    apply andb_prop in Hf. split; [apply Hf|].
    pose proof (methods_card_data_redacted host st Hr) as Hall.
    rewrite Forall_forall in Hall. now apply Hall. }
  induction E as [|m v l vs' Hmv E IH]; cbn;
    [repeat split; constructor|].
  inversion Hown as [|? ? [Hc Hcard] Hown']; subst.
  pose proof (redact_lists m v Hcard Hmv) as Hl.
  destruct (IH Hown') as (IH1 & IH2 & IH3).
  assert (Hsame : Method.id (shown v) = Method.id m
                  /\ Method.customer_id (shown v) = Method.customer_id m).
  { destruct Hl as (-> & _). split; reflexivity. }
  destruct Hsame as [Hid Hcid].
  split; [constructor; assumption|].
  split; [now rewrite Hid, IH2|].
  constructor; [now rewrite Hcid | exact IH3].
Qed.

Lemma listing_shows_own_methods_witness :
  let st := run utc_host
              [(sample_clock,
                post "/add-credit-card"
                  (card_request (VNum 1) "4532015112830366"));
               (sample_clock,
                post "/add-standing-order"
                  (standing_order_request (VNum 1) "123456"));
               (sample_clock,
                post "/add-credit-card"
                  [("customer_id", VNum 1);
                   ("card_number", VArr [VStr "4532015112830366"]);
                   ("card_holder_name", VStr "Israel Israeli");
                   ("expiry_month", VStr "12"); ("expiry_year", VStr "2025")]);
               (sample_clock,
                post "/add-credit-card"
                  (card_request (VNum 2) "5555555555554444"));
               (sample_clock,
                post "/add-standing-order"
                  [("customer_id", VNum 1); ("bank_code", VStr "001");
                   ("branch_code", VStr "123");
                   ("account_number", VArr [VStr "12345678"]);
                   ("account_holder_name", VStr "Israel Israeli")])]
              initial in
  let views := listing_of
                 (fst (handler utc_host sample_clock
                         (post "/payment-methods" [("customer_id", VNum 1)])
                         st)) in
  reachable utc_host st
  /\ map card_number views
     = [VStr "****0366"; VUndefined; VStr "****4532015112830366"; VUndefined]
  /\ map (fun v => Method.account_number (shown v)) views
     = [VUndefined; VStr "****3456"; VUndefined; VStr "****12345678"]
  /\ map (fun v => Method.id (shown v)) views = [1; 2; 3; 5]
  /\ Forall2 lists (own_methods (VNum 1) st) views.
Proof.
  intros st views.
  assert (Hr : reachable utc_host st)
    by (apply reachable_run; constructor).
  split; [exact Hr|]. split; [reflexivity|]. split; [reflexivity|].
  split; [reflexivity|].
  exact (proj1 (listing_shows_own_methods utc_host sample_clock
                  [("customer_id", VNum 1)] st views Hr eq_refl)).
Defined.

(** X13. A standing order whose account number is present but is neither
    a string nor an array (a number, say, or an object) is accepted, and
    from then on the payment-methods listing of that customer fails with
    status 500, whatever requests come in between.  The customer id is a
    scalar, as a listing finds no method under an array or an object. *)
Theorem account_without_slice_breaks_listing
  (host : Host) (clock clock' : nat -> Z) (b b' : object) (st : store)
  (trace : list ((nat -> Z) * event)) :
  truthy (field b "customer_id") = true ->
  primitive (field b "customer_id") = true ->
  truthy (field b "bank_code") = true ->
  truthy (field b "branch_code") = true ->
  truthy (field b "account_number") = true ->
  sliceable (field b "account_number") = false ->
  truthy (field b "account_holder_name") = true ->
  field b' "customer_id" = field b "customer_id" ->
  let added := handler host clock (post "/add-standing-order" b) st in
  fst added = respond 200 (StandingOrderAdded (idCounter st))
  /\ fst (handler host clock' (post "/payment-methods" b')
            (run host trace (snd added)))
     = respond 500 (Thrown TypeError).
Proof.
  intros Hc Hprim Hbk Hbr Ha Hns Hh Hb' added. subst added.
  rewrite route_add_standing_order. unfold add_standing_order.
  rewrite Hc, Hbk, Hbr, Ha, Hh. cbn [negb orb fst snd].
  split; [reflexivity|].
  match goal with
  | |- context [run host trace ?s] => set (st1 := s)
  end.
  match goal with
  | st1 := {| paymentMethods := _ ++ [?x] |} |- _ => set (m := x) in *
  end.
  destruct (run_extends host trace st1) as (_ & [ms Hms] & _).
  change (handler host clock' (post "/payment-methods" b')
            (run host trace st1))
    with (payment_methods b' (run host trace st1)).
  unfold payment_methods. rewrite Hb', Hc. cbn [negb].
  rewrite (map_redact_fails _ m); [reflexivity| |].
  - apply filter_In. split.
    + rewrite Hms. apply in_or_app. left.
      unfold st1. cbn [paymentMethods]. apply in_or_app. right. now left.
    + unfold m. cbn. now rewrite strict_eq_refl.
  - exists TypeError. unfold redact, m, starred.
    cbn [Method.account_number Method.card_number_last4 truthy].
    rewrite Ha.
    destruct (field b "account_number") as [| |x|n|s|l|o];
      try discriminate; reflexivity.
Qed.

Lemma account_without_slice_breaks_listing_witness :
  let b := [("customer_id", VNum 1); ("bank_code", VStr "001");
            ("branch_code", VStr "123"); ("account_number", VNum 123456);
            ("account_holder_name", VStr "Israel Israeli")] in
  let added := handler utc_host sample_clock
                 (post "/add-standing-order" b) initial in
  fst added = respond 200 (StandingOrderAdded 1)
  /\ fst (handler utc_host later_clock
            (post "/payment-methods" [("customer_id", VNum 1)])
            (run utc_host
               [(later_clock,
                 post "/add-credit-card"
                   (card_request (VNum 1) "4532015112830366"))]
               (snd added)))
     = respond 500 (Thrown TypeError).
Proof.
  intros b added.
  apply (account_without_slice_breaks_listing utc_host sample_clock
           later_clock b [("customer_id", VNum 1)] initial
           [(later_clock,
             post "/add-credit-card"
               (card_request (VNum 1) "4532015112830366"))]);
    reflexivity.
Defined.

(** X14. Adding a card and listing, for a customer id that is a scalar and
    a card number that is a string: when the listing of the customer
    answers 200, then after the card is added for that customer it answers
    200 again with the same entries followed by one more, which carries the
    method id of the add response, four stars and the last four code units
    of the card number, and no account number. *)
Theorem added_card_is_listed_last
  (host : Host) (clock clock' : nat -> Z) (b b' : object) (st : store)
  (s : string) (views : list method_view) :
  truthy (field b "customer_id") = true ->
  primitive (field b "customer_id") = true ->
  field b "card_number" = VStr s -> s <> "" ->
  truthy (field b "card_holder_name") = true ->
  truthy (field b "expiry_month") = true ->
  truthy (field b "expiry_year") = true ->
  field b' "customer_id" = field b "customer_id" ->
  fst (handler host clock' (post "/payment-methods" b') st)
  = respond 200 (PaymentMethods views) ->
  let added := handler host clock (post "/add-credit-card" b) st in
  exists v,
    fst (handler host clock' (post "/payment-methods" b') (snd added))
    = respond 200 (PaymentMethods (views ++ [v])%list)
    /\ fst added = respond 200 (CardAdded (Method.id (shown v))
                                  (VStr (string_slice (-4) s)))
    /\ card_number v = VStr ("****" ++ string_slice (-4) s)
    /\ Method.account_number (shown v) = VUndefined
    /\ Method.card_holder_name (shown v) = field b "card_holder_name".
Proof.
  intros Hc Hprim Hn Hs Hh Hm Hy Hb' Hlist added. subst added.
  rewrite route_add_credit_card.
  change (handler host clock' (post "/payment-methods" b') st)
    with (payment_methods b' st) in Hlist.
  match goal with
  | |- context [handler host clock' (post "/payment-methods" b') ?x] =>
      change (handler host clock' (post "/payment-methods" b') x)
        with (payment_methods b' x)
  end.
  unfold add_credit_card. rewrite Hc, Hh, Hm, Hy, Hn.
  cbn [truthy value_slice].
  destruct (String.eqb_spec s ""); [contradiction|]. cbn [negb orb fst snd].
  unfold payment_methods in *. rewrite Hb', Hc in *. cbn [negb] in *.
  cbn [paymentMethods]. rewrite filter_app. cbn [filter Method.customer_id
    Method.is_active]. rewrite (strict_eq_refl _ Hprim). cbn [andb].
  rewrite map_redact_app.
  destruct (map_redact (filter _ (paymentMethods st))) as [e | vs];
    cbn in Hlist; [discriminate|].
  injection Hlist as ->.
  unfold redact at 1, starred. cbn [Method.account_number
    Method.card_number_last4 truthy ToString fst].
  assert (Ht : negb (String.eqb (string_slice (-4) s) "") = true).
  { pose proof (string_slice_truthy s) as H. cbn [truthy] in H. rewrite H.
    now destruct (String.eqb_spec s ""). }
  rewrite Ht. eexists. split; [reflexivity|]. cbn. repeat split.
Qed.

Lemma added_card_is_listed_last_witness :
  let st := snd (handler utc_host sample_clock
                   (post "/add-standing-order"
                      (standing_order_request (VNum 1) "123456")) initial) in
  let added := handler utc_host sample_clock
                 (post "/add-credit-card"
                    (card_request (VNum 1) "4532015112830366")) st in
  map card_number
    (listing_of (fst (handler utc_host later_clock
                        (post "/payment-methods" [("customer_id", VNum 1)])
                        (snd added))))
  = [VUndefined; VStr "****0366"]
  /\ exists v,
       fst (handler utc_host later_clock
              (post "/payment-methods" [("customer_id", VNum 1)]) (snd added))
       = respond 200
           (PaymentMethods
              (listing_of
                 (fst (handler utc_host later_clock
                         (post "/payment-methods" [("customer_id", VNum 1)])
                         st)) ++ [v]))
       /\ card_number v = VStr ("****" ++ "0366").
Proof.
  intros st added. split; [vm_compute; reflexivity|].
  assert (Hlist : fst (handler utc_host later_clock
                         (post "/payment-methods" [("customer_id", VNum 1)])
                         st)
                  = respond 200
                      (PaymentMethods
                         (listing_of
                            (fst (handler utc_host later_clock
                                    (post "/payment-methods"
                                       [("customer_id", VNum 1)]) st)))))
    by (vm_compute; reflexivity).
  assert (Hne : "4532015112830366" <> "") by discriminate.
  destruct (added_card_is_listed_last utc_host sample_clock later_clock
              (card_request (VNum 1) "4532015112830366")
              [("customer_id", VNum 1)] st "4532015112830366"
              (listing_of
                 (fst (handler utc_host later_clock
                         (post "/payment-methods" [("customer_id", VNum 1)])
                         st)))
              eq_refl eq_refl eq_refl Hne eq_refl eq_refl eq_refl eq_refl
              Hlist)
    as (v & E & _ & Hcn & _).
  exists v. split; [exact E | exact Hcn].
Defined.

(** ** Cancelling one agreement *)

Lemma has_id_same_id rid r r' :
  has_id rid r = true -> has_id rid r' = true ->
  Recurring.id r = Recurring.id r'.
Proof.
  unfold has_id. destruct rid; cbn; try discriminate.
  intros H1 H2. apply Z.eqb_eq in H1, H2. congruence.
Qed.

Lemma update_first_unique rid f l :
  NoDup (map Recurring.id l) ->
  update_first (has_id rid) f l
  = map (fun r => if has_id rid r then f r else r) l.
Proof.
  induction l as [|x l IH]; cbn [update_first map]; intros Hn; [reflexivity|].
  inversion Hn as [|? ? Hx Hn']; subst.
  destruct (has_id rid x) eqn:E.
  - f_equal. transitivity (map (fun r => r) l); [symmetry; apply map_id|].
    apply map_ext_in. intros r Hr.
    destruct (has_id rid r) eqn:E'; [|reflexivity].
    exfalso. apply Hx. rewrite (has_id_same_id rid x r E E').
    now apply in_map.
  - f_equal. now apply IH.
Qed.

Lemma NoDup_recurring_ids host st :
  reachable host st -> NoDup (map Recurring.id (recurringPayments st)).
Proof.
  intros Hr. destruct (reachable_ids_fresh host st Hr) as (_ & Hn & _).
  unfold all_ids in Hn.
  apply NoDup_app_remove_l, NoDup_app_remove_l in Hn.
  now apply NoDup_app_remove_r in Hn.
Qed.

(** X15. Cancelling touches one agreement only.  In a reachable store a
    cancel request with a present id sets the status of the agreement with
    that id to cancelled and changes nothing else: every other agreement,
    every field of the cancelled one other than its status, and the
    customers, methods, payment records and counter are as before. *)
Theorem cancel_touches_only_named_agreement
  (host : Host) (clock : nat -> Z) (b : object) (st : store) :
  reachable host st ->
  truthy (field b "recurring_id") = true ->
  let st' := snd (handler host clock (post "/cancel-recurring" b) st) in
  recurringPayments st'
  = map (fun r => if has_id (field b "recurring_id") r
                  then Recurring.set_status "cancelled" r else r)
        (recurringPayments st)
  /\ customers st' = customers st
  /\ paymentMethods st' = paymentMethods st
  /\ payments st' = payments st
  /\ idCounter st' = idCounter st.
Proof.
  intros Hr Ht st'. subst st'.
  rewrite route_cancel_recurring. unfold cancel_recurring.
  rewrite Ht. cbn [negb snd recurringPayments customers paymentMethods
                     payments idCounter].
  repeat split.
  apply (update_first_unique (field b "recurring_id")).
  now apply (NoDup_recurring_ids host).
Qed.

Lemma cancel_touches_only_named_agreement_witness :
  let st' := snd (handler utc_host later_clock
                    (post "/cancel-recurring" [("recurring_id", VNum 3)])
                    two_agreements) in
  reachable utc_host two_agreements
  /\ map Recurring.status (recurringPayments st') = ["active"; "cancelled"]
  /\ payments st' = payments two_agreements
  /\ recurringPayments st'
     = map (fun r => if has_id (VNum 3) r
                     then Recurring.set_status "cancelled" r else r)
           (recurringPayments two_agreements).
Proof.
  intros st'. split; [exact reachable_two_agreements|].
  split; [reflexivity|].
  destruct (cancel_touches_only_named_agreement utc_host later_clock
              [("recurring_id", VNum 3)] two_agreements
              reachable_two_agreements eq_refl) as (H1 & _ & _ & H4 & _).
  split; [exact H4 | exact H1].
Defined.

(** ** Limits of the payment history *)

(** X16. A negative limit counts from the end: with limit [-k] the history
    returns the customer's records without the last [k] of them, and none
    when there are no more than [k]. *)
Theorem negative_limit_drops_latest
  (host : Host) (clock : nat -> Z) (b : object) (st : store) (n : Z) :
  truthy (field b "customer_id") = true ->
  field b "limit" = VNum n -> n < 0 ->
  let own := own_payments (field b "customer_id") st in
  handler host clock (post "/payment-history" b) st
  = (respond 200
       (PaymentHistory (firstn (List.length own - Z.to_nat (- n)) own)), st).
Proof.
  intros Hc Hl Hn own. rewrite route_payment_history. unfold payment_history.
  rewrite Hc, Hl. cbn [negb]. fold (own_payments (field b "customer_id") st).
  fold own. unfold js_or. cbn [truthy].
  destruct (Z.eqb_spec n 0); [lia|]. cbn [negb relativeEnd].
  unfold array_slice0. destruct (Z.ltb_spec n 0); [|lia].
  replace (Z.to_nat (Z.max (Z.max (Z.of_nat (List.length own) + n) 0 - 0) 0))
    with (List.length own - Z.to_nat (- n))%nat by lia.
  reflexivity.
Qed.

Lemma negative_limit_drops_latest_witness :
  map Payment.id
    (history_of
       (fst (handler utc_host later_clock
               (post "/payment-history"
                  [("customer_id", VNum 1); ("limit", VNum (-1))])
               two_agreements)))
  = [2].
Proof.
  rewrite (negative_limit_drops_latest utc_host later_clock
             [("customer_id", VNum 1); ("limit", VNum (-1))]
             two_agreements (-1)); [reflexivity | reflexivity | reflexivity
                                   | lia].
Defined.

Lemma create_recurring_appends host clock b st id amt :
  fst (create_recurring host clock b st)
  = respond 200 (RecurringCreated id amt) ->
  exists p,
    payments (snd (create_recurring host clock b st)) = (payments st ++ [p])%list
    /\ Payment.customer_id p = field b "customer_id"
    /\ Payment.id p = id + 1.
Proof.
  intros Hok.
  destruct (create_recurring_stores host clock b st id amt Hok)
    as (r & p & E & (Hid & Hcid & _) & Hr & _ & _ & Hc & _).
  exists p. rewrite E. cbn [with_agreement payments].
  split; [reflexivity|]. split; congruence.
Qed.

(** X17. The default history holds twelve records and no more, for a
    customer id that is a scalar.  Once the customer has twelve payment
    records, a new agreement for that customer does not change the history
    requested without a limit: the new record is not in it.  With fewer
    than twelve, the new record is its last entry. *)
Theorem default_history_stops_at_twelve
  (host : Host) (clock clock' : nat -> Z) (b b' : object) (st : store)
  (id : Z) (amt : value) :
  fst (handler host clock (post "/create-recurring" b) st)
  = respond 200 (RecurringCreated id amt) ->
  field b' "customer_id" = field b "customer_id" ->
  truthy (field b "customer_id") = true ->
  primitive (field b "customer_id") = true ->
  truthy (field b' "limit") = false ->
  let st' := snd (handler host clock (post "/create-recurring" b) st) in
  let before := history_of
                  (fst (handler host clock' (post "/payment-history" b') st)) in
  let after := history_of
                 (fst (handler host clock' (post "/payment-history" b') st')) in
  ((12 <= List.length (own_payments (field b "customer_id") st))%nat ->
     after = before)
  /\ ((List.length (own_payments (field b "customer_id") st) < 12)%nat ->
      exists p, after = (before ++ [p])%list /\ Payment.id p = id + 1).
Proof.
  intros Hok Hb' Hc Hprim Hl st' before after. subst st' before after.
  rewrite route_create_recurring in *.
  rewrite !route_payment_history. unfold payment_history.
  rewrite Hb', Hc. cbn [negb].
  unfold js_or. rewrite Hl. cbn [relativeEnd fst history_of reply_body respond].
  rewrite !array_slice0_positive by lia.
  destruct (create_recurring_appends host clock b st id amt Hok)
    as (p & Ep & Hp & Hid).
  rewrite Ep, filter_app. cbn [filter].
  rewrite Hp, (strict_eq_refl _ Hprim).
  fold (own_payments (field b "customer_id") st).
  set (own := own_payments (field b "customer_id") st).
  change (Z.to_nat 12) with 12%nat. rewrite firstn_app.
  split; intros Hlen.
  - replace (12 - List.length own)%nat with 0%nat by lia.
    cbn [firstn]. now rewrite app_nil_r.
  - exists p. split; [|exact Hid].
    rewrite (firstn_all2 own) by lia.
    destruct (12 - List.length own)%nat as [|k] eqn:E; [lia|].
    cbn [firstn]. now rewrite firstn_nil.
Qed.

Lemma default_history_stops_at_twelve_witness :
  let b := recurring_request (VNum 1) (VStr "2024-03-15") in
  let st' := snd (handler utc_host later_clock
                    (post "/create-recurring" b) two_agreements) in
  let full := snd (handler utc_host later_clock
                     (post "/create-recurring" b) twelve_agreements) in
  history_of (fst (handler utc_host later_clock
                     (post "/payment-history" [("customer_id", VNum 1)])
                     full))
  = history_of (fst (handler utc_host later_clock
                       (post "/payment-history" [("customer_id", VNum 1)])
                       twelve_agreements))
  /\ exists p,
    history_of (fst (handler utc_host later_clock
                       (post "/payment-history" [("customer_id", VNum 1)])
                       st'))
    = (history_of
         (fst (handler utc_host later_clock
                 (post "/payment-history" [("customer_id", VNum 1)])
                 two_agreements)) ++ [p])%list
    /\ Payment.id p = 5 + 1.
Proof.
  intros b st' full. split.
  - assert (Hok : fst (handler utc_host later_clock
                         (post "/create-recurring" b) twelve_agreements)
                  = respond 200 (RecurringCreated 25 (VNum 3500)))
      by (vm_compute; reflexivity).
    destruct (default_history_stops_at_twelve utc_host later_clock
                later_clock b [("customer_id", VNum 1)] twelve_agreements
                25 (VNum 3500) Hok eq_refl eq_refl eq_refl eq_refl)
      as [H _].
    apply H. vm_compute. lia.
  - assert (Hok : fst (handler utc_host later_clock
                         (post "/create-recurring" b) two_agreements)
                  = respond 200 (RecurringCreated 5 (VNum 3500)))
      by (vm_compute; reflexivity).
    destruct (default_history_stops_at_twelve utc_host later_clock
                later_clock b [("customer_id", VNum 1)] two_agreements
                5 (VNum 3500) Hok eq_refl eq_refl eq_refl eq_refl)
      as [_ H].
    apply H. vm_compute. lia.
Defined.

(** ** What create-recurring and add-standing-order do not check *)

Lemma field_cons_other k k' v b :
  k' <> k -> field ((k', v) :: b) k = field b k.
Proof.
  intros H. unfold field. cbn [find fst].
  now destruct (String.eqb_spec k' k).
Qed.

(** X18. The amount of an agreement is not checked.  A present amount is
    stored as given on the agreement and on its payment record and is
    returned in the response; an absent amount, or zero, becomes the 3500
    that config reports as the monthly amount. *)
Theorem amount_defaults_to_monthly_fee
  (host : Host) (clock : nat -> Z) (b : object) (st : store)
  (id : Z) (amt : value) :
  fst (handler host clock (post "/create-recurring" b) st)
  = respond 200 (RecurringCreated id amt) ->
  let st' := snd (handler host clock (post "/create-recurring" b) st) in
  (truthy (field b "amount") = true -> amt = field b "amount")
  /\ (truthy (field b "amount") = false ->
      exists cur types freqs,
        fst (handler host clock
               {| httpMethod := "GET"; path := "/config"; body := NoBody |}
               st')
        = respond 200 (Config 3500 cur types freqs)
        /\ amt = VNum 3500)
  /\ exists r p,
       recurringPayments st' = (recurringPayments st ++ [r])%list
       /\ payments st' = (payments st ++ [p])%list
       /\ Recurring.amount r = amt /\ Payment.amount p = amt.
Proof.
  intros Hok st'. subst st'. rewrite route_create_recurring in *.
  destruct (create_recurring_stores host clock b st id amt Hok)
    as (r & p & E & (_ & _ & _ & Hpa & _) & _ & _ & _ & _ & _ & _ & Hra & Hj).
  rewrite E. cbn [with_agreement recurringPayments payments].
  unfold js_or in Hj.
  split; [|split].
  - now intros Ht; rewrite Ht in Hj.
  - intros Ht; rewrite Ht in Hj. eexists _, _, _. split; [reflexivity|].
    exact Hj.
  - exists r, p. repeat split; congruence.
Qed.

Lemma amount_defaults_to_monthly_fee_witness :
  let b := [("customer_id", VNum 1); ("payment_method_id", VNum 1);
            ("start_date", VStr "2024-01-15")] in
  fst (handler utc_host sample_clock (post "/create-recurring" b) initial)
  = respond 200 (RecurringCreated 1 (VNum 3500))
  /\ map Payment.amount
       (payments (snd (handler utc_host sample_clock
                         (post "/create-recurring" b) initial)))
     = [VNum 3500].
Proof.
  intros b.
  assert (Hok : fst (handler utc_host sample_clock
                       (post "/create-recurring" b) initial)
                = respond 200 (RecurringCreated 1 (VNum 3500)))
    by reflexivity.
  split; [exact Hok|].
  destruct (amount_defaults_to_monthly_fee utc_host sample_clock b initial 1
              (VNum 3500) Hok) as (_ & _ & r & p & _ & Ep & _ & Hp).
  rewrite Ep. cbn. now rewrite Hp.
Defined.

(** X19. The frequency and the end date of a request have no effect on the
    schedule: with any other frequency and any other end date, an end date
    before the start date included, create-recurring gives the same
    response, the same next payment date and the same payment record. *)
Theorem frequency_and_end_date_are_not_used
  (host : Host) (clock : nat -> Z) (b : object) (st : store)
  (frequency end_date : value) :
  let out := handler host clock (post "/create-recurring" b) st in
  let out' := handler host clock
                (post "/create-recurring"
                   (("frequency", frequency) :: ("end_date", end_date) :: b))
                st in
  fst out' = fst out
  /\ payments (snd out') = payments (snd out)
  /\ map Recurring.next_payment_date (recurringPayments (snd out'))
     = map Recurring.next_payment_date (recurringPayments (snd out))
  /\ map Recurring.status (recurringPayments (snd out'))
     = map Recurring.status (recurringPayments (snd out)).
Proof.
  cbv zeta. rewrite !route_create_recurring. unfold create_recurring.
  repeat (rewrite !(field_cons_other "customer_id") by discriminate).
  repeat (rewrite !(field_cons_other "payment_method_id") by discriminate).
  repeat (rewrite !(field_cons_other "amount") by discriminate).
  repeat (rewrite !(field_cons_other "start_date") by discriminate).
  destruct (_ || _); [repeat split|].
  destruct (new_Date _ _); [repeat split|].
  destruct (toISOString _); [repeat split|].
  destruct (ToString _); cbn [fst snd payments recurringPayments];
    rewrite !map_app; repeat split.
Qed.

(** X20. An agreement is created without looking at the customers or the
    payment methods: the response and the records added are the same
    whatever customers and methods the store holds, so an agreement may
    name a customer and a method that do not exist. *)
Theorem create_recurring_checks_no_reference
  (host : Host) (clock : nat -> Z) (b : object) (st : store)
  (cs : list Customer.t) (ms : list Method.t) :
  let out := handler host clock (post "/create-recurring" b) st in
  let out' := handler host clock (post "/create-recurring" b)
                (with_registry cs ms st) in
  fst out' = fst out
  /\ recurringPayments (snd out') = recurringPayments (snd out)
  /\ payments (snd out') = payments (snd out)
  /\ idCounter (snd out') = idCounter (snd out)
  /\ customers (snd out') = cs
  /\ paymentMethods (snd out') = ms.
Proof.
  cbv zeta. rewrite !route_create_recurring. unfold create_recurring.
  destruct (_ || _); [repeat split|].
  destruct (new_Date _ _); [repeat split|].
  destruct (toISOString _); [repeat split|].
  destruct (ToString _); repeat split.
Qed.

(** X21. For a body that is a JSON object, a standing order is stored
    exactly when customer_id, bank_code, branch_code, account_number and
    account_holder_name are all present; the five values are kept as
    given, of whatever type, and the method id is returned; otherwise the
    answer is 400 and the store is unchanged. *)
Theorem standing_order_requires_five_fields
  (host : Host) (clock : nat -> Z) (b : object) (st : store) :
  let out := handler host clock (post "/add-standing-order" b) st in
  let complete :=
    truthy (field b "customer_id") && truthy (field b "bank_code")
    && truthy (field b "branch_code") && truthy (field b "account_number")
    && truthy (field b "account_holder_name") in
  (complete = false ->
     out = (respond 400 (Failure "Missing required fields"), st))
  /\ (complete = true ->
      exists m,
        out = (respond 200 (StandingOrderAdded (Method.id m)),
               {| customers := customers st;
                  paymentMethods := paymentMethods st ++ [m];
                  recurringPayments := recurringPayments st;
                  payments := payments st;
                  idCounter := idCounter st + 1 |})
        /\ Method.id m = idCounter st
        /\ Method.payment_type m = "standing_order"
        /\ Method.customer_id m = field b "customer_id"
        /\ Method.bank_code m = field b "bank_code"
        /\ Method.branch_code m = field b "branch_code"
        /\ Method.account_number m = field b "account_number"
        /\ Method.account_holder_name m = field b "account_holder_name").
Proof.
  cbv zeta. rewrite route_add_standing_order. unfold add_standing_order.
  destruct (truthy (field b "customer_id")), (truthy (field b "bank_code")),
    (truthy (field b "branch_code")), (truthy (field b "account_number")),
    (truthy (field b "account_holder_name")); cbn [negb orb andb];
    split; intros H; try discriminate; try reflexivity.
  eexists. split; [reflexivity|]. cbn. repeat split.
Qed.

Lemma standing_order_requires_five_fields_witness :
  handler utc_host sample_clock
    (post "/add-standing-order"
       [("customer_id", VNum 1); ("bank_code", VStr "001");
        ("account_number", VStr "123456");
        ("account_holder_name", VStr "Israel Israeli")]) two_agreements
  = (respond 400 (Failure "Missing required fields"), two_agreements)
  /\ exists m,
       fst (handler utc_host sample_clock
              (post "/add-standing-order"
                 (standing_order_request (VNum 1) "123456")) two_agreements)
       = respond 200 (StandingOrderAdded (Method.id m))
       /\ Method.id m = 5.
Proof.
  split.
  - apply (standing_order_requires_five_fields utc_host sample_clock
             [("customer_id", VNum 1); ("bank_code", VStr "001");
              ("account_number", VStr "123456");
              ("account_holder_name", VStr "Israel Israeli")]
             two_agreements). reflexivity.
  - destruct (standing_order_requires_five_fields utc_host sample_clock
                (standing_order_request (VNum 1) "123456") two_agreements)
      as [_ H].
    destruct (H eq_refl) as (m & E & Hid & _).
    exists m. rewrite E. split; [reflexivity | exact Hid].
Defined.

(** ** Bodies that cannot be read *)

(** X22. The body is parsed before the route is chosen.  A body that is no
    JSON text is answered with 500 on every path and for every method but
    OPTIONS; a body that is the JSON null is answered with 500 on each of
    the seven routes that read fields, while config still answers; and a
    body that is a JSON number, string, boolean or array is handled like no
    body at all.  The store is unchanged in each case. *)
Theorem unreadable_body_answers_500
  (host : Host) (clock : nat -> Z) (m p : string) (st : store) :
  m <> "OPTIONS" ->
  handler host clock {| httpMethod := m; path := p; body := Malformed |} st
  = (respond 500 (Thrown SyntaxError), st)
  /\ (forall route,
        In route ["/register"; "/add-credit-card"; "/add-standing-order";
                  "/create-recurring"; "/payment-methods";
                  "/payment-history"; "/cancel-recurring"] ->
        handler host clock
          {| httpMethod := "POST";
             path := "/.netlify/functions/payment" ++ route;
             body := Json VNull |} st
        = (respond 500 (Thrown TypeError), st))
  /\ handler host clock
       {| httpMethod := "GET"; path := "/config"; body := Json VNull |} st
     = (config, st)
  /\ (forall v, v <> VUndefined -> v <> VNull -> (forall o, v <> VObj o) ->
        handler host clock {| httpMethod := m; path := p; body := Json v |} st
        = handler host clock {| httpMethod := m; path := p; body := NoBody |}
            st).
Proof.
  intros Hm. split; [|split; [|split]].
  - unfold handler. cbn [httpMethod path body parse_body].
    now destruct (String.eqb_spec m "OPTIONS").
  - intros route Hin. cbn [In] in Hin.
    repeat (destruct Hin as [<- | Hin]; [reflexivity|]). destruct Hin.
  - reflexivity.
  - intros v Hu Hn Ho. unfold handler. cbn [httpMethod path body parse_body].
    destruct (String.eqb m "OPTIONS"); [reflexivity|].
    unfold dispatch, reading.
    destruct v as [| |x|n|s|l|o]; try reflexivity;
      [now destruct Hu | now destruct Hn | now destruct (Ho o)].
Qed.

Lemma unreadable_body_answers_500_witness :
  "POST" <> "OPTIONS"
  /\ handler utc_host sample_clock
       {| httpMethod := "POST"; path := "/register"; body := Malformed |}
       two_agreements
     = (respond 500 (Thrown SyntaxError), two_agreements)
  /\ handler utc_host sample_clock
       {| httpMethod := "POST";
          path := "/.netlify/functions/payment/add-standing-order";
          body := Json VNull |} two_agreements
     = (respond 500 (Thrown TypeError), two_agreements).
Proof.
  assert (Hm : "POST" <> "OPTIONS") by discriminate.
  destruct (unreadable_body_answers_500 utc_host sample_clock "POST"
              "/register" two_agreements Hm) as (H1 & H2 & _).
  split; [exact Hm|]. split; [exact H1|].
  apply (H2 "/add-standing-order"). cbn. tauto.
Defined.

(** ** Arrays and objects as field values *)

Lemma strict_eq_not_primitive a v :
  primitive v = false -> strict_eq a v = false.
Proof. destruct a, v; cbn; congruence. Qed.

Lemma filter_none {A : Type} (f : A -> bool) (l : list A) :
  (forall x, f x = false) -> filter f l = [].
Proof.
  intros H. induction l as [|x l IH]; cbn; [reflexivity|]. now rewrite H.
Qed.

(** X23. A customer id that is an array or an object finds nothing.  It
    passes the required-field checks, so methods and agreements are stored
    under it; but whatever the store holds, the payment-methods listing
    for such an id answers 200 with no method and the history requested
    without a limit answers 200 with no record. *)
Theorem array_customer_id_finds_nothing
  (host : Host) (clock : nat -> Z) (b : object) (st : store) :
  primitive (field b "customer_id") = false ->
  truthy (field b "customer_id") = true
  /\ handler host clock (post "/payment-methods" b) st
     = (respond 200 (PaymentMethods []), st)
  /\ (truthy (field b "limit") = false ->
      handler host clock (post "/payment-history" b) st
      = (respond 200 (PaymentHistory []), st)).
Proof.
  intros Hp.
  assert (Ht : truthy (field b "customer_id") = true)
    by (destruct (field b "customer_id"); cbn in *; congruence).
  split; [exact Ht|]. split.
  - change (handler host clock (post "/payment-methods" b) st)
      with (payment_methods b st).
    unfold payment_methods. rewrite Ht. cbn [negb].
    rewrite filter_none; [reflexivity|].
    intros m. now rewrite strict_eq_not_primitive.
  - intros Hl. rewrite route_payment_history. unfold payment_history.
    rewrite Ht. cbn [negb]. unfold js_or. rewrite Hl. cbn [relativeEnd].
    rewrite filter_none; [reflexivity|].
    intros p. now apply strict_eq_not_primitive.
Qed.

Lemma array_customer_id_finds_nothing_witness :
  let st := snd (handler utc_host sample_clock
                   (post "/add-standing-order"
                      (standing_order_request (VArr [VNum 1]) "123456"))
                   initial) in
  map Method.customer_id (paymentMethods st) = [VArr [VNum 1]]
  /\ handler utc_host later_clock
       (post "/payment-methods" [("customer_id", VArr [VNum 1])]) st
     = (respond 200 (PaymentMethods []), st).
Proof.
  intros st. split; [reflexivity|].
  apply (array_customer_id_finds_nothing utc_host later_clock
           [("customer_id", VArr [VNum 1])] st).
  reflexivity.
Defined.

(** X24. The card number must have a [slice] method and nothing more.  With
    the required fields present, a card number that is a number, a boolean
    or an object is answered with 500 and nothing is stored; one that is an
    array is accepted, and its last four elements are stored and returned:
    the whole array when it has no more than four. *)
Theorem card_number_needs_only_slice
  (host : Host) (clock : nat -> Z) (b : object) (st : store) :
  truthy (field b "customer_id") = true ->
  truthy (field b "card_number") = true ->
  truthy (field b "card_holder_name") = true ->
  truthy (field b "expiry_month") = true ->
  truthy (field b "expiry_year") = true ->
  let out := handler host clock (post "/add-credit-card" b) st in
  (sliceable (field b "card_number") = false ->
     out = (respond 500 (Thrown TypeError), st))
  /\ (forall l, field b "card_number" = VArr l ->
        fst out = respond 200 (CardAdded (idCounter st)
                                 (VArr (list_slice (-4) l)))
        /\ (exists m,
              paymentMethods (snd out) = (paymentMethods st ++ [m])%list
              /\ Method.card_number_last4 m = VArr (list_slice (-4) l))
        /\ ((List.length l <= 4)%nat -> list_slice (-4) l = l)).
Proof.
  intros Hc Hn Hh Hm Hy out. subst out.
  rewrite route_add_credit_card. unfold add_credit_card.
  rewrite Hc, Hn, Hh, Hm, Hy. cbn [negb orb]. split.
  - intros Hs. destruct (field b "card_number"); try discriminate;
      reflexivity.
  - intros l ->. cbn [value_slice fst snd paymentMethods].
    split; [reflexivity|]. split; [|apply list_slice_short].
    eexists. split; reflexivity.
Qed.

Lemma card_number_needs_only_slice_witness :
  let number k := [("customer_id", VNum 1); ("card_number", k);
                   ("card_holder_name", VStr "Israel Israeli");
                   ("expiry_month", VStr "12"); ("expiry_year", VStr "2025")] in
  handler utc_host sample_clock
    (post "/add-credit-card" (number (VNum 4532015112830366))) initial
  = (respond 500 (Thrown TypeError), initial)
  /\ fst (handler utc_host sample_clock
            (post "/add-credit-card"
               (number (VArr [VStr "4532015112830366"]))) initial)
     = respond 200 (CardAdded 1 (VArr [VStr "4532015112830366"])).
Proof.
  intros number. split.
  - apply (card_number_needs_only_slice utc_host sample_clock
             (number (VNum 4532015112830366)) initial); reflexivity.
  - pose proof (card_number_needs_only_slice utc_host sample_clock
                  (number (VArr [VStr "4532015112830366"])) initial
                  eq_refl eq_refl eq_refl eq_refl eq_refl) as H.
    cbv zeta in H.
    exact (proj1 (proj2 H [VStr "4532015112830366"] eq_refl)).
Defined.

(** X25. A start date that cannot be converted fails before any id is
    taken.  When the start date of a create-recurring request is an array
    or an object that has no text, [new Date] throws: the answer is 500 and
    the store is exactly as before, the counter included. *)
Theorem unconvertible_start_date_spends_no_id
  (host : Host) (clock : nat -> Z) (b : object) (st : store) (e : exn) :
  truthy (field b "customer_id") = true ->
  truthy (field b "payment_method_id") = true ->
  primitive (field b "start_date") = false ->
  ToString (field b "start_date") = inl e ->
  handler host clock (post "/create-recurring" b) st
  = (respond 500 (Thrown TypeError), st).
Proof.
  intros Hc Hm Hp He. rewrite route_create_recurring.
  unfold create_recurring. rewrite Hc, Hm.
  assert (Hs : truthy (field b "start_date") = true)
    by (destruct (field b "start_date"); cbn in *; congruence).
  rewrite Hs. cbn [negb orb].
  assert (Hd : new_Date host (field b "start_date") = inl TypeError).
  { pose proof (ToString_error _ _ He) as ->.
    destruct (field b "start_date"); try discriminate;
      unfold new_Date; now rewrite He. }
  now rewrite Hd.
Qed.

Lemma unconvertible_start_date_spends_no_id_witness :
  handler utc_host sample_clock
    (post "/create-recurring"
       (recurring_request (VNum 1) (VObj [("toString", VNum 1)])))
    two_agreements
  = (respond 500 (Thrown TypeError), two_agreements).
Proof.
  apply (unconvertible_start_date_spends_no_id utc_host sample_clock
           (recurring_request (VNum 1) (VObj [("toString", VNum 1)]))
           two_agreements TypeError); reflexivity.
Defined.
